(** * Poise: trade / activity reconciliation and aggregation

    A shallow embedding of [poise/engine/pnl.py],
    [poise/engine/sizing.py], [poise/services/account.py],
    [poise/config/settings.py] and the helpers of [poise/ui] together
    with the properties the specification states about them.

    Layout:
    - [Dec]      Python's [decimal.Decimal] under the default context
                 (28 significant digits, ROUND_HALF_EVEN), finite values;
    - [Py]       the handful of Python built-ins the code relies on
                 (exceptions, [sorted], [max], loops, [defaultdict]) and
                 the library functions taken as parameters ([Py.Env]);
    - [Models]   the three frozen dataclasses;
    - [Pnl]      [engine/pnl.py];
    - [Account]  [services/account.py], in finite decimals;
    - [Raw]      the conversion of raw records once more, with the JSON
                 values as they are and the special values of [Decimal];
    - [Std]      a concrete environment for the worked examples;
    - [Builtins], [Str], [Decimal], [Sizing], [AccountService], [Ui],
      [Config]   slices and strings, [quantize], and the rest of the code;
    - the notions used in the statements and the data of the examples;
    - the facts about the definitions, then the theorems, one block per
      property. *)

From Stdlib Require Import ZArith String Ascii List Lia Sorting.Sorted Permutation.
From Stdlib Require Import DecimalString DecimalZ.
From stdpp Require Import gmap strings list fin_maps.

Local Open Scope string_scope.
Local Open Scope Z_scope.

(* ===================================================================== *)
(** ** Decimal arithmetic *)
(* ===================================================================== *)

(** A finite [decimal.Decimal] is a signed coefficient and an exponent and
    denotes [coef * 10 ^ expo].  Every arithmetic operation computes the
    exact result and then rounds it to the context precision
    ([round_ctx], the library's [_fix]); the exponent of a result is the
    one the library gives it.  Two representations of one value ([1.0]
    and [1.00]) are identified by [eqb], which is Python's [==], and a
    negative zero is not told from zero.

    Not covered: arithmetic on NaN and the infinities, and the exponent
    limits (Emax = 999999) of the context.  Where the code converts a raw
    value, [Raw] tells which values [Decimal(...)] turns into a NaN or an
    infinity. *)
Module Dec.

Record t : Type := mk { coef : Z; expo : Z }.

Definition prec : Z := 28.

(** [len(str(n))] for [0 <= n]. *)
Fixpoint digits_fuel (fuel : nat) (n : Z) : Z :=
  match fuel with
  | O => 1
  | S fuel' => if n <? 10 then 1 else 1 + digits_fuel fuel' (n / 10)
  end.

Definition ndigits (n : Z) : Z := digits_fuel (Z.to_nat (Z.log2 n)) n.

(** Drop the last [shift] digits of [n], rounding half to even. *)
Definition round_half_even (n shift : Z) : Z :=
  let p := 10 ^ shift in
  let q := n / p in
  let r := n mod p in
  if (p <? 2 * r) || ((p =? 2 * r) && Z.odd q) then q + 1 else q.

(** Round to the context precision. *)
Definition round_ctx (d : t) : t :=
  let a := Z.abs (coef d) in
  let nd := ndigits a in
  if nd <=? prec then d
  else
    let shift := nd - prec in
    let q := round_half_even a shift in
    if q =? 10 ^ prec
    then mk (Z.sgn (coef d) * 10 ^ (prec - 1)) (expo d + shift + 1)
    else mk (Z.sgn (coef d) * q) (expo d + shift).

Definition of_Z (z : Z) : t := mk z 0.
Definition zero : t := of_Z 0.

(** [copy_negate]: flips the sign, no rounding. *)
Definition copy_negate (a : t) : t := mk (- coef a) (expo a).

(** [a + b] *)
Definition add (a b : t) : t :=
  let e := Z.min (expo a) (expo b) in
  round_ctx (mk (coef a * 10 ^ (expo a - e) + coef b * 10 ^ (expo b - e)) e).

(** [a - b] is [a + b.copy_negate()]. *)
Definition sub (a b : t) : t := add a (copy_negate b).

(** Unary minus rounds, as every operation does. *)
Definition neg (a : t) : t := round_ctx (copy_negate a).

(** [a * b] *)
Definition mul (a b : t) : t := round_ctx (mk (coef a * coef b) (expo a + expo b)).

(** Drop trailing zeros of an exact quotient while its exponent is below
    the ideal one: [while exp < ideal_exp and coeff % 10 == 0]. *)
Fixpoint strip_zeros (fuel : nat) (c e ideal : Z) : Z * Z :=
  match fuel with
  | O => (c, e)
  | S fuel' =>
      if (e <? ideal) && (c mod 10 =? 0)
      then strip_zeros fuel' (c / 10) (e + 1) ideal
      else (c, e)
  end.

(** The quotient [a / b] for a non-zero [b]: [prec + 1] digits are
    computed; a non-zero remainder is recorded in the last digit, an exact
    quotient is brought as close to the ideal exponent as its trailing
    zeros allow; the result is rounded. *)
Definition quot (a b : t) : t :=
  let s := Z.sgn (coef a) * Z.sgn (coef b) in
  let x := Z.abs (coef a) in
  let y := Z.abs (coef b) in
  let ideal := expo a - expo b in
  if x =? 0 then round_ctx (mk 0 ideal)
  else
    let shift := ndigits y - ndigits x + prec + 1 in
    let e := ideal - shift in
    let num := if 0 <=? shift then x * 10 ^ shift else x in
    let den := if 0 <=? shift then y else y * 10 ^ (- shift) in
    let q := num / den in
    let r := num mod den in
    let '(c, e') :=
      if r =? 0 then strip_zeros (Z.to_nat (ideal - e)) q e ideal
      else (if q mod 5 =? 0 then q + 1 else q, e) in
    round_ctx (mk (s * c) e').

Definition is_zero (a : t) : bool := coef a =? 0.

(** [a / b]; [None] stands for the [DivisionByZero] (or
    [InvalidOperation], for 0/0) signal. *)
Definition div (a b : t) : option t :=
  if is_zero b then None else Some (quot a b).

(** Numeric comparison. *)
Definition compare (a b : t) : comparison :=
  let e := Z.min (expo a) (expo b) in
  Z.compare (coef a * 10 ^ (expo a - e)) (coef b * 10 ^ (expo b - e)).

Definition eqb (a b : t) : bool :=
  match compare a b with Eq => true | _ => false end.
Definition ltb (a b : t) : bool :=
  match compare a b with Lt => true | _ => false end.
Definition leb (a b : t) : bool :=
  match compare a b with Gt => false | _ => true end.

(** [sum(xs)] and [sum(xs, Decimal("0"))]: a left fold from zero. *)
Definition sum (l : list t) : t := fold_left add l zero.

(** A literal [c * 10 ^ (-k)], such as [0.40] = [lit 40 2]. *)
Definition lit (c : Z) (k : Z) : t := mk c (- k).

End Dec.

Declare Scope dec_scope.
Delimit Scope dec_scope with dec.
Infix "+" := Dec.add : dec_scope.
Infix "-" := Dec.sub : dec_scope.
Infix "*" := Dec.mul : dec_scope.
Notation "- x" := (Dec.neg x) : dec_scope.

(* ===================================================================== *)
(** ** Python built-ins *)
(* ===================================================================== *)

(** Exceptions.  A call either returns or raises. *)
Inductive exn : Type :=
  | KeyError (key : string)
  | ValueError
  | TypeError
  | IndexError
  | AttributeError
  | InvalidOperation
  | JSONDecodeError.

Inductive result (A : Type) : Type :=
  | OK (a : A)
  | Raise (e : exn).
Arguments OK {A} a.
Arguments Raise {A} e.

#[global] Instance result_ret : MRet result := fun _ a => OK a.
#[global] Instance result_bind : MBind result := fun _ _ f m =>
  match m with OK a => f a | Raise e => Raise e end.
#[global] Instance result_fmap : FMap result := fun _ _ f m =>
  match m with OK a => OK (f a) | Raise e => Raise e end.

Definition is_ok {A} (r : result A) : bool :=
  match r with OK _ => true | Raise _ => false end.

(** [o] if it is there, else raise [e]. *)
Definition or_raise {A} (e : exn) (o : option A) : result A :=
  match o with Some a => OK a | None => Raise e end.

(** The library functions the code calls and this development does not
    re-implement.  Each theorem holds for every such environment.
    - [int_of_str s] is [int(s)], [None] when it raises [ValueError];
    - [Decimal_of_str s] is [Decimal(s)] when that is a finite number;
    - [Decimal_special s] tells whether [Decimal(s)] is a NaN or an
      infinity (["NaN"], ["sNaN"], ["Infinity"], ["-Inf"], ...), which
      [Decimal] returns without raising; when [s] is neither finite nor
      special, [Decimal(s)] raises [InvalidOperation];
    - [local_date ts] is
      [datetime.fromtimestamp(ts).strftime("%Y-%m-%d")] in the time zone
      of the process, [None] when [ts] is out of range;
    - [json_loads s] is [json.loads(s)], [None] when it raises;
    - [str_strip s] is [s.strip()] and [str_lower s] is [s.lower()], both
      defined by the Unicode character database. *)
Module Py.

(** [str(z)] for an integer. *)
Definition str_of_Z (z : Z) : string := NilZero.string_of_int (Z.to_int z).

(** JSON values after decoding, as far as the price lookup looks into
    them: a scalar or a flat list of scalars. *)
Inductive scalar : Type :=
  | SStr (s : string)
  | SInt (z : Z)
  | SNone.

Inductive jval : Type :=
  | JScalar (x : scalar)
  | JList (l : list scalar).

Record Env : Type := {
  int_of_str : string -> option Z;
  Decimal_of_str : string -> option Dec.t;
  Decimal_special : string -> bool;
  local_date : Z -> option string;
  json_loads : string -> option jval;
  str_strip : string -> string;
  str_lower : string -> string;
  (** [int(str(z)) == z] *)
  int_of_str_of_Z : forall z, int_of_str (str_of_Z z) = Some z;
  (** [json.loads("[]") == []] *)
  json_loads_empty : json_loads "[]" = Some (JList []);
  (** a special value is not a finite one *)
  Decimal_special_not_finite :
    forall s, Decimal_special s = true -> Decimal_of_str s = None
}.

(** [str(x)] for a scalar. *)
Definition str_of_scalar (x : scalar) : string :=
  match x with
  | SStr s => s
  | SInt z => str_of_Z z
  | SNone => "None"
  end.

(** [str.strip()] and [str.lower()] on ASCII text, for [Std.env].

    ASCII white space, the characters [str.strip()] removes. *)
Definition is_space (c : ascii) : bool :=
  let n := nat_of_ascii c in
  ((9 <=? n) && (n <=? 13) || (28 <=? n) && (n <=? 32))%nat.

Fixpoint lstrip (s : string) : string :=
  match s with
  | String c s' => if is_space c then lstrip s' else s
  | EmptyString => EmptyString
  end.

(** Strip trailing white space: a suffix of white space only becomes
    empty. *)
Fixpoint rstrip (s : string) : string :=
  match s with
  | String c s' =>
      match rstrip s' with
      | EmptyString => if is_space c then EmptyString else String c EmptyString
      | r => String c r
      end
  | EmptyString => EmptyString
  end.

(** [s.strip()] *)
Definition strip (s : string) : string := rstrip (lstrip s).

Definition lower_ascii (c : ascii) : ascii :=
  let n := nat_of_ascii c in
  if ((65 <=? n) && (n <=? 90))%nat then ascii_of_nat (n + 32) else c.

(** [s.lower()], on ASCII letters. *)
Fixpoint lower (s : string) : string :=
  match s with
  | String c s' => String (lower_ascii c) (lower s')
  | EmptyString => EmptyString
  end.

(** [sorted(xs, key=..., reverse=True)] once the keys are computed: a
    stable sort into descending key order.  [lt] is the order on keys. *)
Section Sorting.
Context {K A : Type} (lt : K -> K -> bool).

Fixpoint insert_desc (kx : K) (x : A) (l : list (K * A)) : list (K * A) :=
  match l with
  | [] => [(kx, x)]
  | (ky, y) :: l' =>
      if lt kx ky then (ky, y) :: insert_desc kx x l'
      else (kx, x) :: (ky, y) :: l'
  end.

Definition sort_desc (l : list (K * A)) : list (K * A) :=
  foldr (fun p acc => insert_desc (fst p) (snd p) acc) [] l.
End Sorting.

(** [sorted(xs, key=lambda x: int(...), reverse=True)]: the key function
    runs on every element first and may raise. *)
Definition sorted_desc {A} (key : A -> result Z) (xs : list A) : result (list A) :=
  ks ← mapM key xs;
  OK (map snd (sort_desc Z.ltb (zip ks xs))).

(** [max(xs, key=...)]: the first element whose key is maximal;
    [ValueError] on an empty sequence. *)
Fixpoint max_by_from {A} (key : A -> result Z) (best : A) (kbest : Z)
    (xs : list A) : result A :=
  match xs with
  | [] => OK best
  | x :: xs' =>
      kx ← key x;
      if kbest <? kx then max_by_from key x kx xs'
      else max_by_from key best kbest xs'
  end.

Definition max_by {A} (key : A -> result Z) (xs : list A) : result A :=
  match xs with
  | [] => Raise ValueError
  | x :: xs' => kx ← key x; max_by_from key x kx xs'
  end.

(** A [for] loop that threads the loop state and stops at the first
    exception. *)
Fixpoint for_each {A S} (body : S -> A -> result S) (xs : list A) (s : S)
    : result S :=
  match xs with
  | [] => OK s
  | x :: xs' => s' ← body s x; for_each body xs' s'
  end.

(** A [defaultdict] as an association list in insertion order (the order
    [.items()] iterates in).  [dd_update k f default d] is
    [d[k] = f(d[k])], where a missing key is first given [default]. *)
Fixpoint dd_update {K V} `{EqDecision K} (k : K) (f : V -> V) (default : V)
    (d : list (K * V)) : list (K * V) :=
  match d with
  | [] => [(k, f default)]
  | (k', v) :: d' =>
      if decide (k' = k) then (k', f v) :: d'
      else (k', v) :: dd_update k f default d'
  end.

(** [d.get(k)] *)
Fixpoint dd_get {K V} `{EqDecision K} (k : K) (d : list (K * V)) : option V :=
  match d with
  | [] => None
  | (k', v) :: d' => if decide (k' = k) then Some v else dd_get k d'
  end.

(** [max(ints)] over a generator of integers. *)
Definition max_int (xs : list Z) : result Z :=
  match xs with
  | [] => Raise ValueError
  | x :: xs' => OK (fold_left Z.max xs' x)
  end.

End Py.

(* ===================================================================== *)
(** ** Domain models ([poise/models]) *)
(* ===================================================================== *)

Record Trade : Type := {
  id : string;
  market : string;
  asset_id : string;
  side : string;
  size : Dec.t;
  price : Dec.t;
  fee_rate_bps : Dec.t;
  status : string;
  match_time : string;
  outcome : string;
  transaction_hash : string;
  trader_side : string;
  market_title : string;
  category : string
}.

Record TradeGroup : Type := {
  g_market : string;
  g_market_title : string;
  g_category : string;
  g_outcome : string;
  last_match_time : string;
  avg_buy_price : Dec.t;
  total_bought : Dec.t;
  pnl : Dec.t
}.

Record Position : Type := {
  p_market : string;
  p_market_title : string;
  p_category : string;
  p_outcome : string;
  p_avg_buy_price : Dec.t;
  current_price : Dec.t;
  net_shares : Dec.t;
  p_total_bought : Dec.t;
  last_buy_time : string
}.

(* ===================================================================== *)
(** ** [poise/engine/pnl.py] *)
(* ===================================================================== *)

Module Pnl.

Definition _BPS : Dec.t := Dec.of_Z 10000.

(** [trade_pnl]: net cash flow of a single fill.  [_BPS] is not zero, so
    the division is [Dec.quot]. *)
Definition trade_pnl (trade : Trade) : Dec.t :=
  let gross := (price trade * size trade)%dec in
  let fee := Dec.quot (gross * fee_rate_bps trade)%dec _BPS in
  if decide (side trade = "SELL") then (gross - fee)%dec
  else (- (gross + fee))%dec.

(** [total_pnl]: [sum((pnl for _, pnl in daily), Decimal("0"))]. *)
Definition total_pnl (daily : list (string * Dec.t)) : Dec.t :=
  Dec.sum (map snd daily).

(** The first loop of [group_trades]:
    [buckets[(t.market, t.outcome)].append(t)]. *)
Definition bucketize (trades : list Trade)
    : list ((string * string) * list Trade) :=
  fold_left
    (fun buckets t =>
       Py.dd_update (market t, outcome t) (fun fills => (fills ++ [t])%list) []
         buckets)
    trades [].

Section WithEnv.
Variable E : Py.Env.

(** [int(s)] *)
Definition int (s : string) : result Z :=
  or_raise ValueError (Py.int_of_str E s).

(** One iteration of the loop of [daily_pnl]. *)
Definition daily_pnl_step (buckets : list (string * Dec.t)) (trade : Trade)
    : result (list (string * Dec.t)) :=
  ts ← int (match_time trade);
  day ← or_raise ValueError (Py.local_date E ts);
  let gross := (price trade * size trade)%dec in
  let fee := Dec.quot (gross * fee_rate_bps trade)%dec _BPS in
  if decide (side trade = "SELL")
  then OK (Py.dd_update day (fun b => b + (gross - fee))%dec Dec.zero buckets)
  else OK (Py.dd_update day (fun b => b - (gross + fee))%dec Dec.zero buckets).

(** [daily_pnl]: net P&L per calendar day, newest day first. *)
Definition daily_pnl (trades : list Trade) : result (list (string * Dec.t)) :=
  buckets ← Py.for_each daily_pnl_step trades [];
  OK (Py.sort_desc String.ltb buckets).

(** The body of the second loop of [group_trades]: the aggregates of one
    bucket. *)
Definition make_group (key : string * string) (fills : list Trade)
    : result TradeGroup :=
  last ← Py.max_by (fun t => int (match_time t)) fills;
  let buy_fills := filter (fun t => side t = "BUY") fills in
  let '(avg, bought) :=
    match buy_fills with
    | _ :: _ =>
        let total_buy_size := Dec.sum (map size buy_fills) in
        let total_buy_value :=
          Dec.sum (map (fun t => price t * size t)%dec buy_fills) in
        (if Dec.is_zero total_buy_size then Dec.zero
         else Dec.quot total_buy_value total_buy_size,
         total_buy_value)
    | [] => (Dec.zero, Dec.zero)
    end in
  let pnl := Dec.sum (map trade_pnl fills) in
  first ← or_raise IndexError (head fills);
  OK {| g_market := fst key;
        g_market_title := market_title first;
        g_category := category first;
        g_outcome := snd key;
        last_match_time := match_time last;
        avg_buy_price := avg;
        total_bought := bought;
        pnl := pnl |}.

(** [group_trades]: one group per (market, outcome), newest first. *)
Definition group_trades (trades : list Trade) : result (list TradeGroup) :=
  let buckets := bucketize trades in
  result ← mapM (fun b => make_group (fst b) (snd b)) buckets;
  Py.sorted_desc (fun g => int (last_match_time g)) result.

End WithEnv.
End Pnl.

(* ===================================================================== *)
(** ** [poise/services/account.py] *)
(* ===================================================================== *)

(** Raw fill and activity records are JSON objects.  A record is a map
    from field names to values, each value held by its [str()] image: the
    code reads a field either as a string or through [str(...)], [int(...)]
    or [Decimal(...)], which agree on a string and on the integer it
    spells.  Floating-point and nested values are not covered; [Raw]
    below keeps the values themselves.

    A market-info record maps field names to decoded JSON values
    ([Py.jval]). *)
Module Account.

Abbreviation record := (gmap string string).
Abbreviation market_info := (gmap string Py.jval).

(** [a[k]] *)
Definition getitem (a : record) (k : string) : result string :=
  or_raise (KeyError k) (a !! k).

(** [a.get(k, default)] *)
Definition get (a : record) (k : string) (default : string) : string :=
  match a !! k with Some v => v | None => default end.

(** The text before the first ["-"]. *)
Fixpoint before_dash (s : string) : string :=
  match s with
  | String c s' =>
      if Ascii.eqb c "-"%char then EmptyString else String c (before_dash s')
  | EmptyString => EmptyString
  end.

(** [slug.split("-")[0] if slug else ""] *)
Definition _category_from_slug (slug : string) : string :=
  match slug with
  | EmptyString => ""
  | _ => before_dash slug
  end.

(** An entry of [open_raw] in [get_open_positions]. *)
Record OpenRaw : Type := {
  or_conditionId : string;
  or_outcome : string;
  or_avg_buy_price : Dec.t;
  or_net_shares : Dec.t;
  or_total_bought : Dec.t;
  or_last_buy_time : string;
  or_title : string;
  or_slug : string
}.

(** [replace(g, pnl=..., last_match_time=...)] *)
Definition replace_pnl_time (g : TradeGroup) (new_pnl : Dec.t)
    (new_time : string) : TradeGroup :=
  {| g_market := g_market g; g_market_title := g_market_title g;
     g_category := g_category g; g_outcome := g_outcome g;
     last_match_time := new_time; avg_buy_price := avg_buy_price g;
     total_bought := total_bought g; pnl := new_pnl |}.

(** The sentinel outcome of a redemption-only group: an em dash. *)
Definition unknown_outcome : string :=
  String (ascii_of_nat 226) (String (ascii_of_nat 128)
    (String (ascii_of_nat 148) EmptyString)).

(** [redeems[a["conditionId"]].append(a)] for a REDEEM activity. *)
Definition group_redeems_step (redeems : list (string * list record))
    (a : record) : result (list (string * list record)) :=
  ty ← getitem a "type";
  if decide (ty = "REDEEM")
  then cid ← getitem a "conditionId";
       OK (Py.dd_update cid (fun rs => rs ++ [a])%list [] redeems)
  else OK redeems.

(** The loop of [get_trade_groups] that pre-groups the REDEEM activities
    by [conditionId]. *)
Definition group_redeems (activities : list record)
    : result (list (string * list record)) :=
  Py.for_each group_redeems_step activities [].

(** One step of the set comprehension below. *)
Definition redeemed_markets_step (redeemed : gset string) (a : record)
    : result (gset string) :=
  ty ← getitem a "type";
  if decide (ty = "REDEEM")
  then cid ← getitem a "conditionId"; OK ({[cid]} ∪ redeemed)
  else OK redeemed.

(** [{a["conditionId"] for a in activities if a["type"] == "REDEEM"}] *)
Definition redeemed_markets (activities : list record) : result (gset string) :=
  Py.for_each redeemed_markets_step activities ∅.

(** One iteration of the loop of [get_open_positions] that fills
    [buckets] and [meta]. *)
Definition bucket_fills_step
    (st : list ((string * string) * list record) * gmap string (string * string))
    (a : record)
    : result (list ((string * string) * list record)
              * gmap string (string * string)) :=
  let buckets := fst st in
  let meta := snd st in
  ty ← getitem a "type";
  if decide (ty = "TRADE")
  then
    cid ← getitem a "conditionId";
    outcome ← getitem a "outcome";
    let buckets' :=
      Py.dd_update (cid, outcome) (fun fs => fs ++ [a])%list [] buckets in
    match meta !! cid with
    | Some _ => OK (buckets', meta)
    | None =>
        title ← getitem a "title";
        slug ← getitem a "slug";
        OK (buckets', <[cid := (title, slug)]> meta)
    end
  else OK (buckets, meta).

Definition bucket_fills (activities : list record)
    : result (list ((string * string) * list record)
              * gmap string (string * string)) :=
  Py.for_each bucket_fills_step activities ([], ∅).

(** [[f for f in fills if f["side"] == v]] *)
Fixpoint with_side (v : string) (fills : list record) : result (list record) :=
  match fills with
  | [] => OK []
  | f :: fills' =>
      s ← getitem f "side";
      rest ← with_side v fills';
      OK (if decide (s = v) then f :: rest else rest)
  end.

Definition dust : Dec.t := Dec.lit 1 2.

Section WithEnv.
Variable E : Py.Env.

Abbreviation int := (Pnl.int E).

(** [Decimal(s)], in finite decimals: the functions of this module
    compute with finite values only, and a special value ([Py.Decimal_special])
    is where they stop; [Raw.Decimal] below is the conversion with the
    special values. *)
Definition to_Decimal (s : string) : result Dec.t :=
  or_raise InvalidOperation (Py.Decimal_of_str E s).

(** [json.loads(raw) if isinstance(raw, str) else raw] *)
Definition decode (raw : Py.jval) : result Py.jval :=
  match raw with
  | Py.JScalar (Py.SStr s) => or_raise JSONDecodeError (Py.json_loads E s)
  | _ => OK raw
  end.

(** Iterating a decoded value: a list yields its elements, a string its
    characters, anything else raises [TypeError]. *)
Definition iterate (v : Py.jval) : result (list Py.scalar) :=
  match v with
  | Py.JList l => OK l
  | Py.JScalar (Py.SStr s) =>
      OK (map (fun c => Py.SStr (String c EmptyString)) (list_ascii_of_string s))
  | Py.JScalar _ => Raise TypeError
  end.

(** [v[i]] *)
Definition index (v : Py.jval) (i : nat) : result Py.scalar :=
  match v with
  | Py.JList l => or_raise IndexError (l !! i)
  | Py.JScalar (Py.SStr s) =>
      or_raise IndexError
        ((fun c => Py.SStr (String c EmptyString)) <$> String.get i s)
  | Py.JScalar _ => Raise TypeError
  end.

(** [s.strip().lower()] *)
Definition normalize (s : string) : string := Py.str_lower E (Py.str_strip E s).

(** The loop of [_current_price_for_outcome]: [None] when it runs to its
    end without a match. *)
Fixpoint scan_outcomes (prices : Py.jval) (target : string) (i : nat)
    (outcomes : list Py.scalar) : result (option Dec.t) :=
  match outcomes with
  | [] => OK None
  | o :: rest =>
      if decide (normalize (Py.str_of_scalar o) = target)
      then p ← index prices i;
           d ← to_Decimal (Py.str_of_scalar p);
           OK (Some d)
      else scan_outcomes prices target (S i) rest
  end.

(** The [try] block of [_current_price_for_outcome]. *)
Definition price_lookup (market_info : market_info) (outcome : string)
    : result (option Dec.t) :=
  let raw_outcomes :=
    default (Py.JScalar (Py.SStr "[]")) (market_info !! "outcomes") in
  let raw_prices :=
    default (Py.JScalar (Py.SStr "[]")) (market_info !! "outcomePrices") in
  outcomes ← decode raw_outcomes;
  prices ← decode raw_prices;
  let target := normalize outcome in
  items ← iterate outcomes;
  scan_outcomes prices target 0 items.

(** [_current_price_for_outcome]: [except Exception: pass] and the final
    [return Decimal("0")].  (A price that spells a NaN or an infinity is
    returned as such by the code; this module has finite values only, see
    [to_Decimal], and the statements about a failed lookup leave such a
    price out.) *)
Definition _current_price_for_outcome (market_info : market_info)
    (outcome : string) : Dec.t :=
  match price_lookup market_info outcome with
  | OK (Some d) => d
  | OK None => Dec.zero
  | Raise _ => Dec.zero
  end.

(** The [Trade(...)] of [get_trades] for one raw fill. *)
Definition trade_of_fill (t : record) : result Trade :=
  id ← getitem t "id";
  market ← getitem t "market";
  asset_id ← getitem t "asset_id";
  side ← getitem t "side";
  size ← getitem t "size" ≫= to_Decimal;
  price ← getitem t "price" ≫= to_Decimal;
  fee_rate_bps ← getitem t "fee_rate_bps" ≫= to_Decimal;
  status ← getitem t "status";
  match_time ← getitem t "match_time";
  outcome ← getitem t "outcome";
  transaction_hash ← getitem t "transaction_hash";
  trader_side ← getitem t "trader_side";
  OK {| id := id; market := market; asset_id := asset_id; side := side;
        size := size; price := price; fee_rate_bps := fee_rate_bps;
        status := status; match_time := match_time; outcome := outcome;
        transaction_hash := transaction_hash; trader_side := trader_side;
        market_title := ""; category := "" |}.

(** [get_trades], applied to what [self._api.get_trades()] returned. *)
Definition get_trades (raw_trades : list record) : result (list Trade) :=
  mapM trade_of_fill raw_trades.

(** The [Trade(...)] built from a TRADE activity; [with_meta] tells
    whether title and category are filled in ([get_trade_groups]) or left
    at their defaults ([_activities_as_trades]). *)
Definition trade_of_activity (with_meta : bool) (a : record) : result Trade :=
  id ← getitem a "transactionHash";
  market ← getitem a "conditionId";
  let asset_id := get a "asset" "" in
  side ← getitem a "side";
  size ← getitem a "size" ≫= to_Decimal;
  price ← getitem a "price" ≫= to_Decimal;
  match_time ← getitem a "timestamp";
  outcome ← getitem a "outcome";
  transaction_hash ← getitem a "transactionHash";
  if with_meta then
    title ← getitem a "title";
    slug ← getitem a "slug";
    OK {| id := id; market := market; asset_id := asset_id; side := side;
          size := size; price := price; fee_rate_bps := Dec.of_Z 0;
          status := "CONFIRMED"; match_time := match_time; outcome := outcome;
          transaction_hash := transaction_hash; trader_side := "";
          market_title := title; category := _category_from_slug slug |}
  else
    OK {| id := id; market := market; asset_id := asset_id; side := side;
          size := size; price := price; fee_rate_bps := Dec.of_Z 0;
          status := "CONFIRMED"; match_time := match_time; outcome := outcome;
          transaction_hash := transaction_hash; trader_side := "";
          market_title := ""; category := "" |}.

(** [sum(Decimal(str(r["usdcSize"])) for r in market_redeems)] *)
Definition redeem_total (market_redeems : list record) : result Dec.t :=
  Dec.sum <$> mapM (fun r => getitem r "usdcSize" ≫= to_Decimal) market_redeems.

(** [int(r["timestamp"])] *)
Definition timestamp (r : record) : result Z := getitem r "timestamp" ≫= int.

(** One iteration of the first loop of [get_trade_groups]. *)
Definition trade_activities_step (trades : list Trade) (a : record)
    : result (list Trade) :=
  ty ← getitem a "type";
  if decide (ty = "TRADE")
  then t ← trade_of_activity true a; OK (trades ++ [t])%list
  else OK trades.

(** First loop of [get_trade_groups]: Trades from the TRADE activities. *)
Definition trade_activities (activities : list record) : result (list Trade) :=
  Py.for_each trade_activities_step activities [].

(** The body of the loop over [groups]. *)
Definition augment_group (redeems : list (string * list record))
    (g : TradeGroup) : result TradeGroup :=
  match default [] (Py.dd_get (g_market g) redeems) with
  | [] => OK g
  | market_redeems =>
      total ← redeem_total market_redeems;
      latest_redeem ← Py.str_of_Z <$> (mapM timestamp market_redeems ≫= Py.max_int);
      old ← int (last_match_time g);
      latest ← int latest_redeem;
      let new_last_time := Py.str_of_Z (Z.max old latest) in
      OK (replace_pnl_time g (pnl g + total)%dec new_last_time)
  end.

(** The body of the loop over [redeems.items()], for a market that is
    not in [grouped_markets]. *)
Definition redeem_only_group (cid : string) (market_redeems : list record)
    : result TradeGroup :=
  total ← redeem_total market_redeems;
  latest ← Py.max_by timestamp market_redeems;
  title ← getitem latest "title";
  slug ← getitem latest "slug";
  ts ← getitem latest "timestamp";
  OK {| g_market := cid; g_market_title := title;
        g_category := _category_from_slug slug;
        g_outcome := unknown_outcome;
        last_match_time := ts;
        avg_buy_price := Dec.of_Z 0; total_bought := Dec.of_Z 0;
        pnl := total |}.

(** [get_trade_groups], applied to what [self._data.get_activity()]
    returned.  [grouped_markets] is complete when the loop over [groups]
    ends, and is only read after it. *)
Definition get_trade_groups (activities : list record)
    : result (list TradeGroup) :=
  trades ← trade_activities activities;
  groups ← Pnl.group_trades E trades;
  redeems ← group_redeems activities;
  augmented ← mapM (augment_group redeems) groups;
  let grouped_markets : gset string := list_to_set (map g_market groups) in
  redeem_only ←
    mapM (fun cr => redeem_only_group (fst cr) (snd cr))
      (filter (fun cr => fst cr ∉ grouped_markets) redeems);
  Py.sorted_desc (fun g => int (last_match_time g)) (augmented ++ redeem_only)%list.

(** One iteration of the loop of [_activities_as_trades]. *)
Definition _activities_as_trades_step (trades : list Trade) (a : record)
    : result (list Trade) :=
  ty ← getitem a "type";
  if decide (ty = "TRADE")
  then t ← trade_of_activity false a; OK (trades ++ [t])%list
  else if decide (ty = "REDEEM")
  then
    size ← getitem a "size" ≫= to_Decimal;
    if Dec.is_zero size then OK trades
    else
      usdc ← getitem a "usdcSize" ≫= to_Decimal;
      let price := Dec.quot usdc size in
      id ← getitem a "transactionHash";
      market ← getitem a "conditionId";
      match_time ← getitem a "timestamp";
      transaction_hash ← getitem a "transactionHash";
      OK (trades ++
          [{| id := id; market := market; asset_id := ""; side := "SELL";
              size := size; price := price; fee_rate_bps := Dec.of_Z 0;
              status := "CONFIRMED"; match_time := match_time;
              outcome := ""; transaction_hash := transaction_hash;
              trader_side := ""; market_title := ""; category := "" |}])%list
  else OK trades.

(** [_activities_as_trades] *)
Definition _activities_as_trades (activities : list record)
    : result (list Trade) :=
  Py.for_each _activities_as_trades_step activities [].

(** [Decimal(str(f["size"]))] *)
Definition size_of (f : record) : result Dec.t := getitem f "size" ≫= to_Decimal.

(** [Decimal(str(f["price"])) * Decimal(str(f["size"]))] *)
Definition value_of (f : record) : result Dec.t :=
  p ← getitem f "price" ≫= to_Decimal;
  s ← getitem f "size" ≫= to_Decimal;
  OK (p * s)%dec.

(** The body of the loop over [buckets.items()]: [None] when the bucket
    is skipped. *)
Definition open_raw_entry (redeemed : gset string)
    (meta : gmap string (string * string)) (key : string * string)
    (fills : list record) : result (option OpenRaw) :=
  let cid := fst key in
  let outcome := snd key in
  if decide (cid ∈ redeemed) then OK None
  else
    buys ← with_side "BUY" fills;
    sells ← with_side "SELL" fills;
    total_buy_size ← Dec.sum <$> mapM size_of buys;
    total_sell_size ← Dec.sum <$> mapM size_of sells;
    let net_shares := (total_buy_size - total_sell_size)%dec in
    if Dec.leb net_shares (Dec.of_Z 0) then OK None
    else
      total_buy_value ← Dec.sum <$> mapM value_of buys;
      let avg_price :=
        if Dec.is_zero total_buy_size then Dec.of_Z 0
        else Dec.quot total_buy_value total_buy_size in
      last_buy_time ← Py.str_of_Z <$> (mapM timestamp buys ≫= Py.max_int);
      m ← or_raise (KeyError cid) (meta !! cid);
      OK (Some {| or_conditionId := cid; or_outcome := outcome;
                  or_avg_buy_price := avg_price;
                  or_net_shares := net_shares;
                  or_total_bought := total_buy_value;
                  or_last_buy_time := last_buy_time;
                  or_title := fst m; or_slug := snd m |}).

(** [open_raw], sorted: everything [get_open_positions] does before it
    asks for prices. *)
Definition open_raw (activities : list record) : result (list OpenRaw) :=
  redeemed ← redeemed_markets activities;
  st ← bucket_fills activities;
  entries ← mapM (fun b => open_raw_entry redeemed (snd st) (fst b) (snd b)) (fst st);
  Py.sorted_desc (fun p => int (or_last_buy_time p)) (omap Datatypes.id entries).

(** One step of the dict comprehension of [market_map]. *)
Definition market_map_step (mp : gmap string market_info) (m : market_info)
    : result (gmap string market_info) :=
  match m !! "conditionId" with
  | None => Raise (KeyError "conditionId")
  | Some (Py.JScalar (Py.SStr cid)) => OK (<[cid := m]> mp)
  | Some (Py.JScalar _) => OK mp
  | Some (Py.JList _) => Raise TypeError
  end.

(** [{m["conditionId"]: m for m in markets}] inside its [try]: any
    exception, of the call or of the comprehension, leaves [{}].
    [markets] is what [get_markets_by_condition_ids] returned, [None]
    when it raised.  A key that is not a string is never looked up, a
    list is not hashable. *)
Definition market_map (markets : option (list market_info))
    : gmap string market_info :=
  match markets with
  | None => ∅
  | Some ms =>
      match Py.for_each market_map_step ms ∅ with
      | OK mp => mp
      | Raise _ => ∅
      end
  end.

(** The body of the last loop of [get_open_positions]: [None] for a
    position that is skipped as dust. *)
Definition position_of (mp : gmap string market_info) (p : OpenRaw)
    : option Position :=
  let info := default ∅ (mp !! or_conditionId p) in
  let price := _current_price_for_outcome info (or_outcome p) in
  if Dec.leb (price * or_net_shares p)%dec dust then None
  else Some {| p_market := or_conditionId p;
               p_market_title := or_title p;
               p_category := _category_from_slug (or_slug p);
               p_outcome := or_outcome p;
               p_avg_buy_price := or_avg_buy_price p;
               current_price := price;
               net_shares := or_net_shares p;
               p_total_bought := or_total_bought p;
               last_buy_time := or_last_buy_time p |}.

(** [get_open_positions], applied to the activity feed and to the
    answer of the price service. *)
Definition get_open_positions (activities : list record)
    (markets : option (list market_info)) : result (list Position) :=
  raw ← open_raw activities;
  OK (omap (position_of (market_map markets)) (raw : list OpenRaw)).

(** [get_pnl_summary] *)
Definition get_pnl_summary (activities : list record)
    : result (Dec.t * list (string * Dec.t)) :=
  trades ← _activities_as_trades activities;
  daily ← Pnl.daily_pnl E trades;
  OK (Pnl.total_pnl daily, daily).

End WithEnv.
End Account.

(* ===================================================================== *)
(** ** The conversion of raw records, value by value *)
(* ===================================================================== *)

(** [get_trades] and the first loop of [get_trade_groups] once more, now
    with the JSON values of a record as they are and with every value
    [Decimal(...)] can return.  [Account.get_trades] and
    [Account.trade_activities] are these functions on records that hold
    strings and convert to finite numbers (see [get_trades_refines] and
    [trade_activities_refines] below).

    A field holds a JSON scalar; arrays and objects as field values are
    not covered. *)
Module Raw.

(** A decoded JSON scalar.  A float is held by its [repr] and by its exact
    value, which it has unless it is a NaN or an infinity. *)
Inductive json : Type :=
  | JNull
  | JBool (b : bool)
  | JInt (z : Z)
  | JFloat (repr : string) (exact : option Dec.t)
  | JStr (s : string).

Abbreviation record := (gmap string json).

(** What [Decimal(...)] returns: a finite number, or a NaN or an
    infinity, held by the text it was made from. *)
Inductive value : Type :=
  | Finite (d : Dec.t)
  | Special (source : string).

(** The [Trade] dataclass: no field is checked against its annotation. *)
Record Trade : Type := {
  id : json;
  market : json;
  asset_id : json;
  side : json;
  size : value;
  price : value;
  fee_rate_bps : value;
  status : json;
  match_time : json;
  outcome : json;
  transaction_hash : json;
  trader_side : json;
  market_title : json;
  category : string
}.

(** [str(v)] *)
Definition str (v : json) : string :=
  match v with
  | JNull => "None"
  | JBool true => "True"
  | JBool false => "False"
  | JInt z => Py.str_of_Z z
  | JFloat r _ => r
  | JStr s => s
  end.

(** [bool(v)] *)
Definition truthy (v : json) : bool :=
  match v with
  | JNull => false
  | JBool b => b
  | JInt z => negb (z =? 0)
  | JFloat _ (Some x) => negb (Dec.is_zero x)
  | JFloat _ None => true
  | JStr EmptyString => false
  | JStr _ => true
  end.

(** [v == s] for a string literal [s] *)
Definition equals (v : json) (s : string) : bool :=
  match v with
  | JStr s' => bool_decide (s' = s)
  | _ => false
  end.

(** [a[k]] *)
Definition getitem (a : record) (k : string) : result json :=
  or_raise (KeyError k) (a !! k).

(** [a.get(k, default)] *)
Definition get (a : record) (k : string) (default : json) : json :=
  match a !! k with Some v => v | None => default end.

(** [_category_from_slug]: [slug.split] is there for a string only. *)
Definition _category_from_slug (slug : json) : result string :=
  if truthy slug then
    match slug with
    | JStr s => OK (Account.before_dash s)
    | _ => Raise AttributeError
    end
  else OK "".

Section WithEnv.
Variable E : Py.Env.

(** [Decimal(s)] for a string *)
Definition Decimal_of_text (s : string) : result value :=
  match Py.Decimal_of_str E s with
  | Some d => OK (Finite d)
  | None =>
      if Py.Decimal_special E s then OK (Special s) else Raise InvalidOperation
  end.

(** [Decimal(v)]: an integer, a boolean and a float convert exactly, a
    string is parsed, [None] is a [TypeError]. *)
Definition Decimal (v : json) : result value :=
  match v with
  | JNull => Raise TypeError
  | JBool b => OK (Finite (Dec.of_Z (if b then 1 else 0)))
  | JInt z => OK (Finite (Dec.of_Z z))
  | JFloat _ (Some x) => OK (Finite x)
  | JFloat r None => OK (Special r)
  | JStr s => Decimal_of_text s
  end.

(** The [Trade(...)] of [get_trades] for one raw fill. *)
Definition trade_of_fill (t : record) : result Trade :=
  id ← getitem t "id";
  market ← getitem t "market";
  asset_id ← getitem t "asset_id";
  side ← getitem t "side";
  size ← getitem t "size" ≫= Decimal;
  price ← getitem t "price" ≫= Decimal;
  fee_rate_bps ← getitem t "fee_rate_bps" ≫= Decimal;
  status ← getitem t "status";
  match_time ← getitem t "match_time";
  outcome ← getitem t "outcome";
  transaction_hash ← getitem t "transaction_hash";
  trader_side ← getitem t "trader_side";
  OK {| id := id; market := market; asset_id := asset_id; side := side;
        size := size; price := price; fee_rate_bps := fee_rate_bps;
        status := status; match_time := match_time; outcome := outcome;
        transaction_hash := transaction_hash; trader_side := trader_side;
        market_title := JStr ""; category := "" |}.

(** [get_trades], applied to what [self._api.get_trades()] returned. *)
Definition get_trades (raw_trades : list record) : result (list Trade) :=
  mapM trade_of_fill raw_trades.

(** [Decimal(str(a[k]))] *)
Definition Decimal_of_field (a : record) (k : string) : result value :=
  v ← getitem a k; Decimal_of_text (str v).

(** The [Trade(...)] of the first loop of [get_trade_groups]. *)
Definition trade_of_activity (a : record) : result Trade :=
  id ← getitem a "transactionHash";
  market ← getitem a "conditionId";
  let asset_id := get a "asset" (JStr "") in
  side ← getitem a "side";
  size ← Decimal_of_field a "size";
  price ← Decimal_of_field a "price";
  match_time ← getitem a "timestamp";
  outcome ← getitem a "outcome";
  transaction_hash ← getitem a "transactionHash";
  title ← getitem a "title";
  category ← getitem a "slug" ≫= _category_from_slug;
  OK {| id := id; market := market; asset_id := asset_id; side := side;
        size := size; price := price; fee_rate_bps := Finite (Dec.of_Z 0);
        status := JStr "CONFIRMED"; match_time := JStr (str match_time);
        outcome := outcome; transaction_hash := transaction_hash;
        trader_side := JStr ""; market_title := title; category := category |}.

(** One iteration of the first loop of [get_trade_groups]. *)
Definition trade_activities_step (trades : list Trade) (a : record)
    : result (list Trade) :=
  ty ← getitem a "type";
  if equals ty "TRADE"
  then t ← trade_of_activity a; OK (trades ++ [t])%list
  else OK trades.

(** First loop of [get_trade_groups]: Trades from the TRADE activities. *)
Definition trade_activities (activities : list record) : result (list Trade) :=
  Py.for_each trade_activities_step activities [].

End WithEnv.
End Raw.

(* ===================================================================== *)
(** ** A concrete environment *)
(* ===================================================================== *)

(** The theorems below hold for every [Py.Env].  [Std.env] is one: plain
    integer and decimal literals and the special values, ASCII text,
    calendar dates in UTC.  It is what the worked examples are computed
    in. *)
Module Std.

(** [int(s)] on an optionally signed run of digits. *)
Definition int_of_str (s : string) : option Z :=
  Z.of_int <$> NilZero.int_of_string s.

Fixpoint split_dot (s : string) : string * option string :=
  match s with
  | EmptyString => (EmptyString, None)
  | String c s' =>
      if Ascii.eqb c "."%char then (EmptyString, Some s')
      else let p := split_dot s' in (String c (fst p), snd p)
  end.

(** The special values: an optional sign, then [nan], [snan], [inf] or
    [infinity] in any case. *)
Definition Decimal_special (s : string) : bool :=
  let body :=
    match s with
    | String "-"%char r => r
    | String "+"%char r => r
    | _ => s
    end in
  bool_decide (Py.lower body ∈ ["nan"; "snan"; "inf"; "infinity"]).

(** [Decimal(s)] on [[sign] digits [. digits]] with at least one digit. *)
Definition Decimal_of_str (s : string) : option Dec.t :=
  if Decimal_special s then None else
  let '(sign, body) :=
    match s with
    | String "-"%char r => (-1, r)
    | String "+"%char r => (1, r)
    | _ => (1, s)
    end in
  let ip := fst (split_dot body) in
  let fp := default EmptyString (snd (split_dot body)) in
  match NilEmpty.uint_of_string ip, NilEmpty.uint_of_string fp with
  | Some i, Some f =>
      let k := Z.of_nat (String.length fp) in
      if (String.length ip + String.length fp =? 0)%nat then None
      else Some (Dec.mk (sign * (Z.of_uint i * 10 ^ k + Z.of_uint f)) (- k))
  | _, _ => None
  end.

(** Year, month and day of the proleptic Gregorian calendar for a day
    count from 1970-01-01. *)
Definition civil_from_days (days : Z) : Z * Z * Z :=
  let z := days + 719468 in
  let era := z / 146097 in
  let doe := z - era * 146097 in
  let yoe := (doe - doe / 1460 + doe / 36524 - doe / 146096) / 365 in
  let doy := doe - (365 * yoe + yoe / 4 - yoe / 100) in
  let mp := (5 * doy + 2) / 153 in
  let d := doy - (153 * mp + 2) / 5 + 1 in
  let m := if mp <? 10 then mp + 3 else mp - 9 in
  let y := yoe + era * 400 + (if m <=? 2 then 1 else 0) in
  (y, m, d).

Definition two_digits (n : Z) : string :=
  if n <? 10 then String "0"%char (Py.str_of_Z n) else Py.str_of_Z n.

(** ["%Y-%m-%d"] in UTC, for the years 1000 to 9999. *)
Definition local_date (ts : Z) : option string :=
  let '(y, m, d) := civil_from_days (ts / 86400) in
  if (1000 <=? y) && (y <=? 9999)
  then Some (Py.str_of_Z y ++ "-" ++ two_digits m ++ "-" ++ two_digits d)%string
  else None.

(** Decodes the empty array only; the examples pass decoded lists. *)
Definition json_loads (s : string) : option Py.jval :=
  if String.eqb s "[]" then Some (Py.JList []) else None.

Definition env : Py.Env.
Proof.
  refine {| Py.int_of_str := int_of_str;
            Py.Decimal_of_str := Decimal_of_str;
            Py.Decimal_special := Decimal_special;
            Py.local_date := local_date;
            Py.json_loads := json_loads;
            Py.str_strip := Py.strip;
            Py.str_lower := Py.lower;
            Py.int_of_str_of_Z := _;
            Py.json_loads_empty := eq_refl;
            Py.Decimal_special_not_finite := _ |}.
  - intros z. unfold int_of_str, Py.str_of_Z.
    rewrite NilZero.isi.
    + simpl. f_equal. apply DecimalZ.of_to.
    + destruct z; simpl; try discriminate.
      intros [= H]. now apply DecimalPos.Unsigned.to_uint_nonnil in H.
    + destruct z; simpl; try discriminate.
      intros [= H]. now apply DecimalPos.Unsigned.to_uint_nonnil in H.
  - intros s Hs. unfold Decimal_of_str. now rewrite Hs.
Defined.

End Std.

(* ===================================================================== *)
(** ** Notions used in the statements *)
(* ===================================================================== *)

(** Descending order of integer keys. *)
Definition descending (ks : list Z) : Prop :=
  StronglySorted (fun a b => b <= a) ks.

(** Sum of a list of integers. *)
Definition Zsum (l : list Z) : Z := foldr Z.add 0 l.

#[global] Instance exn_eq_dec : EqDecision exn.
Proof. solve_decision. Defined.

#[global] Instance result_eq_dec {A} `{EqDecision A} : EqDecision (result A).
Proof. solve_decision. Defined.

(** *** Decimals that do not round *)

(** The Decimal has at most [k] decimal places. *)
Definition places (k : Z) (x : Dec.t) : Prop := - k <= Dec.expo x.

(** Its value in units of [10 ^ (-k)]. *)
Definition units (k : Z) (x : Dec.t) : Z := Dec.coef x * 10 ^ (Dec.expo x + k).

(** *** Trades and groups *)

Definition trade_key (t : Trade) : string * string := (market t, outcome t).
Definition group_key (g : TradeGroup) : string * string := (g_market g, g_outcome g).

(** The trades of a (market, outcome) partition, in input order. *)
Definition members (k : string * string) (trades : list Trade) : list Trade :=
  filter (fun t => trade_key t = k) trades.

(** Its BUY trades. *)
Definition buy_members (k : string * string) (trades : list Trade) : list Trade :=
  filter (fun t => side t = "BUY") (members k trades).

(** The calendar day of a trade:
    [datetime.fromtimestamp(int(trade.match_time)).strftime("%Y-%m-%d")]. *)
Definition day_of E (t : Trade) : result string :=
  ts ← Pnl.int E (match_time t);
  or_raise ValueError (Py.local_date E ts).

(** The trades of a calendar day, in input order. *)
Definition trades_on E (day : string) (trades : list Trade) : list Trade :=
  filter (fun t => day_of E t = OK day) trades.

(** The cash flows have at most [k] decimal places and their absolute
    values total less than [10 ^ (28 - k)]: no sum of them rounds. *)
Definition no_rounding (k : Z) (trades : list Trade) : Prop :=
  0 <= k
  /\ (forall t, t ∈ trades -> places k (Pnl.trade_pnl t))
  /\ Zsum (map (fun t => Z.abs (units k (Pnl.trade_pnl t))) trades) < 10 ^ Dec.prec.

(** *** Activities *)

(** The TRADE activities of a feed. *)
Definition trades_of (activities : list Account.record) : list Account.record :=
  filter (fun a => a !! "type" = Some "TRADE") activities.

(** The REDEEM activities of a market, in feed order. *)
Definition redeems_of (cid : string) (activities : list Account.record)
    : list Account.record :=
  filter (fun a => a !! "type" = Some "REDEEM" /\ a !! "conditionId" = Some cid)
    activities.

(** The market has a REDEEM activity in the feed. *)
Definition redeemed_in (activities : list Account.record) (cid : string) : Prop :=
  exists a, a ∈ activities /\ a !! "type" = Some "REDEEM"
            /\ a !! "conditionId" = Some cid.

(** The TRADE activities of a (market, outcome) partition, in feed
    order. *)
Definition fills_of (key : string * string) (activities : list Account.record)
    : list Account.record :=
  filter (fun a => a !! "type" = Some "TRADE"
                   /\ a !! "conditionId" = Some (fst key)
                   /\ a !! "outcome" = Some (snd key)) activities.

(** The fills of a partition on one side. *)
Definition on_side (v : string) (fills : list Account.record)
    : list Account.record :=
  filter (fun f => f !! "side" = Some v) fills.

(** The partition passes the check [net_shares > 0] of
    [get_open_positions]. *)
Definition passes_net_check E (fills : list Account.record) : Prop :=
  exists buy_sizes sell_sizes,
    mapM (Account.size_of E) (on_side "BUY" fills) = OK buy_sizes
    /\ mapM (Account.size_of E) (on_side "SELL" fills) = OK sell_sizes
    /\ Dec.leb (Dec.sum buy_sizes - Dec.sum sell_sizes)%dec (Dec.of_Z 0) = false.

(** What the reconciliation does to a group [g] of a market whose REDEEM
    activities are [rs]. *)
Definition reconciled E (rs : list Account.record) (g g' : TradeGroup) : Prop :=
  match rs with
  | [] => g' = g
  | _ =>
      exists total latest old,
        Account.redeem_total E rs = OK total
        /\ mapM (Account.timestamp E) rs ≫= Py.max_int = OK latest
        /\ Pnl.int E (last_match_time g) = OK old
        /\ g' = Account.replace_pnl_time g (pnl g + total)%dec
                  (Py.str_of_Z (Z.max old latest))
  end.

(** *** Raw fields *)

(** The field is present and [Decimal(...)] of its value is [d]. *)
Definition parsed E (t : Account.record) (f : string) (d : Dec.t) : Prop :=
  exists s, t !! f = Some s /\ Py.Decimal_of_str E s = Some d.

(** A Decimal of moderate magnitude: at most 28 digits and an exponent
    within 100000 of zero, far from the exponent limits of the context. *)
Definition moderate (d : Dec.t) : Prop :=
  Z.abs (Dec.coef d) < 10 ^ Dec.prec /\ Z.abs (Dec.expo d) <= 100000.

(** *** Redemptions *)

(** The summed redemption payout of the REDEEM activities [rs]: the sum
    of their [usdcSize], each read by [Decimal(str(...))], in feed
    order. *)
Definition payout E (rs : list Account.record) (total : Dec.t) : Prop :=
  exists amounts,
    Forall2 (fun r d => parsed E r "usdcSize" d) rs amounts
    /\ total = Dec.sum amounts.

(** The latest timestamp of the activities [rs]: [int(r["timestamp"])] of
    one of them, and no smaller than that of any of them. *)
Definition latest_timestamp E (rs : list Account.record) (latest : Z) : Prop :=
  (exists r s,
     r ∈ rs /\ r !! "timestamp" = Some s /\ Py.int_of_str E s = Some latest)
  /\ forall r, r ∈ rs ->
       exists s z,
         r !! "timestamp" = Some s /\ Py.int_of_str E s = Some z /\ z <= latest.

(** The group [g'] is the group [g] with the redemptions [rs] of its
    market added: the payout is added to [pnl], [last_match_time] is the
    later of the time of the group and the latest redemption timestamp,
    and every other field is the one of [g].  Without a redemption the
    group is unchanged. *)
Definition redemptions_added E (rs : list Account.record) (g g' : TradeGroup)
    : Prop :=
  match rs with
  | [] => g' = g
  | _ =>
      exists total latest old,
        payout E rs total
        /\ latest_timestamp E rs latest
        /\ Py.int_of_str E (last_match_time g) = Some old
        /\ pnl g' = (pnl g + total)%dec
        /\ last_match_time g' = Py.str_of_Z (Z.max old latest)
        /\ g_market g' = g_market g
        /\ g_outcome g' = g_outcome g
        /\ g_market_title g' = g_market_title g
        /\ g_category g' = g_category g
        /\ avg_buy_price g' = avg_buy_price g
        /\ total_bought g' = total_bought g
  end.

(** *** Prices *)

(** An outcome name matches when it equals the wanted one after
    [strip().lower()] on both. *)
Definition matches E (outcome : string) (o : Py.scalar) : Prop :=
  Py.str_lower E (Py.str_strip E (Py.str_of_scalar o))
  = Py.str_lower E (Py.str_strip E outcome).

#[global] Instance matches_dec E outcome o : Decision (matches E outcome o).
Proof. unfold matches. apply _. Defined.

(** [Decimal(str(prices[i]))] *)
Definition price_at E (prices : Py.jval) (i : nat) : result Dec.t :=
  p ← Account.index prices i; Account.to_Decimal E (Py.str_of_scalar p).

(** [Decimal(s)] raises [InvalidOperation]: [s] spells neither a finite
    number nor a special value. *)
Definition rejected E (s : string) : Prop :=
  Py.Decimal_of_str E s = None /\ Py.Decimal_special E s = false.

(** The lookup of [_current_price_for_outcome] fails: an array cannot be
    decoded or iterated, no outcome name matches, or the price at the
    index of the first match is missing or rejected by [Decimal(...)]. *)
Definition lookup_fails E (info : Account.market_info) (outcome : string) : Prop :=
  let raw_outcomes := default (Py.JScalar (Py.SStr "[]")) (info !! "outcomes") in
  let raw_prices := default (Py.JScalar (Py.SStr "[]")) (info !! "outcomePrices") in
  (exists e, Account.decode E raw_outcomes = Raise e)
  \/ (exists e, Account.decode E raw_prices = Raise e)
  \/ (exists v e, Account.decode E raw_outcomes = OK v /\ Account.iterate v = Raise e)
  \/ exists outcomes prices items,
       Account.decode E raw_outcomes = OK outcomes
       /\ Account.decode E raw_prices = OK prices
       /\ Account.iterate outcomes = OK items
       /\ match list_find (matches E outcome) items with
          | None => True
          | Some (i, _) =>
              (exists e, Account.index prices i = Raise e)
              \/ (exists p, Account.index prices i = OK p
                            /\ rejected E (Py.str_of_scalar p))
          end.

(** *** Raw records, value by value *)

#[global] Instance Dec_eq_dec : EqDecision Dec.t.
Proof. solve_decision. Defined.

#[global] Instance json_eq_dec : EqDecision Raw.json.
Proof. solve_decision. Defined.

(** The record with its values as JSON strings. *)
Definition as_json (t : Account.record) : Raw.record := Raw.JStr <$> t.

(** The Trade with its texts as JSON strings and its numbers as finite
    values. *)
Definition as_raw_trade (t : Trade) : Raw.Trade :=
  {| Raw.id := Raw.JStr (id t); Raw.market := Raw.JStr (market t);
     Raw.asset_id := Raw.JStr (asset_id t); Raw.side := Raw.JStr (side t);
     Raw.size := Raw.Finite (size t); Raw.price := Raw.Finite (price t);
     Raw.fee_rate_bps := Raw.Finite (fee_rate_bps t);
     Raw.status := Raw.JStr (status t); Raw.match_time := Raw.JStr (match_time t);
     Raw.outcome := Raw.JStr (outcome t);
     Raw.transaction_hash := Raw.JStr (transaction_hash t);
     Raw.trader_side := Raw.JStr (trader_side t);
     Raw.market_title := Raw.JStr (market_title t);
     Raw.category := category t |}.

(** The value is a number: an integer, a finite float, or a string that
    spells a finite number. *)
Definition is_number E (v : Raw.json) : Prop :=
  match v with
  | Raw.JInt _ => True
  | Raw.JFloat _ (Some _) => True
  | Raw.JStr s => is_Some (Py.Decimal_of_str E s)
  | _ => False
  end.

(** The field of a raw fill is absent, or [Decimal(...)] rejects its
    value: the value is [None], or a string that spells neither a finite
    number nor a special value. *)
Definition unusable E (t : Raw.record) (f : string) : Prop :=
  t !! f = None
  \/ t !! f = Some Raw.JNull
  \/ exists s, t !! f = Some (Raw.JStr s) /\ rejected E s.

(** The field of an activity is absent, or [Decimal(str(...))] rejects
    its value. *)
Definition unusable_text E (a : Raw.record) (f : string) : Prop :=
  a !! f = None \/ exists v, a !! f = Some v /\ rejected E (Raw.str v).

(** What the conversion of a raw fill raises: [KeyError] for a missing
    field, [TypeError] for a numeric field that is [None],
    [InvalidOperation] for one that [Decimal(...)] rejects. *)
Definition fill_error E (t : Raw.record) (e : exn) : Prop :=
  (exists k, e = KeyError k /\ t !! k = None)
  \/ (e = TypeError /\ exists f, t !! f = Some Raw.JNull)
  \/ (e = InvalidOperation /\ exists f s, t !! f = Some (Raw.JStr s) /\ rejected E s).

(** What the conversion of an activity raises: [KeyError] for a missing
    field, [InvalidOperation] for a numeric field whose text
    [Decimal(...)] rejects, [AttributeError] for a slug that is not a
    string. *)
Definition activity_error E (a : Raw.record) (e : exn) : Prop :=
  (exists k, e = KeyError k /\ a !! k = None)
  \/ (e = InvalidOperation /\ exists f v, a !! f = Some v /\ rejected E (Raw.str v))
  \/ (e = AttributeError
      /\ exists v, a !! "slug" = Some v /\ forall s, v <> Raw.JStr s).

(** The TRADE activities of a feed of JSON records. *)
Definition raw_trades_of (activities : list Raw.record) : list Raw.record :=
  filter (fun a => a !! "type" = Some (Raw.JStr "TRADE")) activities.

(** [Decimal(t[f])] is [x]. *)
Definition converted E (t : Raw.record) (f : string) (x : Raw.value) : Prop :=
  exists v, t !! f = Some v /\ Raw.Decimal E v = OK x.

(** [Decimal(str(a[f]))] is [x]. *)
Definition converted_text E (a : Raw.record) (f : string) (x : Raw.value) : Prop :=
  exists v, a !! f = Some v /\ Raw.Decimal_of_text E (Raw.str v) = OK x.

(* ===================================================================== *)
(** ** Data of the worked examples *)
(* ===================================================================== *)

(** A fill. *)
Definition a_fill (mkt out sd : string) (sz pr fee : Dec.t) (time : string) : Trade :=
  {| id := "0x1"; market := mkt; asset_id := "1"; side := sd;
     size := sz; price := pr; fee_rate_bps := fee; status := "CONFIRMED";
     match_time := time; outcome := out; transaction_hash := "0x1";
     trader_side := "TAKER"; market_title := ""; category := "" |}.

(** Activity records. *)
Definition trade_activity (cid out sd sz pr ts : string) : Account.record :=
  list_to_map
    [("type", "TRADE"); ("conditionId", cid); ("asset", "1"); ("side", sd);
     ("size", sz); ("price", pr); ("usdcSize", "0"); ("timestamp", ts);
     ("outcome", out); ("title", "Some market"); ("slug", "nba-finals");
     ("transactionHash", "0x1")].

Definition redeem_activity (cid sz usdc ts : string) : Account.record :=
  list_to_map
    [("type", "REDEEM"); ("conditionId", cid); ("side", ""); ("size", sz);
     ("price", "0"); ("usdcSize", usdc); ("timestamp", ts); ("outcome", "");
     ("title", "Some market"); ("slug", "nba-finals");
     ("transactionHash", "0x2")].

(** C1: two days, a very large and a small cash flow. *)
Definition c1_trades : list Trade :=
  [ a_fill "0xA" "Yes" "SELL" (Dec.mk 1 28) (Dec.of_Z 1) (Dec.of_Z 0) "0";
    a_fill "0xA" "Yes" "SELL" (Dec.of_Z 1) (Dec.of_Z 1) (Dec.of_Z 0) "86400";
    a_fill "0xA" "Yes" "BUY" (Dec.mk 1 28) (Dec.of_Z 1) (Dec.of_Z 0) "0" ].

(** C1: ordinary trades on two days. *)
Definition c1_ok_trades : list Trade :=
  [ a_fill "0xA" "Yes" "BUY" (Dec.of_Z 100) (Dec.lit 40 2) (Dec.of_Z 0) "1700000000";
    a_fill "0xB" "No" "SELL" (Dec.of_Z 25) (Dec.lit 615 3) (Dec.of_Z 200) "1700090000";
    a_fill "0xA" "Yes" "SELL" (Dec.of_Z 100) (Dec.lit 60 2) (Dec.of_Z 200) "1700003600" ].

Definition c1_ok_daily : list (string * Dec.t) :=
  Eval vm_compute in
    match Pnl.daily_pnl Std.env c1_ok_trades with OK d => d | Raise _ => [] end.

(** C2: four trades in three partitions. *)
Definition c2_trades : list Trade :=
  [ a_fill "0xA" "Yes" "BUY" (Dec.of_Z 10) (Dec.lit 40 2) (Dec.of_Z 0) "100";
    a_fill "0xB" "No" "BUY" (Dec.of_Z 5) (Dec.lit 30 2) (Dec.of_Z 0) "300";
    a_fill "0xA" "Yes" "SELL" (Dec.of_Z 4) (Dec.lit 55 2) (Dec.of_Z 0) "200";
    a_fill "0xA" "No" "BUY" (Dec.of_Z 1) (Dec.lit 10 2) (Dec.of_Z 0) "150" ].

Definition c2_groups : list TradeGroup :=
  Eval vm_compute in
    match Pnl.group_trades Std.env c2_trades with OK gs => gs | Raise _ => [] end.

(** C3: one BUY of 100 at 0.40, one SELL of 100 at 0.60 with 200 bps. *)
Definition c3_buy : Trade :=
  a_fill "0xA" "Yes" "BUY" (Dec.of_Z 100) (Dec.lit 40 2) (Dec.of_Z 0) "100".
Definition c3_sell : Trade :=
  a_fill "0xA" "Yes" "SELL" (Dec.of_Z 100) (Dec.lit 60 2) (Dec.of_Z 200) "200".

Definition c3_groups : list TradeGroup :=
  Eval vm_compute in
    match Pnl.group_trades Std.env [c3_buy; c3_sell] with
    | OK gs => gs
    | Raise _ => []
    end.

(** C4: a traded and redeemed market, a market that is only redeemed, a
    market that is only traded. *)
Definition c4_activities : list Account.record :=
  [ trade_activity "0xA" "Yes" "BUY" "100" "0.40" "100";
    redeem_activity "0xA" "100" "100" "500";
    redeem_activity "0xB" "20" "10" "300";
    redeem_activity "0xB" "30" "15" "250";
    trade_activity "0xC" "No" "BUY" "10" "0.5" "50" ].

Definition c4_groups : list TradeGroup :=
  Eval vm_compute in
    match Account.get_trade_groups Std.env c4_activities with
    | OK gs => gs
    | Raise _ => []
    end.

(** C5: a REDEEM of usdcSize 50 and size 100. *)
Definition c5_redeem : Account.record := redeem_activity "0xA" "100" "50" "700".

(** C6: five shares bought, and the answer of the price service. *)
Definition c6_activities : list Account.record :=
  [ trade_activity "0xA" "Yes" "BUY" "5" "0.5" "100" ].

Definition c6_markets (yes_price no_price : string)
    : option (list Account.market_info) :=
  Some [ list_to_map
           [("conditionId", Py.JScalar (Py.SStr "0xA"));
            ("outcomes", Py.JList [Py.SStr "Yes"; Py.SStr "No"]);
            ("outcomePrices", Py.JList [Py.SStr yes_price; Py.SStr no_price])] ].

Definition c6_positions : list Position :=
  Eval vm_compute in
    match Account.get_open_positions Std.env c6_activities (c6_markets "0.01" "0.99") with
    | OK ps => ps
    | Raise _ => []
    end.

(** C7: times 100, 300, 200. *)
Definition c7_trades : list Trade :=
  [ a_fill "0xA" "Yes" "BUY" (Dec.of_Z 1) (Dec.lit 5 1) (Dec.of_Z 0) "100";
    a_fill "0xB" "Yes" "BUY" (Dec.of_Z 1) (Dec.lit 5 1) (Dec.of_Z 0) "300";
    a_fill "0xC" "Yes" "BUY" (Dec.of_Z 1) (Dec.lit 5 1) (Dec.of_Z 0) "200" ].

Definition c7_activities : list Account.record :=
  [ trade_activity "0xA" "Yes" "BUY" "1" "0.5" "100";
    redeem_activity "0xB" "1" "1" "300";
    trade_activity "0xC" "Yes" "BUY" "1" "0.5" "200" ].

Definition c7_groups : list TradeGroup :=
  Eval vm_compute in
    match Account.get_trade_groups Std.env c7_activities with
    | OK gs => gs
    | Raise _ => []
    end.

(** C8: a market-info record with decoded arrays. *)
Definition c8_info : Account.market_info :=
  list_to_map
    [("conditionId", Py.JScalar (Py.SStr "0xA"));
     ("outcomes", Py.JList [Py.SStr "Yes"; Py.SStr "No"]);
     ("outcomePrices", Py.JList [Py.SStr "0.65"; Py.SStr "0.35"])].

(** C9: a raw fill with a given [size]. *)
Definition c9_fill (sz : string) : Account.record :=
  list_to_map
    [("id", "1"); ("market", "0xA"); ("asset_id", "7"); ("side", "BUY");
     ("size", sz); ("price", "0.40"); ("fee_rate_bps", "0");
     ("status", "CONFIRMED"); ("match_time", "100"); ("outcome", "Yes");
     ("transaction_hash", "0x1"); ("trader_side", "TAKER")].

(** C9: the same fill as a JSON record, with any value as [size]. *)
Definition c9_json_fill (sz : Raw.json) : Raw.record :=
  <["size" := sz]> (as_json (c9_fill "0")).

(** C10: five bought, two sold. *)
Definition c10_ok_activities : list Account.record :=
  [ trade_activity "0xA" "Yes" "BUY" "5" "0.5" "100";
    trade_activity "0xA" "Yes" "SELL" "2" "0.6" "200" ].

(* ===================================================================== *)
(** ** More Python built-ins: slices and strings *)
(* ===================================================================== *)

Module Builtins.

(** [xs[:n]]: the first [n] elements, and for a negative [n] all but the
    last [-n]. *)
Definition slice_to {A} (n : Z) (xs : list A) : list A :=
  if 0 <=? n then take (Z.to_nat n) xs
  else take (Z.to_nat (Z.of_nat (length xs) + n)) xs.

(** The position an index stands for in a sequence of length [len]: a
    negative index counts from the end, and both ends clip. *)
Definition clip (len : nat) (i : Z) : nat :=
  if 0 <=? i then Nat.min (Z.to_nat i) len
  else Z.to_nat (Z.of_nat len + i).

(** [xs[start:stop]] *)
Definition slice {A} (start stop : Z) (xs : list A) : list A :=
  let a := clip (length xs) start in
  let b := clip (length xs) stop in
  take (b - a) (drop a xs).

End Builtins.

(** A Python string is held by its UTF-8 encoding, as the literals of
    the code are.  A character starts at every byte that is not a
    continuation byte ([10xxxxxx]); [len] and slices count characters. *)
Module Str.

Definition is_continuation (c : ascii) : bool :=
  let n := nat_of_ascii c in
  ((128 <=? n) && (n <? 192))%nat.

(** [len(s)] *)
Fixpoint len (s : string) : nat :=
  match s with
  | EmptyString => 0
  | String c s' => ((if is_continuation c then 0 else 1) + len s')%nat
  end.

(** The first [k] characters of [s]. *)
Fixpoint take_chars (k : nat) (s : string) : string :=
  match s with
  | EmptyString => EmptyString
  | String c s' =>
      if is_continuation c then String c (take_chars k s')
      else
        match k with
        | O => EmptyString
        | S k' => String c (take_chars k' s')
        end
  end.

(** [s[:n]] *)
Definition slice_to (n : Z) (s : string) : string :=
  if 0 <=? n then take_chars (Z.to_nat n) s
  else take_chars (Z.to_nat (Z.of_nat (len s) + n)) s.

(** [s.startswith(p)] *)
Definition startswith (p s : string) : bool := String.prefix p s.

(** [s.removeprefix(p)] *)
Definition removeprefix (p s : string) : string :=
  if String.prefix p s
  then String.substring (String.length p) (String.length s - String.length p) s
  else s.

End Str.

(* ===================================================================== *)
(** ** More of [decimal.Decimal]: [quantize] and [abs] *)
(* ===================================================================== *)

(** [quantize] brings a Decimal to a given exponent.  It is the one
    operation of the code that takes a rounding mode of its own; it
    signals [InvalidOperation] when the result would need more digits
    than the context precision.  As in [Dec], the exponent limits are
    not covered and a negative zero is not told from zero. *)
Module Decimal.

Inductive rounding : Type :=
  | ROUND_DOWN
  | ROUND_HALF_UP.

(** [_rescale(exp, rounding)]: pad with zeros, or drop digits and round.
    [ROUND_DOWN] never rounds up; [ROUND_HALF_UP] rounds up when the
    first dropped digit is 5 or more. *)
Definition rescale (a : Dec.t) (exp : Z) (r : rounding) : Dec.t :=
  if exp <=? Dec.expo a
  then Dec.mk (Dec.coef a * 10 ^ (Dec.expo a - exp)) exp
  else
    let p := 10 ^ (exp - Dec.expo a) in
    let x := Z.abs (Dec.coef a) in
    let q := x / p in
    let rest := x mod p in
    let q' :=
      match r with
      | ROUND_DOWN => q
      | ROUND_HALF_UP => if p <=? 2 * rest then q + 1 else q
      end in
    Dec.mk (Z.sgn (Dec.coef a) * q') exp.

(** [a.quantize(exp, rounding=r)]; [None] stands for the
    [InvalidOperation] signal. *)
Definition quantize (a exp : Dec.t) (r : rounding) : option Dec.t :=
  let e := Dec.expo exp in
  if Dec.coef a =? 0 then Some (Dec.mk 0 e)
  else if Dec.prec <? Dec.ndigits (Z.abs (Dec.coef a)) + Dec.expo a - e then None
  else
    let ans := rescale a e r in
    if Dec.prec <? Dec.ndigits (Z.abs (Dec.coef ans)) then None
    else Some ans.

(** [abs(a)]: the sign is dropped and the result rounded to the
    context. *)
Definition abs (a : Dec.t) : Dec.t :=
  Dec.round_ctx (Dec.mk (Z.abs (Dec.coef a)) (Dec.expo a)).

(** [n] zeros. *)
Fixpoint zeros (n : nat) : string :=
  match n with
  | O => EmptyString
  | S n' => String "0"%char (zeros n')
  end.

(** [str(a)], which is also what an f-string shows: plain notation when
    the exponent is not positive and there are fewer than six zeros
    after the point, scientific notation otherwise. *)
Definition to_str (a : Dec.t) : string :=
  let sign := if Dec.coef a <? 0 then "-" else "" in
  let digits := Py.str_of_Z (Z.abs (Dec.coef a)) in
  let n := Z.of_nat (String.length digits) in
  let leftdigits := Dec.expo a + n in
  let dotplace :=
    if (Dec.expo a <=? 0) && (- 6 <? leftdigits) then leftdigits else 1 in
  let intpart :=
    if dotplace <=? 0 then "0"
    else if n <=? dotplace then (digits ++ zeros (Z.to_nat (dotplace - n)))%string
    else String.substring 0 (Z.to_nat dotplace) digits in
  let fracpart :=
    if dotplace <=? 0 then ("." ++ zeros (Z.to_nat (- dotplace)) ++ digits)%string
    else if n <=? dotplace then ""
    else ("." ++ String.substring (Z.to_nat dotplace) (Z.to_nat (n - dotplace))
                   digits)%string in
  let exp :=
    if leftdigits =? dotplace then ""
    else
      let k := leftdigits - dotplace in
      let plus := if 0 <=? k then "+" else "" in
      ("E" ++ plus ++ Py.str_of_Z k)%string in
  (sign ++ intpart ++ fracpart ++ exp)%string.

End Decimal.

(* ===================================================================== *)
(** ** [poise/engine/sizing.py] *)
(* ===================================================================== *)

Module Sizing.

Definition _FRACTION : Dec.t := Dec.lit 5 2.

(** [unit_bet]: 5% of the balance, cut to two decimal places. *)
Definition unit_bet (balance : Dec.t) : result Dec.t :=
  or_raise InvalidOperation
    (Decimal.quantize (balance * _FRACTION)%dec (Dec.lit 1 2) Decimal.ROUND_DOWN).

End Sizing.

(* ===================================================================== *)
(** ** [poise/services/account.py]: the balance *)
(* ===================================================================== *)

Module AccountService.

Section WithEnv.
Variable E : Py.Env.

(** [get_balance], applied to what [get_balance_allowance()] returned:
    [Decimal(raw.get("balance", "0")) / Decimal("1000000")].  The
    divisor is not zero, so the division is [Dec.quot]. *)
Definition get_balance (raw : Account.record) : result Dec.t :=
  balance ←
    match raw !! "balance" with
    | Some s => Account.to_Decimal E s
    | None => OK (Dec.of_Z 0)
    end;
  OK (Dec.quot balance (Dec.of_Z 1000000)).

(** [_SETTLED] *)
Definition _SETTLED : list string := ["MATCHED"; "MINED"; "CONFIRMED"].

(** A Gamma market record, as [_enrich_trades] reads it, is a map from
    field names to strings: [conditionId], [question], [title] and
    [slug] are JSON strings when they are present.

    [{m.get("conditionId", ""): m for m in markets}] inside its [try]:
    [markets] is what [get_markets_by_condition_ids] returned, [None]
    when it raised; a later record replaces an earlier one with the same
    key. *)
Definition gamma_market_map (markets : option (list Account.record))
    : gmap string Account.record :=
  match markets with
  | None => ∅
  | Some ms =>
      fold_left (fun mp m => <[Account.get m "conditionId" "" := m]> mp) ms ∅
  end.

(** [info.get(k) or rest] *)
Definition get_or (info : Account.record) (k : string) (rest : string) : string :=
  match info !! k with
  | Some v => if decide (v = "") then rest else v
  | None => rest
  end.

(** [replace(t, market_title=title, category=category)] *)
Definition replace_title_category (t : Trade) (title category : string) : Trade :=
  {| id := id t; market := market t; asset_id := asset_id t; side := side t;
     size := size t; price := price t; fee_rate_bps := fee_rate_bps t;
     status := status t; match_time := match_time t; outcome := outcome t;
     transaction_hash := transaction_hash t; trader_side := trader_side t;
     market_title := title; category := category |}.

(** The body of the loop of [_enrich_trades]. *)
Definition enrich (market_map : gmap string Account.record) (t : Trade) : Trade :=
  let info := default ∅ (market_map !! market t) in
  let title := get_or info "question" (get_or info "title" "") in
  let slug := Account.get info "slug" "" in
  replace_title_category t title (Account._category_from_slug slug).

(** [_enrich_trades], applied to the answer of the Gamma service.  An
    empty list is returned as it is, without asking. *)
Definition _enrich_trades (trades : list Trade)
    (markets : option (list Account.record)) : list Trade :=
  match trades with
  | [] => trades
  | _ :: _ => map (enrich (gamma_market_map markets)) trades
  end.

(** [get_last_trades(n)], applied to what [self._api.get_trades()] and
    the Gamma service returned. *)
Definition get_last_trades (raw_trades : list Account.record)
    (markets : option (list Account.record)) (n : Z) : result (list Trade) :=
  all_trades ← Account.get_trades E raw_trades;
  settled ←
    Builtins.slice_to n <$>
      Py.sorted_desc (fun t => Pnl.int E (match_time t))
        (filter (fun t => status t ∈ _SETTLED) all_trades);
  OK (_enrich_trades settled markets).

End WithEnv.
End AccountService.

(* ===================================================================== *)
(** ** [poise/ui]: the helpers and the trades screen *)
(* ===================================================================== *)

Module Ui.

(** The ellipsis character. *)
Definition ellipsis : string :=
  String (ascii_of_nat 226) (String (ascii_of_nat 128)
    (String (ascii_of_nat 166) EmptyString)).

(** [_trunc], the same in [ui/home.py] and [ui/trades.py]. *)
Definition _trunc (text : string) (width : Z) : string :=
  if Z.of_nat (Str.len text) <=? width then text
  else (Str.slice_to (width - 1) text ++ ellipsis)%string.

(** [_cat_to_btn_suffix]; the category of the groups without one is the
    em dash that [get_trade_groups] uses as outcome. *)
Definition _cat_to_btn_suffix (cat : string) : string :=
  if decide (cat = Account.unknown_outcome) then "other" else cat.

(** [_btn_suffix_to_cat] *)
Definition _btn_suffix_to_cat (suffix : string) : string :=
  if decide (suffix = "other") then Account.unknown_outcome else suffix.

Definition _FMT : Dec.t := Dec.lit 1 2.

(** [_fmt_pnl] of [ui/trades.py], which is [_color_pnl] of
    [ui/home.py]. *)
Definition _fmt_pnl (pnl : Dec.t) : result string :=
  val ←
    or_raise InvalidOperation
      (Decimal.quantize (Decimal.abs pnl) _FMT Decimal.ROUND_HALF_UP);
  if Dec.ltb (Dec.of_Z 0) pnl
  then OK ("[green]+$" ++ Decimal.to_str val ++ "[/green]")%string
  else if Dec.ltb pnl (Dec.of_Z 0)
  then OK ("[red]-$" ++ Decimal.to_str val ++ "[/red]")%string
  else OK "[cyan]$0.00[/cyan]".

Definition _PAGE_SIZE : Z := 50.

(** [max(1, (len(groups) + _PAGE_SIZE - 1) // _PAGE_SIZE)] *)
Definition total_pages {A} (groups : list A) : Z :=
  Z.max 1 ((Z.of_nat (length groups) + _PAGE_SIZE - 1) / _PAGE_SIZE).

(** [groups[start : start + _PAGE_SIZE]] for [start = page * _PAGE_SIZE] *)
Definition page_groups {A} (groups : list A) (page : Z) : list A :=
  let start := page * _PAGE_SIZE in
  Builtins.slice start (start + _PAGE_SIZE) groups.

(** The trades screen.  The formatting of one table row (the body of
    the loop of [_render_table]) is a parameter [row], a function that
    may raise; [R] is what a row holds. *)
Section TradesScreen.
Context {R : Type} (row : TradeGroup -> result R).

(** The attributes of the screen and what its widgets show: the rows of
    the table, the text of the page label, whether the two page buttons
    are disabled, the ids of the filter buttons in the order of the
    panel and the ids of those that carry the class [active]. *)
Record TradesScreen : Type := {
  _all_groups : list TradeGroup;
  _active_filters : gset string;
  _trade_page : Z;
  table : list R;
  page_label : string;
  prev_disabled : bool;
  next_disabled : bool;
  filter_buttons : list string;
  active_buttons : gset string
}.

(** [_filtered_groups] *)
Definition _filtered_groups (s : TradesScreen) : list TradeGroup :=
  if decide (_active_filters s = ∅) then _all_groups s
  else filter (fun g => g_category g ∈ _active_filters s) (_all_groups s).

(** [_render_table] *)
Definition _render_table (s : TradesScreen) : result TradesScreen :=
  let groups := _filtered_groups s in
  let pages := total_pages groups in
  let page := Z.min (_trade_page s) (pages - 1) in
  rows ← mapM row (page_groups groups page);
  OK {| _all_groups := _all_groups s;
        _active_filters := _active_filters s;
        _trade_page := page;
        table := rows;
        page_label := (Py.str_of_Z (page + 1) ++ " / " ++ Py.str_of_Z pages)%string;
        prev_disabled := page =? 0;
        next_disabled := pages - 1 <=? page;
        filter_buttons := filter_buttons s;
        active_buttons := active_buttons s |}.

(** One iteration of the loop of [_sync_button_states]. *)
Definition sync_button (filters : gset string) (active : gset string)
    (btn_id : string) : gset string :=
  if decide (btn_id = "filter-all") then active
  else
    let cat := _btn_suffix_to_cat (Str.removeprefix "filter-" btn_id) in
    if decide (cat ∈ filters) then {[btn_id]} ∪ active
    else active ∖ {[btn_id]}.

(** [_sync_button_states] *)
Definition _sync_button_states (s : TradesScreen) : TradesScreen :=
  {| _all_groups := _all_groups s;
     _active_filters := _active_filters s;
     _trade_page := _trade_page s;
     table := table s;
     page_label := page_label s;
     prev_disabled := prev_disabled s;
     next_disabled := next_disabled s;
     filter_buttons := filter_buttons s;
     active_buttons :=
       fold_left (sync_button (_active_filters s)) (filter_buttons s)
         (active_buttons s) |}.

Definition with_page (s : TradesScreen) (page : Z) : TradesScreen :=
  {| _all_groups := _all_groups s;
     _active_filters := _active_filters s;
     _trade_page := page;
     table := table s;
     page_label := page_label s;
     prev_disabled := prev_disabled s;
     next_disabled := next_disabled s;
     filter_buttons := filter_buttons s;
     active_buttons := active_buttons s |}.

Definition with_filters (s : TradesScreen) (filters : gset string) : TradesScreen :=
  {| _all_groups := _all_groups s;
     _active_filters := filters;
     _trade_page := _trade_page s;
     table := table s;
     page_label := page_label s;
     prev_disabled := prev_disabled s;
     next_disabled := next_disabled s;
     filter_buttons := filter_buttons s;
     active_buttons := active_buttons s |}.

(** [on_button_pressed]; [id] is [event.button.id]. *)
Definition on_button_pressed (s : TradesScreen) (id : option string)
    : result TradesScreen :=
  let btn_id := default "" id in
  if decide (btn_id = "trade-prev") then
    if 0 <? _trade_page s then _render_table (with_page s (_trade_page s - 1))
    else OK s
  else if decide (btn_id = "trade-next") then
    let groups := _filtered_groups s in
    if _trade_page s <? total_pages groups - 1
    then _render_table (with_page s (_trade_page s + 1))
    else OK s
  else if negb (Str.startswith "filter-" btn_id) then OK s
  else
    let filters :=
      if decide (btn_id = "filter-all") then ∅
      else
        let cat := _btn_suffix_to_cat (Str.removeprefix "filter-" btn_id) in
        if decide (cat ∈ _active_filters s) then _active_filters s ∖ {[cat]}
        else {[cat]} ∪ _active_filters s in
    _render_table (_sync_button_states (with_page (with_filters s filters) 0)).

End TradesScreen.
End Ui.

(* ===================================================================== *)
(** ** [poise/config/settings.py] *)
(* ===================================================================== *)

Module Config.

Record Settings : Type := {
  wallet_address : string;
  private_key : string;
  api_key : string;
  api_secret : string;
  api_passphrase : string;
  chain_id : Z
}.

(** What [load_settings] raises: the [EnvironmentError] of its own, which
    names the missing variables, or the [KeyError] of [os.environ[...]]. *)
Inductive error : Type :=
  | EnvironmentError (missing : list string)
  | EnvironKeyError (var : string).

Definition required : list string :=
  ["POLYMARKET_WALLET_ADDRESS"; "POLYMARKET_PK"; "POLYMARKET_API_KEY";
   "POLYMARKET_API_SECRET"; "POLYMARKET_API_PASSPHRASE"].

(** [not os.getenv(var)]: the variable is unset or empty. *)
Definition unset (environ : gmap string string) (var : string) : Prop :=
  environ !! var = None \/ environ !! var = Some "".

(** [load_settings], applied to the environment of the process. *)
Definition load_settings (environ : gmap string string) : Settings + error :=
  let missing := filter (unset environ) required in
  match missing with
  | _ :: _ => inr (EnvironmentError missing)
  | [] =>
      match environ !! "POLYMARKET_WALLET_ADDRESS" with
      | None => inr (EnvironKeyError "POLYMARKET_WALLET_ADDRESS")
      | Some wallet =>
      match environ !! "POLYMARKET_PK" with
      | None => inr (EnvironKeyError "POLYMARKET_PK")
      | Some pk =>
      match environ !! "POLYMARKET_API_KEY" with
      | None => inr (EnvironKeyError "POLYMARKET_API_KEY")
      | Some key =>
      match environ !! "POLYMARKET_API_SECRET" with
      | None => inr (EnvironKeyError "POLYMARKET_API_SECRET")
      | Some secret =>
      match environ !! "POLYMARKET_API_PASSPHRASE" with
      | None => inr (EnvironKeyError "POLYMARKET_API_PASSPHRASE")
      | Some passphrase =>
          inl {| wallet_address := wallet; private_key := pk; api_key := key;
                 api_secret := secret; api_passphrase := passphrase;
                 chain_id := 137 |}
      end end end end end
  end.

End Config.

(* ===================================================================== *)
(** ** Further notions used in the statements *)
(* ===================================================================== *)

(** Strictly descending order of strings: each one sorts after all that
    follow it. *)
Definition strictly_descending (ds : list string) : Prop :=
  StronglySorted (fun d d' => String.ltb d' d = true) ds.

(** *** Data of further examples *)

(** Three markets bought at the times 100, 300, 200, and the answer of
    the price service for them. *)
Definition three_buys : list Account.record :=
  [ trade_activity "0xA" "Yes" "BUY" "5" "0.5" "100";
    trade_activity "0xB" "No" "BUY" "4" "0.5" "300";
    trade_activity "0xC" "Yes" "BUY" "3" "0.5" "200" ].

Definition three_markets : option (list Account.market_info) :=
  Some (map (fun cid =>
               list_to_map
                 [("conditionId", Py.JScalar (Py.SStr cid));
                  ("outcomes", Py.JList [Py.SStr "Yes"; Py.SStr "No"]);
                  ("outcomePrices", Py.JList [Py.SStr "0.6"; Py.SStr "0.4"])])
          ["0xA"; "0xB"; "0xC"]).

Definition three_positions : list Position :=
  Eval vm_compute in
    match Account.get_open_positions Std.env three_buys three_markets with
    | OK ps => ps
    | Raise _ => []
    end.

(** A feed of TRADE activities only. *)
Definition trade_feed : list Account.record :=
  [ trade_activity "0xA" "Yes" "BUY" "10" "0.40" "100";
    trade_activity "0xB" "No" "BUY" "5" "0.30" "300";
    trade_activity "0xA" "Yes" "SELL" "4" "0.55" "200" ].

(** A feed with an activity that is neither a TRADE nor a REDEEM. *)
Definition split_activity : Account.record :=
  list_to_map [("type", "SPLIT"); ("conditionId", "0xA"); ("timestamp", "250")].

(** The fields of an activity that [_activities_as_trades] looks at. *)
Definition pnl_fields : list string :=
  ["type"; "transactionHash"; "conditionId"; "asset"; "side"; "size"; "price";
   "timestamp"; "outcome"; "usdcSize"].

(** The (market, outcome) of a position. *)
Definition position_key (p : Position) : string * string :=
  (p_market p, p_outcome p).

(** No character of [s] is a dash. *)
Definition dashless (s : string) : Prop :=
  forall c, In c (list_ascii_of_string s) -> c <> "-"%char.

(** The TRADE activities of a market, in feed order. *)
Definition market_trades (cid : string) (activities : list Account.record)
    : list Account.record :=
  filter (fun a => a !! "type" = Some "TRADE" /\ a !! "conditionId" = Some cid)
    activities.

(** A balance answer of 12.345678 USDC, in millionths. *)
Definition balance_answer : Account.record :=
  list_to_map [("balance", "12345678"); ("allowance", "0")].

(** Raw fills: settled and pending, of different ages. *)
Definition raw_fill (market st time : string) : Account.record :=
  list_to_map
    [("id", "1"); ("market", market); ("asset_id", "7"); ("side", "BUY");
     ("size", "10"); ("price", "0.40"); ("fee_rate_bps", "0");
     ("status", st); ("match_time", time); ("outcome", "Yes");
     ("transaction_hash", "0x1"); ("trader_side", "TAKER")].

Definition raw_fills : list Account.record :=
  [ raw_fill "0xA" "CONFIRMED" "100"; raw_fill "0xB" "RETRYING" "400";
    raw_fill "0xC" "MINED" "300"; raw_fill "0xA" "MATCHED" "200" ].

(** An answer of the Gamma service. *)
Definition gamma_answer : list Account.record :=
  [ list_to_map [("conditionId", "0xA"); ("question", "Old question");
                 ("slug", "nba-old")];
    list_to_map [("conditionId", "0xC"); ("question", ""); ("title", "A title");
                 ("slug", "nfl-week-1")];
    list_to_map [("conditionId", "0xA"); ("question", "Will A win?");
                 ("slug", "nba-finals")] ].

(** The record of the Gamma answer [_enrich_trades] uses for a market:
    the last one with its [conditionId], the empty record when there is
    none. *)
Definition gamma_record (ms : list Account.record) (cid : string) : Account.record :=
  default ∅ (last (filter (fun m => Account.get m "conditionId" "" = cid) ms)).

(** What the trades screen shows agrees with its attributes: the page
    exists, the table holds the rows of the groups of that page, the
    label names the page and the number of pages, and a page button is
    disabled exactly at its end of the pages. *)
Definition shown {R} (row : TradeGroup -> result R) (s : @Ui.TradesScreen R) : Prop :=
  let groups := Ui._filtered_groups s in
  let pages := Ui.total_pages groups in
  0 <= Ui._trade_page s < pages
  /\ mapM row (Ui.page_groups groups (Ui._trade_page s)) = OK (Ui.table s)
  /\ Ui.page_label s
     = (Py.str_of_Z (Ui._trade_page s + 1) ++ " / " ++ Py.str_of_Z pages)%string
  /\ (Ui.prev_disabled s = true <-> Ui._trade_page s = 0)
  /\ (Ui.next_disabled s = true <-> Ui._trade_page s = pages - 1).

(** A screen of three groups, freshly mounted, and a row that shows the
    market of a group. *)
Definition market_row (g : TradeGroup) : result string := OK (g_market g).

Definition a_screen : @Ui.TradesScreen string :=
  {| Ui._all_groups := c2_groups;
     Ui._active_filters := ∅;
     Ui._trade_page := 0;
     Ui.table := [];
     Ui.page_label := "";
     Ui.prev_disabled := true;
     Ui.next_disabled := true;
     Ui.filter_buttons := ["filter-all"; "filter-nba"];
     Ui.active_buttons := ∅ |}.

(** An environment with the five variables set. *)
Definition an_environ : gmap string string :=
  list_to_map
    [("POLYMARKET_WALLET_ADDRESS", "0x1234567890abcdef");
     ("POLYMARKET_PK", "k"); ("POLYMARKET_API_KEY", "a");
     ("POLYMARKET_API_SECRET", "s"); ("POLYMARKET_API_PASSPHRASE", "p");
     ("HOME", "/root")].

(* ===================================================================== *)
(** ** Facts about the built-ins *)
(* ===================================================================== *)

Lemma bind_OK {A C} (m : result A) (k : A -> result C) (c : C) :
  m ≫= k = OK c -> exists a, m = OK a /\ k a = OK c.
Proof. destruct m as [a|e]; simpl; [eauto | discriminate]. Qed.

Lemma fmap_OK {A B} (g : A -> B) (m : result A) (b : B) :
  g <$> m = OK b -> exists a, m = OK a /\ b = g a.
Proof. destruct m as [a|e]; simpl; [| discriminate]. intros [= <-]. eauto. Qed.

Lemma or_raise_OK {A} e (o : option A) (a : A) :
  or_raise e o = OK a <-> o = Some a.
Proof. destruct o; simpl; split; congruence. Qed.

Lemma bind_Raise_any {A B} (m : result A) (k : A -> result B) :
  (forall a, exists e, k a = Raise e) -> exists e, m ≫= k = Raise e.
Proof. intros H. destruct m as [a|e]; simpl; eauto. Qed.

Lemma bind_Raise_l {A B} (m : result A) (k : A -> result B) :
  (exists e, m = Raise e) -> exists e, m ≫= k = Raise e.
Proof. intros [e ->]. simpl. eauto. Qed.

(** Peel one [x ← m; k] off a hypothesis [H : ... = OK _]. *)
Tactic Notation "bind_ok" hyp(H) ident(x) ident(Hx) :=
  apply bind_OK in H as (x & Hx & H).

Section MapM.
Context {A B : Type}.
Implicit Types (f : A -> result B) (l : list A).

Lemma mapM_OK_Forall2 f l (ys : list B) :
  mapM f l = OK ys <-> Forall2 (fun x y => f x = OK y) l ys.
Proof.
  revert ys. induction l as [|x l IH]; intros ys; simpl.
  - split; [intros [= <-]; constructor | inversion 1; reflexivity].
  - split.
    + intros H. bind_ok H y Hy. bind_ok H k Hk. injection H as <-.
      constructor; [done | by apply IH].
    + inversion 1 as [|? y ? k Hy Hk]; subst.
      rewrite Hy. simpl. apply IH in Hk. rewrite Hk. reflexivity.
Qed.

Lemma mapM_OK_total f l :
  (forall x, x ∈ l -> exists y, f x = OK y) -> exists ys, mapM f l = OK ys.
Proof.
  induction l as [|x l IH]; intros H; simpl; [eauto |].
  destruct (H x) as [y Hy]; [left |].
  destruct IH as [ys Hys]; [intros; apply H; by right |].
  exists (y :: ys). rewrite Hy. simpl. rewrite Hys. reflexivity.
Qed.

Lemma mapM_OK_elem f l ys x :
  mapM f l = OK ys -> x ∈ l -> exists y, y ∈ ys /\ f x = OK y.
Proof.
  intros H Hin. apply mapM_OK_Forall2 in H.
  apply list_elem_of_lookup_1 in Hin as [i Hi].
  destruct (Forall2_lookup_l _ _ _ _ _ H Hi) as (y & Hy & Hxy).
  exists y. split; [by eapply list_elem_of_lookup_2 | done].
Qed.

Lemma mapM_OK_elem_r f l ys y :
  mapM f l = OK ys -> y ∈ ys -> exists x, x ∈ l /\ f x = OK y.
Proof.
  intros H Hin. apply mapM_OK_Forall2 in H.
  apply list_elem_of_lookup_1 in Hin as [i Hi].
  destruct (Forall2_lookup_r _ _ _ _ _ H Hi) as (x & Hx & Hxy).
  exists x. split; [by eapply list_elem_of_lookup_2 | done].
Qed.

Lemma mapM_fails f l x e :
  x ∈ l -> f x = Raise e -> exists e', mapM f l = Raise e'.
Proof.
  intros Hin Hx. destruct (mapM f l) as [ys|e'] eqn:H; [| eauto].
  destruct (mapM_OK_elem _ _ _ _ H Hin) as (y & _ & Hy). congruence.
Qed.

(** The exception of a failed [mapM] is that of one of the elements. *)
Lemma mapM_Raise_elem f l e :
  mapM f l = Raise e -> exists x, x ∈ l /\ f x = Raise e.
Proof.
  induction l as [|x l IH]; simpl; [discriminate |].
  destruct (f x) as [y|e'] eqn:Hx; simpl.
  - destruct (mapM f l) as [ys|e''] eqn:Hl; simpl; [discriminate |].
    intros [= <-]. destruct (IH eq_refl) as (x' & Hin & Hx').
    exists x'. split; [by right | done].
  - intros [= <-]. exists x. split; [left | done].
Qed.

Lemma mapM_length f l ys : mapM f l = OK ys -> length ys = length l.
Proof.
  intros H. apply mapM_OK_Forall2 in H. symmetry. by eapply Forall2_length.
Qed.
End MapM.

Lemma for_each_app {A S} (body : S -> A -> result S) (xs ys : list A) (s : S) :
  Py.for_each body (xs ++ ys) s = Py.for_each body xs s ≫= Py.for_each body ys.
Proof.
  revert s. induction xs as [|x xs IH]; intros s; simpl; [done |].
  destruct (body s x) as [s'|e]; simpl; [apply IH | done].
Qed.

(** A loop whose body only appends to its accumulator. *)
Lemma for_each_emit {A T} (body : list T -> A -> result (list T)) :
  (forall acc a, body acc a = (fun ts => acc ++ ts)%list <$> body [] a) ->
  forall xs acc,
    Py.for_each body xs acc = (fun ts => acc ++ ts)%list <$> Py.for_each body xs [].
Proof.
  intros Hbody. induction xs as [|x xs IH]; intros acc; simpl.
  - by rewrite app_nil_r.
  - rewrite (Hbody acc x). destruct (body [] x) as [ts|e]; simpl; [| done].
    rewrite (IH (acc ++ ts)%list), (IH ts).
    destruct (Py.for_each body xs []) as [ts'|e]; simpl; [| done].
    by rewrite app_assoc.
Qed.

(** A loop fails when the body fails on one of the elements whatever the
    loop state. *)
Lemma for_each_fails {A S} (body : S -> A -> result S) (xs : list A) (x : A) :
  x ∈ xs -> (forall s, exists e, body s x = Raise e) ->
  forall s, exists e, Py.for_each body xs s = Raise e.
Proof.
  intros Hin Hx. induction xs as [|y xs IH]; intros s; [by apply elem_of_nil in Hin |].
  simpl. apply elem_of_cons in Hin as [<-|Hin].
  - destruct (Hx s) as [e ->]. simpl. eauto.
  - destruct (body s y) as [s'|e]; simpl; [by apply IH | eauto].
Qed.

Lemma fold_left_snoc {A} (l acc : list A) :
  fold_left (fun v x => (v ++ [x])%list) l acc = (acc ++ l)%list.
Proof.
  revert acc. induction l as [|x l IH]; intros acc; simpl.
  - by rewrite app_nil_r.
  - rewrite IH, <- app_assoc. done.
Qed.

Lemma concat_map_nil {A B} (l : list A) :
  concat (map (fun _ => @nil B) l) = [].
Proof. induction l; simpl; auto. Qed.

Lemma NoDup_map_inj_on {A B} (f : A -> B) (l : list A) (x y : A) :
  NoDup (map f l) -> x ∈ l -> y ∈ l -> f x = f y -> x = y.
Proof.
  induction l as [|a l IH]; simpl; intros Hnd Hx Hy Hxy.
  - by apply elem_of_nil in Hx.
  - apply NoDup_cons in Hnd as [Ha Hnd].
    apply elem_of_cons in Hx as [->|Hx]; apply elem_of_cons in Hy as [->|Hy].
    + done.
    + exfalso. apply Ha. rewrite Hxy. apply list_elem_of_fmap. eauto.
    + exfalso. apply Ha. rewrite <- Hxy. apply list_elem_of_fmap. eauto.
    + by apply IH.
Qed.

Lemma filter_none {A} (P : A -> Prop) `{forall x, Decision (P x)} (l : list A) :
  (forall x, x ∈ l -> ~ P x) -> filter P l = [].
Proof.
  induction l as [|a l IH]; intros Hall; [done |].
  rewrite filter_cons, decide_False by (apply Hall; left).
  apply IH. intros; apply Hall; by right.
Qed.

Lemma filter_unique {A B} `{EqDecision B} (f : A -> B) (l : list A) (x : A) :
  NoDup (map f l) -> x ∈ l -> filter (fun y => f y = f x) l = [x].
Proof.
  induction l as [|a l IH]; simpl; intros Hnd Hx.
  - by apply elem_of_nil in Hx.
  - apply NoDup_cons in Hnd as [Ha Hnd]. rewrite filter_cons.
    apply elem_of_cons in Hx as [->|Hx].
    + rewrite decide_True by done. f_equal.
      apply filter_none. intros y Hy Heq. apply Ha.
      rewrite <- Heq. apply list_elem_of_fmap. eauto.
    + rewrite decide_False; [by apply IH |].
      intros Heq. apply Ha. rewrite Heq. apply list_elem_of_fmap. eauto.
Qed.

Lemma Zsum_Permutation (l l' : list Z) : l ≡ₚ l' -> Zsum l = Zsum l'.
Proof. induction 1; simpl in *; lia. Qed.

Lemma Zsum_abs_nonneg {A} (f : A -> Z) (l : list A) :
  0 <= Zsum (map (fun x => Z.abs (f x)) l).
Proof.
  induction l as [|a l IH]; simpl; [lia |].
  pose proof (Z.abs_nonneg (f a)). lia.
Qed.

Section DefaultDict.
Context {K V : Type} `{EqDecision K}.
Implicit Types (d : list (K * V)) (k : K).

Lemma dd_get_update k k' (f : V -> V) dflt d :
  Py.dd_get k (Py.dd_update k' f dflt d) =
    if decide (k' = k) then Some (f (default dflt (Py.dd_get k d)))
    else Py.dd_get k d.
Proof.
  induction d as [|[k0 v0] d IH]; simpl.
  - repeat case_decide; congruence.
  - repeat (case_decide; simpl; subst); try congruence.
Qed.

Lemma dd_get_None k d : Py.dd_get k d = None <-> k ∉ map fst d.
Proof.
  induction d as [|[k0 v0] d IH]; simpl.
  - split; [intros _; apply not_elem_of_nil | done].
  - rewrite not_elem_of_cons. case_decide; subst.
    + split; [discriminate | intros []; congruence].
    + rewrite IH. split; [intros; split; congruence | tauto].
Qed.

Lemma dd_get_Some_elem k v d : Py.dd_get k d = Some v -> (k, v) ∈ d.
Proof.
  induction d as [|[k0 v0] d IH]; simpl; [discriminate |].
  case_decide; subst.
  - intros [= ->]. left.
  - intros. right. auto.
Qed.

Lemma dd_elem_get k v d : NoDup (map fst d) -> (k, v) ∈ d -> Py.dd_get k d = Some v.
Proof.
  induction d as [|[k0 v0] d IH]; simpl; intros Hnd Hin.
  - by apply elem_of_nil in Hin.
  - apply NoDup_cons in Hnd as [Hk0 Hnd].
    apply elem_of_cons in Hin as [[= -> ->]|Hin].
    + by rewrite decide_True.
    + rewrite decide_False; [auto |].
      intros ->. apply Hk0. apply list_elem_of_fmap. by exists (k, v).
Qed.

Lemma dd_update_keys k (f : V -> V) dflt d :
  map fst (Py.dd_update k f dflt d) =
    if decide (k ∈ map fst d) then map fst d else (map fst d ++ [k])%list.
Proof.
  induction d as [|[k0 v0] d IH]; simpl.
  - destruct (decide (k ∈ [])) as [Hk|_]; [by apply elem_of_nil in Hk | done].
  - destruct (decide (k0 = k)) as [->|Hne]; simpl.
    + destruct (decide (k ∈ k :: map fst d)) as [_|Hk]; [done |].
      exfalso. apply Hk. left.
    + rewrite IH.
      destruct (decide (k ∈ map fst d)) as [Hk|Hk],
               (decide (k ∈ k0 :: map fst d)) as [Hk'|Hk']; try done.
      * exfalso. apply Hk'. by right.
      * apply elem_of_cons in Hk' as [->|Hk']; done.
Qed.

Lemma dd_update_NoDup k (f : V -> V) dflt d :
  NoDup (map fst d) -> NoDup (map fst (Py.dd_update k f dflt d)).
Proof.
  intros Hnd. rewrite dd_update_keys. case_decide; [done |].
  apply NoDup_app. split_and!; [done | | apply NoDup_singleton].
  intros x Hx Hk. apply list_elem_of_singleton in Hk. by subst.
Qed.

Lemma dd_update_ext k (f g : V -> V) dflt d :
  (forall v, f v = g v) -> Py.dd_update k f dflt d = Py.dd_update k g dflt d.
Proof.
  intros Hfg. induction d as [|[k' v] d IH]; simpl.
  - by rewrite Hfg.
  - destruct (decide (k' = k)); [by rewrite Hfg | by rewrite IH].
Qed.

(** A loop [for x in xs: d[key(x)] = upd(x, d[key(x)])]. *)
Section Fold.
Context {X : Type} (key : X -> K) (upd : X -> V -> V) (dflt : V).

Lemma dd_fold_get k (xs : list X) d :
  Py.dd_get k
    (fold_left (fun d x => Py.dd_update (key x) (upd x) dflt d) xs d) =
    match filter (fun x => key x = k) xs with
    | [] => Py.dd_get k d
    | xs_k =>
        Some (fold_left (fun v x => upd x v) xs_k (default dflt (Py.dd_get k d)))
    end.
Proof.
  revert d. induction xs as [|x xs IH]; intros d; simpl; [done |].
  rewrite IH, dd_get_update, filter_cons.
  case_decide; subst; simpl; [| done].
  by destruct (filter _ xs).
Qed.

Lemma dd_fold_NoDup (xs : list X) d :
  NoDup (map fst d) ->
  NoDup (map fst (fold_left (fun d x => Py.dd_update (key x) (upd x) dflt d) xs d)).
Proof.
  revert d. induction xs as [|x xs IH]; intros d Hd; simpl; [done |].
  apply IH. by apply dd_update_NoDup.
Qed.

Lemma dd_fold_keys k (xs : list X) :
  k ∈ map fst (fold_left (fun d x => Py.dd_update (key x) (upd x) dflt d) xs [])
  <-> k ∈ map key xs.
Proof.
  set (d := fold_left _ xs []).
  destruct (Py.dd_get k d) as [v|] eqn:Hget.
  - split; intros _.
    + unfold d in Hget. rewrite dd_fold_get in Hget.
      destruct (filter (fun x => key x = k) xs) as [|x l] eqn:Hf; [done |].
      assert (x ∈ filter (fun x => key x = k) xs) as Hx by (rewrite Hf; left).
      apply list_elem_of_filter in Hx as [<- Hx].
      apply list_elem_of_fmap. eauto.
    + apply dd_get_Some_elem in Hget. apply list_elem_of_fmap.
      by exists (k, v).
  - pose proof Hget as Hnone. apply dd_get_None in Hnone.
    split; [done |]. intros Hk. exfalso.
    unfold d in Hget. rewrite dd_fold_get in Hget.
    apply list_elem_of_fmap in Hk as (x & -> & Hx).
    assert (x ∈ filter (fun y => key y = key x) xs) as Hx'
      by (by apply list_elem_of_filter).
    destruct (filter (fun y => key y = key x) xs); [by apply elem_of_nil in Hx' | done].
Qed.
End Fold.
End DefaultDict.

Section SortFacts.
Context {K A : Type} (lt : K -> K -> bool).
Implicit Types (l : list (K * A)).

Lemma insert_desc_Permutation kx (x : A) l :
  Py.insert_desc lt kx x l ≡ₚ (kx, x) :: l.
Proof.
  induction l as [|[ky y] l IH]; simpl; [done |].
  destruct (lt kx ky); [| done].
  rewrite IH. apply Permutation_swap.
Qed.

Lemma sort_desc_Permutation l : Py.sort_desc lt l ≡ₚ l.
Proof.
  induction l as [|[k x] l IH]; simpl; [done |].
  rewrite insert_desc_Permutation. by constructor.
Qed.
End SortFacts.

Section SortZ.
Context {A : Type}.
Implicit Types (l : list (Z * A)).

Lemma insert_desc_descending kx (x : A) l :
  descending (map fst l) -> descending (map fst (Py.insert_desc Z.ltb kx x l)).
Proof.
  unfold descending.
  induction l as [|[ky y] l IH]; simpl; intros Hs.
  - repeat constructor.
  - apply StronglySorted_inv in Hs as [Hs Hall].
    destruct (Z.ltb_spec kx ky) as [Hlt|Hge]; simpl.
    + constructor; [by apply IH |].
      rewrite insert_desc_Permutation. simpl.
      constructor; [lia | done].
    + constructor; [by constructor |].
      constructor; [done |].
      eapply Forall_impl; [exact Hall |]. simpl. intros; lia.
Qed.

Lemma sort_desc_descending l : descending (map fst (Py.sort_desc Z.ltb l)).
Proof.
  induction l as [|[k x] l IH]; simpl; [constructor |].
  by apply insert_desc_descending.
Qed.

(** What [sorted(xs, key=..., reverse=True)] returns: a rearrangement of
    [xs] whose keys descend. *)
Lemma sorted_desc_OK (key : A -> result Z) (xs out : list A) :
  Py.sorted_desc key xs = OK out ->
  out ≡ₚ xs /\ exists ks, mapM key out = OK ks /\ descending ks.
Proof.
  unfold Py.sorted_desc. intros H. bind_ok H ks Hks. injection H as <-.
  pose proof (mapM_length _ _ _ Hks) as Hlen.
  pose proof (sort_desc_Permutation Z.ltb (zip ks xs)) as Hperm.
  split.
  - rewrite Hperm. rewrite snd_zip; [done | lia].
  - exists (map fst (Py.sort_desc Z.ltb (zip ks xs))).
    split; [| apply sort_desc_descending].
    apply mapM_OK_Forall2.
    assert (Forall (fun p => key (snd p) = OK (fst p)) (zip ks xs)) as Hall.
    { apply mapM_OK_Forall2 in Hks. clear -Hks.
      induction Hks; simpl; constructor; auto. }
    rewrite <- Hperm in Hall. clear -Hall.
    induction Hall; simpl; constructor; auto.
Qed.

End SortZ.

Section MaxFacts.
Context {A : Type} (key : A -> result Z).

Lemma max_by_from_OK (xs : list A) (best : A) (kbest : Z) (x : A) :
  key best = OK kbest ->
  Py.max_by_from key best kbest xs = OK x ->
  (x = best \/ x ∈ xs) /\
  exists k, key x = OK k /\ kbest <= k /\
    forall y, y ∈ xs -> exists ky, key y = OK ky /\ ky <= k.
Proof.
  revert best kbest. induction xs as [|y xs IH]; intros best kbest Hb; simpl.
  - intros [= <-]. split; [by left |]. exists kbest. split_and!; [done | lia |].
    intros y Hy. by apply elem_of_nil in Hy.
  - intros H. bind_ok H ky Hky.
    destruct (Z.ltb_spec kbest ky) as [Hlt|Hge].
    + destruct (IH _ _ Hky H) as ([->|Hin] & k & Hk & Hle & Hall).
      * split; [right; left |]. exists k. split_and!; [done | lia |].
        intros z [->|Hz]%elem_of_cons; [| by apply Hall].
        exists ky. split; [done |]. congruence.
      * split; [right; by right |]. exists k. split_and!; [done | lia |].
        intros z [->|Hz]%elem_of_cons; [| by apply Hall].
        exists ky. split; [done | lia].
    + destruct (IH _ _ Hb H) as (Hin & k & Hk & Hle & Hall).
      split; [destruct Hin; [by left | right; by right] |].
      exists k. split_and!; [done | lia |].
      intros z [->|Hz]%elem_of_cons; [| by apply Hall].
      exists ky. split; [done | lia].
Qed.

(** [max(xs, key=...)] returns an element of [xs] whose key is the
    largest. *)
Lemma max_by_OK (xs : list A) (x : A) :
  Py.max_by key xs = OK x ->
  x ∈ xs /\
  exists k, key x = OK k /\ forall y, y ∈ xs -> exists ky, key y = OK ky /\ ky <= k.
Proof.
  destruct xs as [|x0 xs]; simpl; [discriminate |].
  intros H. bind_ok H k0 Hk0.
  destruct (max_by_from_OK _ _ _ _ Hk0 H) as (Hin & k & Hk & Hle & Hall).
  split; [destruct Hin; [subst; left | by right] |].
  exists k. split; [done |].
  intros y [->|Hy]%elem_of_cons; [| by apply Hall]. eauto.
Qed.

End MaxFacts.

(** [max(ints)] is an upper bound that occurs in the sequence. *)
Lemma max_int_OK (xs : list Z) (m : Z) :
  Py.max_int xs = OK m -> m ∈ xs /\ forall x, x ∈ xs -> x <= m.
Proof.
  destruct xs as [|x0 xs]; simpl; [discriminate |]. intros [= <-].
  revert x0. induction xs as [|y xs IH]; intros x0; simpl.
  - split; [left |]. intros x Hx. apply list_elem_of_singleton in Hx. lia.
  - destruct (IH (Z.max x0 y)) as [Hin Hub]. split.
    + apply elem_of_cons in Hin as [Heq|Hin]; [| right; by right].
      rewrite Heq. destruct (Z.max_spec x0 y) as [[_ ->]|[_ ->]]; [right|]; left.
    + assert (Z.max x0 y <= fold_left Z.max xs (Z.max x0 y)) by (apply Hub; left).
      intros x [->|[->|Hx]%elem_of_cons]%elem_of_cons; [lia | lia |].
      apply Hub. by right.
Qed.

(* ===================================================================== *)
(** ** Facts about decimal arithmetic *)
(* ===================================================================== *)

Lemma digits_fuel_spec (fuel : nat) (n : Z) :
  0 <= n < 2 ^ (Z.of_nat fuel + 1) ->
  1 <= Dec.digits_fuel fuel n
  /\ n < 10 ^ Dec.digits_fuel fuel n
  /\ (0 < n -> 10 ^ (Dec.digits_fuel fuel n - 1) <= n).
Proof.
  revert n. induction fuel as [|fuel IH]; intros n Hn.
  - simpl in *. change (2 ^ 1) with 2 in Hn. split_and!; simpl; lia.
  - simpl Dec.digits_fuel. destruct (Z.ltb_spec n 10) as [Hlt|Hge].
    + split_and!; simpl; lia.
    + assert (0 <= n / 10 < 2 ^ (Z.of_nat fuel + 1)) as Hdiv.
      { split; [apply Z.div_pos; lia |].
        apply Z.div_lt_upper_bound; [lia |].
        replace (Z.of_nat (S fuel) + 1) with (Z.succ (Z.of_nat fuel + 1)) in Hn by lia.
        rewrite Z.pow_succ_r in Hn by lia. lia. }
      destruct (IH _ Hdiv) as (H1 & H2 & H3).
      set (d := Dec.digits_fuel fuel (n / 10)) in *.
      assert (0 < n / 10) as Hpos by (apply Z.div_str_pos; lia).
      specialize (H3 Hpos).
      pose proof (Z.div_mod n 10 ltac:(lia)) as Hdm.
      pose proof (Z.mod_pos_bound n 10 ltac:(lia)) as Hmod.
      split_and!; [lia | |].
      * replace (1 + d) with (Z.succ d) by lia. rewrite Z.pow_succ_r by lia. lia.
      * intros _. replace (1 + d - 1) with (Z.succ (d - 1)) by lia.
        rewrite Z.pow_succ_r by lia. lia.
Qed.

(** [ndigits n] is the number of decimal digits of [n]. *)
Lemma ndigits_spec (n : Z) :
  0 <= n ->
  1 <= Dec.ndigits n
  /\ n < 10 ^ Dec.ndigits n
  /\ (0 < n -> 10 ^ (Dec.ndigits n - 1) <= n).
Proof.
  intros Hn. unfold Dec.ndigits. apply digits_fuel_spec.
  split; [done |].
  rewrite Z2Nat.id by apply Z.log2_nonneg.
  destruct (Z.eq_dec n 0) as [->|Hnz]; [simpl; lia |].
  pose proof (Z.log2_spec n ltac:(lia)) as [_ Hlt].
  by replace (Z.log2 n + 1) with (Z.succ (Z.log2 n)) by lia.
Qed.

Lemma ndigits_le (n k : Z) : 0 <= n -> 1 <= k -> n < 10 ^ k -> Dec.ndigits n <= k.
Proof.
  intros Hn Hk Hlt. destruct (ndigits_spec n Hn) as (H1 & H2 & H3).
  destruct (Z.eq_dec n 0) as [->|Hnz]; [change (Dec.ndigits 0) with 1; lia |].
  specialize (H3 ltac:(lia)).
  destruct (Z.le_gt_cases (Dec.ndigits n) k) as [|Hgt]; [done |].
  assert (10 ^ k <= 10 ^ (Dec.ndigits n - 1)) by (apply Z.pow_le_mono_r; lia).
  lia.
Qed.

(** Rounding half to even keeps the leading digits or adds one to them. *)
Lemma round_half_even_bounds (n shift : Z) :
  n / 10 ^ shift <= Dec.round_half_even n shift <= n / 10 ^ shift + 1.
Proof.
  unfold Dec.round_half_even.
  destruct (_ || _); lia.
Qed.

(** What rounding to the context precision returns: the same sign, and
    a coefficient of at most [prec] digits. *)
Lemma round_ctx_spec (d : Dec.t) :
  Z.sgn (Dec.coef (Dec.round_ctx d)) = Z.sgn (Dec.coef d)
  /\ Z.abs (Dec.coef (Dec.round_ctx d)) < 10 ^ Dec.prec.
Proof.
  unfold Dec.round_ctx.
  pose proof (ndigits_spec (Z.abs (Dec.coef d)) (Z.abs_nonneg _)) as (H1 & H2 & H3).
  set (a := Z.abs (Dec.coef d)) in *. set (nd := Dec.ndigits a) in *.
  destruct (Z.leb_spec nd Dec.prec) as [Hle|Hgt].
  - split; [done |]. fold a.
    eapply Z.lt_le_trans; [exact H2 |]. apply Z.pow_le_mono_r; lia.
  - unfold Dec.prec in *.
    assert (0 < a) as Ha.
    { destruct (Z.eq_dec a 0) as [Hz|]; [| lia].
      unfold nd in Hgt. rewrite Hz in Hgt. change (Dec.ndigits 0) with 1 in Hgt. lia. }
    specialize (H3 Ha).
    pose proof (round_half_even_bounds a (nd - 28)) as [Hlo Hhi].
    set (q := Dec.round_half_even a (nd - 28)) in *.
    assert (0 < 10 ^ (nd - 28)) as Hp by (apply Z.pow_pos_nonneg; lia).
    assert (10 ^ 27 <= a / 10 ^ (nd - 28)) as Hq1.
    { apply Z.div_le_lower_bound; [lia |].
      rewrite <- Z.pow_add_r by lia.
      replace (nd - 28 + 27) with (nd - 1) by lia. lia. }
    assert (a / 10 ^ (nd - 28) < 10 ^ 28) as Hq2.
    { apply Z.div_lt_upper_bound; [lia |].
      rewrite <- Z.pow_add_r by lia.
      replace (nd - 28 + 28) with nd by lia. lia. }
    assert (Dec.coef d <> 0) as Hnz by (subst a; lia).
    assert (Z.abs (Z.sgn (Dec.coef d)) = 1) as Hsgn.
    { destruct (Z.sgn_spec (Dec.coef d)) as [[? Hs]|[[? Hs]|[? Hs]]];
        rewrite Hs; lia. }
    destruct (Z.eqb_spec q (10 ^ 28)) as [Heq|Hne]; simpl.
    + split.
      * rewrite Z.sgn_mul. change (Z.sgn (10 ^ (28 - 1))) with 1. lia.
      * rewrite Z.abs_mul, Hsgn. vm_compute. done.
    + assert (0 < q) by lia.
      split.
      * rewrite Z.sgn_mul, (Z.sgn_pos q) by lia. lia.
      * rewrite Z.abs_mul, Hsgn. rewrite Z.abs_eq by lia. lia.
Qed.

(** A coefficient that fits the precision is left alone. *)
Lemma round_ctx_fits (d : Dec.t) :
  Z.abs (Dec.coef d) < 10 ^ Dec.prec -> Dec.round_ctx d = d.
Proof.
  intros H. unfold Dec.round_ctx.
  rewrite (proj2 (Z.leb_le _ _)); [done |].
  apply ndigits_le; [apply Z.abs_nonneg | done | done].
Qed.

Lemma round_ctx_idem (d : Dec.t) : Dec.round_ctx (Dec.round_ctx d) = Dec.round_ctx d.
Proof. apply round_ctx_fits, round_ctx_spec. Qed.

Lemma round_ctx_copy_negate (d : Dec.t) :
  Dec.round_ctx (Dec.copy_negate d) = Dec.copy_negate (Dec.round_ctx d).
Proof.
  unfold Dec.round_ctx, Dec.copy_negate. simpl.
  rewrite Z.abs_opp, Z.sgn_opp.
  destruct (_ <=? _); [done |].
  destruct (_ =? _); simpl; f_equal; lia.
Qed.

(** Unary minus of a rounded value only flips the sign. *)
Lemma neg_round_ctx (d : Dec.t) :
  Dec.neg (Dec.round_ctx d) = Dec.copy_negate (Dec.round_ctx d).
Proof. unfold Dec.neg. by rewrite round_ctx_copy_negate, round_ctx_idem. Qed.

(** [b + (-(x + y))] and [b - (x + y)] are the same Decimal. *)
Lemma add_neg_add (b x y : Dec.t) : (b + - (x + y))%dec = (b - (x + y))%dec.
Proof. unfold Dec.sub. f_equal. unfold Dec.add at 1 2. apply neg_round_ctx. Qed.

Lemma add_comm (a b : Dec.t) : (a + b)%dec = (b + a)%dec.
Proof. unfold Dec.add. rewrite (Z.min_comm (Dec.expo b)). f_equal. f_equal. lia. Qed.

Lemma pow10_pos (k : Z) : 0 <= k -> 0 < 10 ^ k.
Proof. intros. apply Z.pow_pos_nonneg; lia. Qed.

Lemma add_nonneg (a b : Dec.t) :
  0 <= Dec.coef a -> 0 <= Dec.coef b -> 0 <= Dec.coef (a + b)%dec.
Proof.
  intros Ha Hb. unfold Dec.add.
  set (e := Z.min (Dec.expo a) (Dec.expo b)).
  pose proof (pow10_pos (Dec.expo a - e) ltac:(lia)).
  pose proof (pow10_pos (Dec.expo b - e) ltac:(lia)).
  apply Z.sgn_nonneg. rewrite (proj1 (round_ctx_spec _)). simpl.
  apply Z.sgn_nonneg. nia.
Qed.

Lemma sum_from_nonneg (l : list Dec.t) (acc : Dec.t) :
  0 <= Dec.coef acc -> (forall x, x ∈ l -> 0 <= Dec.coef x) ->
  0 <= Dec.coef (fold_left Dec.add l acc).
Proof.
  revert acc. induction l as [|x l IH]; intros acc Hacc Hall; simpl; [done |].
  apply IH; [| intros; apply Hall; by right].
  apply add_nonneg; [done | apply Hall; left].
Qed.

(** A sum of non-negative Decimals is non-negative. *)
Lemma sum_nonneg (l : list Dec.t) :
  (forall x, x ∈ l -> 0 <= Dec.coef x) -> 0 <= Dec.coef (Dec.sum l).
Proof. intros. by apply sum_from_nonneg. Qed.

Lemma sub_nonpos (a b : Dec.t) :
  Dec.coef a <= 0 -> 0 <= Dec.coef b -> Dec.coef (a - b)%dec <= 0.
Proof.
  intros Ha Hb. unfold Dec.sub, Dec.add, Dec.copy_negate. simpl.
  set (e := Z.min (Dec.expo a) (Dec.expo b)).
  pose proof (pow10_pos (Dec.expo a - e) ltac:(lia)).
  pose proof (pow10_pos (Dec.expo b - e) ltac:(lia)).
  apply Z.sgn_nonpos. rewrite (proj1 (round_ctx_spec _)). simpl.
  apply Z.sgn_nonpos. nia.
Qed.

(** Comparison with zero looks at the sign of the coefficient. *)
Lemma compare_zero_r (x : Dec.t) :
  Dec.compare x (Dec.of_Z 0) = (Dec.coef x ?= 0).
Proof.
  unfold Dec.compare. simpl.
  set (e := Z.min (Dec.expo x) 0).
  pose proof (pow10_pos (Dec.expo x - e) ltac:(lia)) as Hp.
  rewrite Z.mul_0_l.
  destruct (Z.compare_spec (Dec.coef x) 0) as [->|Hlt|Hgt].
  - by rewrite Z.mul_0_l.
  - apply Z.compare_lt_iff. nia.
  - apply Z.compare_gt_iff. nia.
Qed.

Lemma leb_zero (x : Dec.t) :
  Dec.leb x (Dec.of_Z 0) = false <-> 0 < Dec.coef x.
Proof.
  unfold Dec.leb. rewrite compare_zero_r.
  destruct (Z.compare_spec (Dec.coef x) 0); split; try done; lia.
Qed.

Lemma compare_antisym (a b : Dec.t) :
  Dec.compare b a = CompOpp (Dec.compare a b).
Proof.
  unfold Dec.compare. rewrite (Z.min_comm (Dec.expo b)). apply Z.compare_antisym.
Qed.

(** [not (a <= b)] is [b < a]. *)
Lemma leb_false_ltb (a b : Dec.t) : Dec.leb a b = false <-> Dec.ltb b a = true.
Proof.
  unfold Dec.leb, Dec.ltb. rewrite (compare_antisym a b).
  destruct (Dec.compare a b); simpl; split; done.
Qed.

Lemma leb_zero_l (x : Dec.t) : Dec.leb (Dec.of_Z 0) x = true <-> 0 <= Dec.coef x.
Proof.
  unfold Dec.leb. rewrite (compare_antisym x), compare_zero_r.
  destruct (Z.compare_spec (Dec.coef x) 0); simpl; split; try done; lia.
Qed.

(** *** Sums that do not round *)

Lemma places_zero k : 0 <= k -> places k Dec.zero.
Proof. unfold places. simpl. lia. Qed.

Lemma units_zero k : units k Dec.zero = 0.
Proof. reflexivity. Qed.

(** An addition whose result fits the precision is exact. *)
Lemma add_exact k (a b : Dec.t) :
  places k a -> places k b -> Z.abs (units k a + units k b) < 10 ^ Dec.prec ->
  places k (a + b)%dec /\ units k (a + b)%dec = units k a + units k b.
Proof.
  unfold places, units. intros Ha Hb Hfit.
  unfold Dec.add. set (e := Z.min (Dec.expo a) (Dec.expo b)).
  set (c := Dec.coef a * 10 ^ (Dec.expo a - e) + Dec.coef b * 10 ^ (Dec.expo b - e)).
  assert (c * 10 ^ (e + k) = Dec.coef a * 10 ^ (Dec.expo a + k)
                             + Dec.coef b * 10 ^ (Dec.expo b + k)) as Hc.
  { unfold c. rewrite Z.mul_add_distr_r, <- !Z.mul_assoc, <- !Z.pow_add_r by lia.
    f_equal; f_equal; f_equal; lia. }
  assert (Z.abs c < 10 ^ Dec.prec) as Hsmall.
  { pose proof (pow10_pos (e + k) ltac:(lia)) as Hp.
    rewrite <- Hc, Z.abs_mul, (Z.abs_eq (10 ^ (e + k))) in Hfit by lia.
    nia. }
  rewrite round_ctx_fits by done. simpl. split; [lia | done].
Qed.

Lemma sum_from_exact k (l : list Dec.t) (acc : Dec.t) :
  places k acc -> (forall x, x ∈ l -> places k x) ->
  Z.abs (units k acc) + Zsum (map (fun x => Z.abs (units k x)) l) < 10 ^ Dec.prec ->
  places k (fold_left Dec.add l acc)
  /\ units k (fold_left Dec.add l acc) = units k acc + Zsum (map (units k) l).
Proof.
  revert acc. induction l as [|x l IH]; intros acc Hacc Hall Hfit; simpl in *.
  - split; [done | lia].
  - pose proof (Zsum_abs_nonneg (units k) l) as Hpos.
    destruct (add_exact k acc x) as [Hp Hu]; [done | apply Hall; left | lia |].
    destruct (IH (acc + x)%dec) as [Hp' Hu'];
      [done | intros; apply Hall; by right | |].
    + rewrite Hu. lia.
    + split; [done |]. rewrite Hu', Hu. lia.
Qed.

(** Two Decimals with the same value compare equal. *)
Lemma eqb_units k (x y : Dec.t) :
  places k x -> places k y -> units k x = units k y -> Dec.eqb x y = true.
Proof.
  unfold places, units, Dec.eqb, Dec.compare. intros Hx Hy Heq.
  set (e := Z.min (Dec.expo x) (Dec.expo y)).
  pose proof (pow10_pos (e + k) ltac:(lia)) as Hp.
  assert (Dec.coef x * 10 ^ (Dec.expo x - e) = Dec.coef y * 10 ^ (Dec.expo y - e)) as ->;
    [| by rewrite Z.compare_refl].
  apply (Z.mul_reg_r _ _ (10 ^ (e + k))); [lia |].
  rewrite <- !Z.mul_assoc, <- !Z.pow_add_r by lia.
  replace (Dec.expo x - e + (e + k)) with (Dec.expo x + k) by lia.
  replace (Dec.expo y - e + (e + k)) with (Dec.expo y + k) by lia.
  done.
Qed.

(* ===================================================================== *)
(** ** Facts about [group_trades] *)
(* ===================================================================== *)

Lemma bucketize_get k trades :
  Py.dd_get k (Pnl.bucketize trades) =
    match members k trades with [] => None | l => Some l end.
Proof.
  unfold Pnl.bucketize.
  rewrite (dd_fold_get trade_key (fun t fills => (fills ++ [t])%list) []).
  fold (members k trades).
  destruct (members k trades) as [|t l] eqn:Hm; [done |].
  simpl Py.dd_get. simpl default. by rewrite fold_left_snoc.
Qed.

Lemma bucketize_NoDup trades : NoDup (map fst (Pnl.bucketize trades)).
Proof.
  unfold Pnl.bucketize.
  apply (dd_fold_NoDup trade_key (fun t fills => (fills ++ [t])%list) []).
  constructor.
Qed.

Lemma bucketize_keys k trades :
  k ∈ map fst (Pnl.bucketize trades) <-> k ∈ map trade_key trades.
Proof.
  unfold Pnl.bucketize.
  apply (dd_fold_keys trade_key (fun t fills => (fills ++ [t])%list) []).
Qed.

(** A bucket holds the input trades that carry its key, and at least
    one. *)
Lemma bucketize_elem k fills trades :
  (k, fills) ∈ Pnl.bucketize trades -> fills = members k trades /\ fills <> [].
Proof.
  intros Hin. apply dd_elem_get in Hin; [| apply bucketize_NoDup].
  rewrite bucketize_get in Hin.
  destruct (members k trades); [done |]. by injection Hin as <-.
Qed.

Lemma make_group_key E k fills g : Pnl.make_group E k fills = OK g -> group_key g = k.
Proof.
  unfold Pnl.make_group. intros H. bind_ok H tlast Hlast.
  destruct (match filter _ fills with [] => _ | _ :: _ => _ end) as [avg bought].
  bind_ok H tfirst Hfirst. injection H as <-. by destruct k.
Qed.

(** [group_trades] builds one group from every bucket and sorts them. *)
Lemma group_trades_OK E trades groups :
  Pnl.group_trades E trades = OK groups ->
  exists gs,
    mapM (fun b => Pnl.make_group E (fst b) (snd b)) (Pnl.bucketize trades) = OK gs
    /\ groups ≡ₚ gs
    /\ exists ks, mapM (fun g => Pnl.int E (last_match_time g)) groups = OK ks
                  /\ descending ks.
Proof.
  unfold Pnl.group_trades. intros H. bind_ok H gs Hgs.
  apply sorted_desc_OK in H as [Hperm Hsorted]. eauto.
Qed.

Lemma group_keys_buckets E trades gs :
  mapM (fun b => Pnl.make_group E (fst b) (snd b)) (Pnl.bucketize trades) = OK gs ->
  map group_key gs = map fst (Pnl.bucketize trades).
Proof.
  intros H. apply mapM_OK_Forall2 in H.
  induction H as [|[k fills] g bs gs Hg _ IH]; simpl; [done |].
  apply make_group_key in Hg. by rewrite Hg, IH.
Qed.

(** The keys of the groups: no key twice, and exactly the keys of the
    input. *)
Lemma group_keys_spec E trades groups :
  Pnl.group_trades E trades = OK groups ->
  NoDup (map group_key groups) /\
  (forall k, k ∈ map group_key groups <-> k ∈ map trade_key trades).
Proof.
  intros H. apply group_trades_OK in H as (gs & Hgs & Hperm & _).
  pose proof (group_keys_buckets _ _ _ Hgs) as Hkeys.
  assert (map group_key groups ≡ₚ map fst (Pnl.bucketize trades)) as Hp
    by (by rewrite Hperm, Hkeys).
  split.
  - rewrite Hp. apply bucketize_NoDup.
  - intros k. rewrite Hp. apply bucketize_keys.
Qed.

Lemma group_of_bucket E trades groups g :
  Pnl.group_trades E trades = OK groups -> g ∈ groups ->
  members (group_key g) trades <> [] /\
  Pnl.make_group E (group_key g) (members (group_key g) trades) = OK g.
Proof.
  intros H Hg. apply group_trades_OK in H as (gs & Hgs & Hperm & _).
  rewrite Hperm in Hg.
  destruct (mapM_OK_elem_r _ _ _ _ Hgs Hg) as ([k fills] & Hb & Hmk).
  simpl in Hmk. pose proof (make_group_key _ _ _ _ Hmk) as ->.
  apply bucketize_elem in Hb as [-> Hne]. done.
Qed.

(** Filtering by each key of a duplicate-free list that covers the keys
    of [ts] rearranges [ts]. *)
Lemma partition_concat (ks : list (string * string)) (ts : list Trade) :
  NoDup ks ->
  (forall t, t ∈ ts -> trade_key t ∈ ks) ->
  concat (map (fun k => members k ts) ks) ≡ₚ ts.
Proof.
  intros Hnd. induction ts as [|t ts IH]; intros Hcov.
  - change (map (fun k => members k []) ks) with (map (fun _ => @nil Trade) ks).
    by rewrite concat_map_nil.
  - transitivity (t :: concat (map (fun k => members k ts) ks));
      [| constructor; apply IH; intros; apply Hcov; by right].
    assert (trade_key t ∈ ks) as Hin by (apply Hcov; left).
    clear IH Hcov. induction Hnd as [|k ks Hk Hnd IHk]; [by apply elem_of_nil in Hin |].
    simpl. unfold members at 1. rewrite filter_cons.
    destruct (decide (trade_key t = k)) as [<-|Hne].
    + simpl. constructor. apply Permutation_app_head.
      assert (map (fun k => members k (t :: ts)) ks
              = map (fun k => members k ts) ks) as ->; [| done].
      apply map_ext_in. intros k' Hk'%list_elem_of_In. unfold members.
      rewrite filter_cons, decide_False; [done |]. intros <-. done.
    + apply elem_of_cons in Hin as [?|Hin]; [done |].
      fold (members k ts). rewrite (IHk Hin).
      by rewrite Permutation_middle.
Qed.

(** The timestamp [make_group] records is that of a member, and no member
    has a later one. *)
Lemma make_group_last_match_time E k fills g :
  Pnl.make_group E k fills = OK g ->
  exists t z, t ∈ fills /\ last_match_time g = match_time t
    /\ Pnl.int E (match_time t) = OK z
    /\ forall y, y ∈ fills -> exists zy, Pnl.int E (match_time y) = OK zy /\ zy <= z.
Proof.
  unfold Pnl.make_group. intros H. bind_ok H tlast Hlast.
  destruct (match filter _ fills with [] => _ | _ :: _ => _ end) as [avg bought].
  bind_ok H tfirst Hfirst. injection H as <-. simpl.
  apply max_by_OK in Hlast as (Hin & z & Hz & Hall).
  exists tlast, z. done.
Qed.

(* ===================================================================== *)
(** ** Facts about [get_trade_groups] *)
(* ===================================================================== *)

Lemma group_redeems_from (activities : list Account.record)
    (d d' : list (string * list Account.record)) :
  Py.for_each Account.group_redeems_step activities d = OK d' ->
  (NoDup (map fst d) -> NoDup (map fst d')) /\
  forall cid,
    Py.dd_get cid d' =
      match redeems_of cid activities with
      | [] => Py.dd_get cid d
      | rs => Some (default [] (Py.dd_get cid d) ++ rs)%list
      end.
Proof.
  revert d. induction activities as [|a acts IH]; intros d; simpl.
  - intros [= <-]. split; [done |]. intros cid. done.
  - intros H. bind_ok H d1 Hd1. destruct (IH _ H) as [Hnd Hget]. clear IH H.
    unfold Account.group_redeems_step in Hd1.
    bind_ok Hd1 ty Hty. apply or_raise_OK in Hty.
    destruct (decide (ty = "REDEEM")) as [->|Hne].
    + bind_ok Hd1 cid0 Hcid. apply or_raise_OK in Hcid. injection Hd1 as <-.
      split; [intros; by apply Hnd, dd_update_NoDup |].
      intros cid. rewrite Hget. unfold redeems_of. rewrite filter_cons.
      rewrite dd_get_update.
      destruct (decide (cid0 = cid)) as [->|Hc].
      * rewrite decide_True by done. simpl.
        destruct (filter _ acts) as [|r rs]; simpl.
        -- done.
        -- by rewrite <- app_assoc.
      * rewrite decide_False; [done |]. intros [_ ?]. congruence.
    + injection Hd1 as <-. split; [done |].
      intros cid. rewrite Hget. unfold redeems_of. rewrite filter_cons.
      rewrite decide_False; [done |]. intros [? _]. congruence.
Qed.

(** [redeems] holds, for every market with a REDEEM activity, exactly its
    REDEEM activities. *)
Lemma group_redeems_OK activities redeems :
  Account.group_redeems activities = OK redeems ->
  NoDup (map fst redeems) /\
  forall cid rs, (cid, rs) ∈ redeems <-> rs = redeems_of cid activities /\ rs <> [].
Proof.
  intros H. apply group_redeems_from in H as [Hnd Hget].
  specialize (Hnd (NoDup_nil_2 (A:=string))). split; [done |].
  intros cid rs. split.
  - intros Hin. apply dd_elem_get in Hin; [| done]. rewrite Hget in Hin.
    simpl in Hin. destruct (redeems_of cid activities); [done |].
    by injection Hin as <-.
  - intros [-> Hne]. apply dd_get_Some_elem. rewrite Hget.
    by destruct (redeems_of cid activities).
Qed.

Lemma group_redeems_get activities redeems cid :
  Account.group_redeems activities = OK redeems ->
  default [] (Py.dd_get cid redeems) = redeems_of cid activities.
Proof.
  intros H. apply group_redeems_from in H as [_ Hget]. rewrite Hget.
  by destruct (redeems_of cid activities).
Qed.

(** The stages of [get_trade_groups]. *)
Lemma get_trade_groups_OK E activities result :
  Account.get_trade_groups E activities = OK result ->
  exists trades groups redeems augmented redeem_only,
    Account.trade_activities E activities = OK trades
    /\ Pnl.group_trades E trades = OK groups
    /\ Account.group_redeems activities = OK redeems
    /\ mapM (Account.augment_group E redeems) groups = OK augmented
    /\ mapM (fun cr => Account.redeem_only_group E (fst cr) (snd cr))
         (filter (fun cr => fst cr ∉ (list_to_set (map g_market groups) : gset string))
            redeems) = OK redeem_only
    /\ result ≡ₚ (augmented ++ redeem_only)%list
    /\ exists ks, mapM (fun g => Pnl.int E (last_match_time g)) result = OK ks
                  /\ descending ks.
Proof.
  unfold Account.get_trade_groups. intros H.
  bind_ok H trades Htrades. bind_ok H groups Hgroups.
  bind_ok H redeems Hredeems. bind_ok H augmented Haug.
  bind_ok H redeem_only Hro.
  apply sorted_desc_OK in H as [Hperm Hsorted].
  exists trades, groups, redeems, augmented, redeem_only. done.
Qed.

Lemma int_str_of_Z E z : Pnl.int E (Py.str_of_Z z) = OK z.
Proof. unfold Pnl.int. by rewrite Py.int_of_str_of_Z. Qed.

Lemma augment_group_OK E activities redeems g g' :
  Account.group_redeems activities = OK redeems ->
  Account.augment_group E redeems g = OK g' ->
  reconciled E (redeems_of (g_market g) activities) g g'
  /\ g_market g' = g_market g.
Proof.
  intros Hr H. unfold Account.augment_group in H.
  rewrite (group_redeems_get _ _ _ Hr) in H. unfold reconciled.
  destruct (redeems_of (g_market g) activities) as [|r rs].
  - injection H as <-. done.
  - bind_ok H total Htotal. bind_ok H latest_redeem Hlatest.
    apply fmap_OK in Hlatest as (latest & Hlatest & ->).
    bind_ok H old Hold. rewrite int_str_of_Z in H. simpl in H.
    injection H as <-. split; [| done].
    exists total, latest, old. done.
Qed.

Lemma redeem_only_group_OK E cid rs g :
  Account.redeem_only_group E cid rs = OK g ->
  g_market g = cid
  /\ g_outcome g = Account.unknown_outcome
  /\ avg_buy_price g = Dec.of_Z 0
  /\ total_bought g = Dec.of_Z 0
  /\ Account.redeem_total E rs = OK (pnl g).
Proof.
  unfold Account.redeem_only_group. intros H.
  bind_ok H total Htotal. bind_ok H latest Hlatest.
  bind_ok H title Htitle. bind_ok H slug Hslug. bind_ok H ts Hts.
  injection H as <-. done.
Qed.

Lemma reconciled_market E activities redeems groups augmented :
  Account.group_redeems activities = OK redeems ->
  mapM (Account.augment_group E redeems) groups = OK augmented ->
  Forall2 (fun g g' => reconciled E (redeems_of (g_market g) activities) g g')
    groups augmented
  /\ map g_market augmented = map g_market groups.
Proof.
  intros Hr H. apply mapM_OK_Forall2 in H.
  induction H as [|g g' gs gs' Hg _ [IH1 IH2]]; [by split; constructor |].
  destruct (augment_group_OK _ _ _ _ _ Hr Hg) as [Hrec Hm].
  split; [by constructor | simpl; congruence].
Qed.

Lemma redeem_only_markets E (crs : list (string * list Account.record)) gs :
  mapM (fun cr => Account.redeem_only_group E (fst cr) (snd cr)) crs = OK gs ->
  map g_market gs = map fst crs.
Proof.
  intros H. apply mapM_OK_Forall2 in H.
  induction H as [|[cid rs] g crs gs Hg _ IH]; simpl; [done |].
  apply redeem_only_group_OK in Hg as [-> _]. by rewrite IH.
Qed.

(* ===================================================================== *)
(** ** Facts about the conversion of raw records *)
(* ===================================================================== *)

Lemma getitem_OK (a : Account.record) k v : Account.getitem a k = OK v <-> a !! k = Some v.
Proof. apply or_raise_OK. Qed.

Lemma getitem_Raise t k e :
  Account.getitem t k = Raise e -> e = KeyError k /\ t !! k = None.
Proof. unfold Account.getitem. destruct (t !! k); simpl; [done |]. by intros [= <-]. Qed.

Lemma decimal_field_OK E t f d :
  Account.getitem t f ≫= Account.to_Decimal E = OK d -> parsed E t f d.
Proof.
  intros H. bind_ok H s Hs. apply or_raise_OK in Hs, H. by exists s.
Qed.

Lemma trade_activities_step_acc E (acc : list Trade) (a : Account.record) :
  Account.trade_activities_step E acc a =
    (fun ts => acc ++ ts)%list <$> Account.trade_activities_step E [] a.
Proof.
  unfold Account.trade_activities_step.
  destruct (Account.getitem a "type") as [ty|e0]; simpl; [| done].
  destruct (decide (ty = "TRADE")); [| simpl; by rewrite app_nil_r].
  destruct (Account.trade_of_activity E true a); simpl; done.
Qed.

(** The first loop of [get_trade_groups] converts every TRADE activity,
    in order, and nothing else. *)
Lemma trade_activities_OK E activities trades :
  Account.trade_activities E activities = OK trades ->
  mapM (Account.trade_of_activity E true) (trades_of activities) = OK trades.
Proof.
  unfold Account.trade_activities. revert trades.
  induction activities as [|a acts IH]; intros trades; simpl.
  - intros [= <-]. done.
  - intros H. bind_ok H ts Hts.
    rewrite for_each_emit in H by apply trade_activities_step_acc.
    apply fmap_OK in H as (ts' & Hts' & ->). specialize (IH _ Hts').
    unfold Account.trade_activities_step in Hts. bind_ok Hts ty Hty.
    apply or_raise_OK in Hty. unfold trades_of. rewrite filter_cons.
    destruct (decide (ty = "TRADE")) as [->|Hne].
    + bind_ok Hts t Ht. injection Hts as <-.
      rewrite decide_True by done. simpl. rewrite Ht. simpl.
      fold (trades_of acts). by rewrite IH.
    + injection Hts as <-. rewrite decide_False by congruence. done.
Qed.

Lemma _activities_as_trades_step_acc E (acc : list Trade) (a : Account.record) :
  Account._activities_as_trades_step E acc a =
    (fun ts => acc ++ ts)%list <$> Account._activities_as_trades_step E [] a.
Proof.
  unfold Account._activities_as_trades_step.
  destruct (Account.getitem a "type") as [ty|e0]; simpl; [| done].
  destruct (decide (ty = "TRADE")).
  { destruct (Account.trade_of_activity E false a); simpl; done. }
  destruct (decide (ty = "REDEEM")); [| simpl; by rewrite app_nil_r].
  destruct (Account.getitem a "size" ≫= Account.to_Decimal E) as [sz|e1]; simpl; [| done].
  destruct (Dec.is_zero sz); [simpl; by rewrite app_nil_r |].
  destruct (Account.getitem a "usdcSize" ≫= Account.to_Decimal E); simpl; [| done].
  destruct (Account.getitem a "transactionHash"); simpl; [| done].
  destruct (Account.getitem a "conditionId"); simpl; [| done].
  destruct (Account.getitem a "timestamp"); simpl; done.
Qed.

(** The trades of a feed are those of its records, one record after the
    other. *)
Lemma _activities_as_trades_app E (xs ys : list Account.record) :
  Account._activities_as_trades E (xs ++ ys) =
    txs ← Account._activities_as_trades E xs;
    tys ← Account._activities_as_trades E ys;
    OK (txs ++ tys)%list.
Proof.
  unfold Account._activities_as_trades. rewrite for_each_app.
  destruct (Py.for_each _ xs []) as [txs|e]; simpl; [| done].
  rewrite for_each_emit by apply _activities_as_trades_step_acc.
  by destruct (Py.for_each _ ys []).
Qed.

(* ===================================================================== *)
(** ** Facts about the price lookup *)
(* ===================================================================== *)

(** The loop stops at the first matching outcome name. *)
Lemma scan_outcomes_find E prices outcome (items : list Py.scalar) (i : nat) :
  Account.scan_outcomes E prices (Account.normalize E outcome) i items =
    match list_find (matches E outcome) items with
    | Some (j, _) => Some <$> price_at E prices (i + j)
    | None => OK None
    end.
Proof.
  revert i. induction items as [|o items IH]; intros i; simpl; [done |].
  unfold matches at 1. unfold Account.normalize.
  destruct (decide (_ = _)) as [Heq|Hne].
  - rewrite Nat.add_0_r. unfold price_at.
    destruct (Account.index prices i) as [p|e]; simpl; [| done].
    by destruct (Account.to_Decimal E (Py.str_of_scalar p)).
  - rewrite IH.
    destruct (list_find (matches E outcome) items) as [[j o']|]; simpl; [| done].
    by replace (i + S j)%nat with (S (i + j)) by lia.
Qed.

Lemma current_price_empty E outcome :
  Account._current_price_for_outcome E ∅ outcome = Dec.zero.
Proof.
  unfold Account._current_price_for_outcome, Account.price_lookup.
  rewrite !lookup_empty. simpl. rewrite !Py.json_loads_empty. simpl. done.
Qed.

(** A failed lookup gives the price 0. *)
Lemma lookup_fails_zero E info outcome :
  lookup_fails E info outcome ->
  Account._current_price_for_outcome E info outcome = Dec.zero.
Proof.
  unfold lookup_fails, Account._current_price_for_outcome, Account.price_lookup.
  intros [[e He]|[[e He]|[(v & e & Hv & He)|(outcomes & prices & items & Ho & Hp & Hi & Hm)]]].
  - by rewrite He.
  - rewrite He. by destruct (Account.decode E (default _ (info !! "outcomes"))).
  - rewrite Hv. simpl.
    destruct (Account.decode E (default _ (info !! "outcomePrices"))); simpl; [| done].
    by rewrite He.
  - rewrite Ho, Hp. simpl. rewrite Hi. simpl. rewrite scan_outcomes_find. simpl.
    destruct (list_find (matches E outcome) items) as [[i o]|]; [| done].
    unfold price_at.
    destruct Hm as [[e He]|(p & Hp' & Hrej & _)]; [by rewrite He |].
    rewrite Hp'. simpl. unfold Account.to_Decimal. by rewrite Hrej.
Qed.

(** Zero times anything is no more than the dust threshold. *)
Lemma zero_value_is_dust (n : Dec.t) : Dec.leb (Dec.zero * n)%dec Account.dust = true.
Proof.
  assert ((Dec.zero * n)%dec = Dec.mk 0 (Dec.expo n)) as ->.
  { unfold Dec.mul. cbn [Dec.zero Dec.of_Z Dec.coef Dec.expo].
    by rewrite Z.mul_0_l, Z.add_0_l. }
  unfold Dec.leb, Dec.compare, Account.dust, Dec.lit. cbn [Dec.coef Dec.expo].
  set (e := Z.min _ _).
  match goal with
  | |- context [1 * 10 ^ ?k] => pose proof (pow10_pos k ltac:(lia)) as Hp
  end.
  rewrite Z.mul_0_l, Z.mul_1_l. apply Z.compare_lt_iff in Hp. by rewrite Hp.
Qed.

(** An entry whose price is 0 is skipped as dust. *)
Lemma position_of_zero_price E mp r :
  Account._current_price_for_outcome E
    (default ∅ (mp !! Account.or_conditionId r)) (Account.or_outcome r) = Dec.zero ->
  Account.position_of E mp r = None.
Proof.
  intros H. unfold Account.position_of. rewrite H. by rewrite zero_value_is_dust.
Qed.

(* ===================================================================== *)
(** ** Facts about [get_open_positions] *)
(* ===================================================================== *)

Lemma redeemed_markets_from activities (s0 s : gset string) :
  Py.for_each Account.redeemed_markets_step activities s0 = OK s ->
  forall cid, cid ∈ s <-> cid ∈ s0 \/ redeemed_in activities cid.
Proof.
  revert s0. induction activities as [|a acts IH]; intros s0; simpl.
  - intros [= <-] cid. split; [by left |]. intros [?|(a & Ha & _)]; [done |].
    by apply elem_of_nil in Ha.
  - intros H cid. bind_ok H s1 Hs1. rewrite (IH _ H). clear IH H.
    unfold Account.redeemed_markets_step in Hs1. bind_ok Hs1 ty Hty.
    apply getitem_OK in Hty.
    destruct (decide (ty = "REDEEM")) as [->|Hne].
    + bind_ok Hs1 c Hc. apply getitem_OK in Hc. injection Hs1 as <-.
      rewrite elem_of_union, elem_of_singleton. split.
      * intros [[->|?]|(a' & Hin & Ht & Hcid)].
        -- right. exists a. split; [left | done].
        -- by left.
        -- right. exists a'. split; [by right | done].
      * intros [?|(a' & [->|Hin]%elem_of_cons & Ht & Hcid)].
        -- left. by right.
        -- left. left. congruence.
        -- right. by exists a'.
    + injection Hs1 as <-. split.
      * intros [?|(a' & Hin & Ht & Hcid)]; [by left |].
        right. exists a'. split; [by right | done].
      * intros [?|(a' & [->|Hin]%elem_of_cons & Ht & Hcid)]; [by left | congruence |].
        right. by exists a'.
Qed.

(** [redeemed] is the set of markets with a REDEEM activity. *)
Lemma redeemed_markets_OK activities s :
  Account.redeemed_markets activities = OK s ->
  forall cid, cid ∈ s <-> redeemed_in activities cid.
Proof.
  intros H cid. rewrite (redeemed_markets_from _ _ _ H).
  split; [intros [Hin|?]; [by apply not_elem_of_empty in Hin | done] | by right].
Qed.

Lemma bucket_fills_from activities st0 st :
  Py.for_each Account.bucket_fills_step activities st0 = OK st ->
  (NoDup (map fst (fst st0)) -> NoDup (map fst (fst st))) /\
  forall key,
    Py.dd_get key (fst st) =
      match fills_of key activities with
      | [] => Py.dd_get key (fst st0)
      | fs => Some (default [] (Py.dd_get key (fst st0)) ++ fs)%list
      end.
Proof.
  revert st0. induction activities as [|a acts IH]; intros st0; simpl.
  - intros [= <-]. done.
  - intros H. bind_ok H st1 Hst1. destruct (IH _ H) as [Hnd Hget]. clear IH H.
    unfold Account.bucket_fills_step in Hst1. bind_ok Hst1 ty Hty.
    apply getitem_OK in Hty.
    assert (forall key, fills_of key (a :: acts) =
              if decide (a !! "type" = Some "TRADE"
                         /\ a !! "conditionId" = Some (fst key)
                         /\ a !! "outcome" = Some (snd key))
              then a :: fills_of key acts else fills_of key acts) as Hcons.
    { intros key. unfold fills_of. by rewrite filter_cons. }
    destruct (decide (ty = "TRADE")) as [->|Hne].
    + bind_ok Hst1 cid Hcid. bind_ok Hst1 out Hout.
      apply getitem_OK in Hcid, Hout.
      assert (fst st1 = Py.dd_update (cid, out) (fun fs => fs ++ [a])%list []
                          (fst st0)) as Hb.
      { destruct (snd st0 !! cid).
        - by injection Hst1 as <-.
        - bind_ok Hst1 title Ht. bind_ok Hst1 slug Hs. by injection Hst1 as <-. }
      rewrite Hb in *. split; [intros; by apply Hnd, dd_update_NoDup |].
      intros key. rewrite Hget, Hcons, dd_get_update.
      destruct (decide ((cid, out) = key)) as [<-|Hk].
      * rewrite decide_True by done.
        destruct (fills_of (cid, out) acts); simpl; [done |].
        by rewrite <- app_assoc.
      * rewrite decide_False; [done |].
        intros (_ & ? & ?). apply Hk. destruct key; simpl in *; congruence.
    + injection Hst1 as <-. split; [done |].
      intros key. rewrite Hget, Hcons.
      rewrite decide_False; [done |]. intros (? & _). congruence.
Qed.

(** [buckets] holds, for every (market, outcome) with a TRADE activity,
    exactly its TRADE activities. *)
Lemma bucket_fills_OK activities st :
  Account.bucket_fills activities = OK st ->
  forall key fills, (key, fills) ∈ fst st ->
    fills = fills_of key activities /\ fills <> [].
Proof.
  intros H key fills Hin. apply bucket_fills_from in H as [Hnd Hget].
  apply dd_elem_get in Hin; [| apply Hnd; constructor].
  rewrite Hget in Hin. simpl in Hin.
  destruct (fills_of key activities); [done |]. by injection Hin as <-.
Qed.

Lemma with_side_OK v fills l :
  Account.with_side v fills = OK l -> l = on_side v fills.
Proof.
  revert l. induction fills as [|f fills IH]; intros l; simpl.
  - by intros [= <-].
  - intros H. bind_ok H s Hs. bind_ok H rest Hrest. injection H as <-.
    apply getitem_OK in Hs. rewrite (IH _ Hrest).
    unfold on_side. rewrite filter_cons.
    destruct (decide (s = v)) as [->|Hne].
    + by rewrite decide_True.
    + rewrite decide_False; [done | congruence].
Qed.

(** What an entry of [open_raw] records about its bucket. *)
Lemma open_raw_entry_OK E redeemed meta key fills r :
  Account.open_raw_entry E redeemed meta key fills = OK (Some r) ->
  (fst key ∉ redeemed)
  /\ Account.or_conditionId r = fst key
  /\ Account.or_outcome r = snd key
  /\ exists buy_sizes sell_sizes,
       mapM (Account.size_of E) (on_side "BUY" fills) = OK buy_sizes
       /\ mapM (Account.size_of E) (on_side "SELL" fills) = OK sell_sizes
       /\ Account.or_net_shares r = (Dec.sum buy_sizes - Dec.sum sell_sizes)%dec
       /\ Dec.leb (Account.or_net_shares r) (Dec.of_Z 0) = false.
Proof.
  unfold Account.open_raw_entry. intros H.
  destruct (decide (fst key ∈ redeemed)) as [|Hnot]; [done |].
  bind_ok H buys Hbuys. bind_ok H sells Hsells.
  apply with_side_OK in Hbuys, Hsells. subst buys sells.
  bind_ok H tb Htb. apply fmap_OK in Htb as (bs & Hbs & ->).
  bind_ok H tsl Htsl. apply fmap_OK in Htsl as (ss & Hss & ->).
  destruct (Dec.leb _ _) eqn:Hnet; [done |].
  bind_ok H tv Htv. bind_ok H lbt Hlbt. bind_ok H m Hm.
  injection H as <-. simpl. split_and!; try done.
  exists bs, ss. done.
Qed.

Lemma open_raw_OK E activities raw r :
  Account.open_raw E activities = OK raw -> r ∈ raw ->
  exists redeemed meta key,
    (forall cid, cid ∈ redeemed <-> redeemed_in activities cid)
    /\ fills_of key activities <> []
    /\ Account.open_raw_entry E redeemed meta key (fills_of key activities)
       = OK (Some r).
Proof.
  unfold Account.open_raw. intros H Hr.
  bind_ok H redeemed Hred. bind_ok H st Hst. bind_ok H entries Hent.
  apply sorted_desc_OK in H as [Hperm _]. rewrite Hperm in Hr.
  apply list_elem_of_omap in Hr as (o & Ho & Hsome). unfold Datatypes.id in Hsome.
  subst o.
  destruct (mapM_OK_elem_r _ _ _ _ Hent Ho) as ([key fills] & Hb & Hentry).
  simpl in Hentry. destruct (bucket_fills_OK _ _ Hst _ _ Hb) as [-> Hne].
  exists redeemed, (snd st), key. split_and!; [| done | done].
  by apply redeemed_markets_OK.
Qed.

Lemma position_of_Some E mp r p :
  Account.position_of E mp r = Some p ->
  p_market p = Account.or_conditionId r
  /\ p_outcome p = Account.or_outcome r
  /\ net_shares p = Account.or_net_shares r
  /\ current_price p =
       Account._current_price_for_outcome E
         (default ∅ (mp !! Account.or_conditionId r)) (Account.or_outcome r)
  /\ Dec.leb (current_price p * net_shares p)%dec Account.dust = false.
Proof.
  unfold Account.position_of.
  destruct (Dec.leb _ _) eqn:Hd; [done |]. intros [= <-]. simpl. done.
Qed.

(* ===================================================================== *)
(** ** Facts about [daily_pnl] *)
(* ===================================================================== *)

(** Each iteration adds [trade_pnl] of the trade to the bucket of its
    day. *)
Lemma daily_pnl_step_eq E buckets t :
  Pnl.daily_pnl_step E buckets t =
    day ← day_of E t;
    OK (Py.dd_update day (fun b => b + Pnl.trade_pnl t)%dec Dec.zero buckets).
Proof.
  unfold Pnl.daily_pnl_step, day_of, Pnl.trade_pnl.
  destruct (Pnl.int E (match_time t)) as [ts|e]; simpl; [| done].
  destruct (or_raise ValueError (Py.local_date E ts)) as [day|e]; simpl; [| done].
  destruct (decide (side t = "SELL")); [done |].
  f_equal. apply dd_update_ext. intros b. symmetry. apply add_neg_add.
Qed.

Lemma daily_buckets_from E trades (bs bs' : list (string * Dec.t)) :
  Py.for_each (Pnl.daily_pnl_step E) trades bs = OK bs' ->
  (NoDup (map fst bs) -> NoDup (map fst bs'))
  /\ (forall t, t ∈ trades -> exists d, day_of E t = OK d)
  /\ forall d,
       Py.dd_get d bs' =
         match trades_on E d trades with
         | [] => Py.dd_get d bs
         | ts =>
             Some (fold_left Dec.add (map Pnl.trade_pnl ts)
                     (default Dec.zero (Py.dd_get d bs)))
         end.
Proof.
  revert bs. induction trades as [|t trades IH]; intros bs; simpl.
  - intros [= <-]. split_and!; [done | | done].
    intros t Ht. by apply elem_of_nil in Ht.
  - intros H. bind_ok H bs1 Hbs1. destruct (IH _ H) as (Hnd & Hdays & Hget).
    clear IH H. rewrite daily_pnl_step_eq in Hbs1. bind_ok Hbs1 day Hday.
    injection Hbs1 as <-. split_and!.
    + intros. by apply Hnd, dd_update_NoDup.
    + intros t' [->|Ht']%elem_of_cons; [eauto | by apply Hdays].
    + intros d. rewrite Hget, dd_get_update. unfold trades_on.
      rewrite filter_cons. rewrite Hday.
      destruct (decide (day = d)) as [->|Hne].
      * rewrite decide_True by reflexivity.
        destruct (filter _ trades) as [|t' ts']; cbn [default from_option];
          reflexivity.
      * rewrite decide_False; [reflexivity | congruence].
Qed.

(** The buckets of [daily_pnl]: one per calendar day on which a trade
    falls, holding the sum of [trade_pnl] over the trades of that day. *)
Lemma daily_pnl_OK E trades daily :
  Pnl.daily_pnl E trades = OK daily ->
  NoDup (map fst daily)
  /\ (forall t, t ∈ trades -> exists d, day_of E t = OK d)
  /\ forall d v,
       (d, v) ∈ daily <->
       trades_on E d trades <> []
       /\ v = Dec.sum (map Pnl.trade_pnl (trades_on E d trades)).
Proof.
  unfold Pnl.daily_pnl. intros H. bind_ok H bs Hbs. injection H as <-.
  destruct (daily_buckets_from _ _ _ _ Hbs) as (Hnd & Hdays & Hget).
  specialize (Hnd (NoDup_nil_2 (A:=string))).
  pose proof (sort_desc_Permutation String.ltb bs) as Hperm.
  split_and!; [by rewrite Hperm | done |].
  intros d v. rewrite Hperm. split.
  - intros Hin. apply dd_elem_get in Hin; [| done]. rewrite Hget in Hin.
    simpl in Hin. destruct (trades_on E d trades); [done |].
    injection Hin as <-. done.
  - intros [Hne ->]. apply dd_get_Some_elem. rewrite Hget.
    by destruct (trades_on E d trades).
Qed.

(** Adding an amount to the bucket of a day, when nothing rounds. *)
Lemma dd_update_exact k (day : string) (p : Dec.t) (bs : list (string * Dec.t)) :
  0 <= k ->
  places k p -> (forall b, b ∈ bs -> places k (snd b)) ->
  Zsum (map (fun b => Z.abs (units k (snd b))) bs) + Z.abs (units k p)
    < 10 ^ Dec.prec ->
  let bs' := Py.dd_update day (fun b => b + p)%dec Dec.zero bs in
  (forall b, b ∈ bs' -> places k (snd b))
  /\ Zsum (map (fun b => units k (snd b)) bs')
     = Zsum (map (fun b => units k (snd b)) bs) + units k p
  /\ Zsum (map (fun b => Z.abs (units k (snd b))) bs')
     <= Zsum (map (fun b => Z.abs (units k (snd b))) bs) + Z.abs (units k p).
Proof.
  intros Hk Hp. induction bs as [|[d v] bs IH]; intros Hall Hfit; simpl in *.
  - destruct (add_exact k Dec.zero p) as [Hpl Hu];
      [by apply places_zero | done | rewrite units_zero; simpl; lia |].
    rewrite units_zero in Hu. split_and!.
    + intros b Hb. apply list_elem_of_singleton in Hb as ->. done.
    + simpl. lia.
    + simpl. rewrite Hu. simpl. lia.
  - pose proof (Zsum_abs_nonneg (fun b : string * Dec.t => units k (snd b)) bs) as Hpos.
    destruct (decide (d = day)) as [->|Hne]; simpl.
    + destruct (add_exact k v p) as [Hpl Hu];
        [apply (Hall (day, v)); left | done | lia |].
      split_and!.
      * intros b [->|Hb]%elem_of_cons; [done | apply Hall; by right].
      * lia.
      * rewrite Hu. lia.
    + destruct IH as (H1 & H2 & H3); [intros; apply Hall; by right | lia |].
      split_and!.
      * intros b [->|Hb]%elem_of_cons; [apply (Hall (d, v)); left | by apply H1].
      * lia.
      * lia.
Qed.

(** The loop of [daily_pnl], when nothing rounds: the buckets add up to
    the cash flows of the trades seen so far. *)
Lemma daily_loop_exact k E trades (bs bs' : list (string * Dec.t)) :
  0 <= k ->
  Py.for_each (Pnl.daily_pnl_step E) trades bs = OK bs' ->
  (forall t, t ∈ trades -> places k (Pnl.trade_pnl t)) ->
  (forall b, b ∈ bs -> places k (snd b)) ->
  Zsum (map (fun b => Z.abs (units k (snd b))) bs)
    + Zsum (map (fun t => Z.abs (units k (Pnl.trade_pnl t))) trades)
    < 10 ^ Dec.prec ->
  (forall b, b ∈ bs' -> places k (snd b))
  /\ Zsum (map (fun b => units k (snd b)) bs')
     = Zsum (map (fun b => units k (snd b)) bs)
       + Zsum (map (fun t => units k (Pnl.trade_pnl t)) trades)
  /\ Zsum (map (fun b => Z.abs (units k (snd b))) bs')
     <= Zsum (map (fun b => Z.abs (units k (snd b))) bs)
        + Zsum (map (fun t => Z.abs (units k (Pnl.trade_pnl t))) trades).
Proof.
  intros Hk. revert bs.
  induction trades as [|t trades IH]; intros bs H Hpl Hall Hfit; simpl in *.
  - injection H as <-. split_and!; [done | lia | lia].
  - bind_ok H bs1 Hbs1. rewrite daily_pnl_step_eq in Hbs1.
    bind_ok Hbs1 day Hday. injection Hbs1 as <-.
    pose proof (Zsum_abs_nonneg (fun t => units k (Pnl.trade_pnl t)) trades) as Hpos.
    destruct (dd_update_exact k day (Pnl.trade_pnl t) bs Hk) as (H1 & H2 & H3);
      [apply Hpl; left | done | lia |].
    destruct (IH _ H) as (H4 & H5 & H6);
      [intros; apply Hpl; by right | done | lia |].
    split_and!; [done | lia | lia].
Qed.

Lemma no_rounding_Permutation k trades trades' :
  trades' ≡ₚ trades -> no_rounding k trades -> no_rounding k trades'.
Proof.
  intros Hperm (Hk & Hpl & Hfit). split_and!; [done | |].
  - intros t Ht. apply Hpl. by rewrite <- Hperm.
  - erewrite Zsum_Permutation; [exact Hfit |]. by rewrite Hperm.
Qed.

(** The direct sum of [trade_pnl], when nothing rounds. *)
Lemma direct_sum_exact k trades :
  no_rounding k trades ->
  places k (Dec.sum (map Pnl.trade_pnl trades))
  /\ units k (Dec.sum (map Pnl.trade_pnl trades))
     = Zsum (map (fun t => units k (Pnl.trade_pnl t)) trades).
Proof.
  intros (Hk & Hpl & Hfit).
  destruct (sum_from_exact k (map Pnl.trade_pnl trades) Dec.zero) as [H1 H2].
  - by apply places_zero.
  - intros x (t & -> & Ht)%list_elem_of_fmap. by apply Hpl.
  - rewrite units_zero, map_map. simpl. lia.
  - split; [done |]. unfold Dec.sum. rewrite H2, units_zero, map_map. lia.
Qed.

(** The total of the daily buckets, when nothing rounds. *)
Lemma total_pnl_exact k E trades daily :
  Pnl.daily_pnl E trades = OK daily -> no_rounding k trades ->
  places k (Pnl.total_pnl daily)
  /\ units k (Pnl.total_pnl daily)
     = Zsum (map (fun t => units k (Pnl.trade_pnl t)) trades).
Proof.
  unfold Pnl.daily_pnl. intros H (Hk & Hpl & Hfit).
  bind_ok H bs Hbs. injection H as <-.
  destruct (daily_loop_exact k E trades [] bs Hk Hbs) as (H1 & H2 & H3);
    [done | intros b Hb; by apply elem_of_nil in Hb | simpl; lia |].
  simpl in H2, H3.
  pose proof (sort_desc_Permutation String.ltb bs) as Hperm.
  set (daily := Py.sort_desc String.ltb bs) in *.
  destruct (sum_from_exact k (map snd daily) Dec.zero) as [H4 H5].
  - by apply places_zero.
  - intros x (b & -> & Hb)%list_elem_of_fmap. apply H1. by rewrite <- Hperm.
  - rewrite units_zero, map_map. simpl.
    erewrite Zsum_Permutation; [| by rewrite Hperm]. lia.
  - unfold Pnl.total_pnl, Dec.sum. split; [done |].
    rewrite H5, units_zero, map_map. simpl.
    erewrite Zsum_Permutation; [| by rewrite Hperm]. lia.
Qed.

(* ===================================================================== *)
(** ** C1: the daily buckets and the direct sum *)
(* ===================================================================== *)

(** A SELL of 1E+28 shares at 1 on the first day, a SELL of one share at
    1 on the second day and a BUY of 1E+28 shares at 1 on the first day:
    the buckets hold 0 and 1 and total 1, while the sum of [trade_pnl] in
    input order is 0, the one being lost when it is added to 1E+28 in 28
    digits. *)
Lemma daily_total_counterexample :
  ~ (forall E trades daily,
       Pnl.daily_pnl E trades = OK daily ->
       Dec.eqb (Pnl.total_pnl daily) (Dec.sum (map Pnl.trade_pnl trades)) = true)
  /\ exists daily,
       Pnl.daily_pnl Std.env c1_trades = OK daily
       /\ Dec.eqb (Pnl.total_pnl daily) (Dec.of_Z 1) = true
       /\ Dec.eqb (Dec.sum (map Pnl.trade_pnl c1_trades)) (Dec.of_Z 0) = true
       /\ Dec.eqb (Pnl.total_pnl daily) (Dec.sum (map Pnl.trade_pnl c1_trades))
          = false.
Proof.
  split.
  - intros H.
    specialize (H Std.env c1_trades
                  [("1970-01-02", Dec.mk 1 0); ("1970-01-01", Dec.mk 0 1)]).
    vm_compute in H. specialize (H eq_refl). discriminate.
  - eexists. split; [vm_compute; reflexivity |]. split_and!; vm_compute; reflexivity.
Qed.

(** C1, amended.  Whenever [daily_pnl] returns: no day occurs twice,
    every trade falls on a day that has a bucket, and the bucket of a day
    holds the sum of [trade_pnl] over the trades of that day, so each
    trade is counted in exactly one bucket.  If the per-trade cash flows
    have at most [k] decimal places and their absolute values total less
    than [10 ^ (28 - k)], no addition rounds and [total_pnl] of the buckets
    equals the direct sum of [trade_pnl], for the trades in any order. *)
Theorem daily_total_matches_direct_sum E (trades : list Trade)
    (daily : list (string * Dec.t)) :
  Pnl.daily_pnl E trades = OK daily ->
  NoDup (map fst daily)
  /\ (forall t, t ∈ trades -> exists d, day_of E t = OK d /\ d ∈ map fst daily)
  /\ (forall d v,
        (d, v) ∈ daily <->
        trades_on E d trades <> []
        /\ v = Dec.sum (map Pnl.trade_pnl (trades_on E d trades)))
  /\ (forall k,
        no_rounding k trades ->
        Dec.eqb (Pnl.total_pnl daily) (Dec.sum (map Pnl.trade_pnl trades)) = true
        /\ forall trades' daily',
             trades' ≡ₚ trades -> Pnl.daily_pnl E trades' = OK daily' ->
             Dec.eqb (Pnl.total_pnl daily') (Dec.sum (map Pnl.trade_pnl trades))
             = true).
Proof.
  intros H. destruct (daily_pnl_OK _ _ _ H) as (Hnd & Hdays & Hbuckets).
  split_and!; [done | | done |].
  - intros t Ht. destruct (Hdays t Ht) as [d Hd]. exists d. split; [done |].
    apply list_elem_of_fmap.
    exists (d, Dec.sum (map Pnl.trade_pnl (trades_on E d trades))).
    split; [done |]. apply Hbuckets. split; [| done].
    intros Hnil.
    assert (t ∈ trades_on E d trades) as Hin by (by apply list_elem_of_filter).
    rewrite Hnil in Hin. by apply elem_of_nil in Hin.
  - intros k Hno. pose proof Hno as (Hk & _).
    destruct (direct_sum_exact k trades Hno) as [Hp1 Hu1].
    split.
    + destruct (total_pnl_exact k E trades daily H Hno) as [Hp2 Hu2].
      apply (eqb_units k); [done | done | congruence].
    + intros trades' daily' Hperm H'.
      destruct (total_pnl_exact k E trades' daily' H')
        as [Hp2 Hu2]; [by eapply no_rounding_Permutation |].
      apply (eqb_units k); [done | done |].
      rewrite Hu2, Hu1. apply Zsum_Permutation. by rewrite Hperm.
Qed.

Lemma daily_total_matches_direct_sum_witness :
  map fst c1_ok_daily = ["2023-11-15"; "2023-11-14"]
  /\ no_rounding 4 c1_ok_trades
  /\ Dec.eqb (Pnl.total_pnl c1_ok_daily) (Dec.sum (map Pnl.trade_pnl c1_ok_trades))
     = true.
Proof.
  assert (no_rounding 4 c1_ok_trades) as Hno.
  { split_and!; [lia | | vm_compute; reflexivity].
    intros t Ht. repeat (apply elem_of_cons in Ht as [->|Ht]);
      [vm_compute; discriminate .. | by apply elem_of_nil in Ht]. }
  split; [reflexivity |]. split; [exact Hno |].
  destruct (daily_total_matches_direct_sum Std.env c1_ok_trades c1_ok_daily)
    as (_ & _ & _ & Hexact).
  - vm_compute. reflexivity.
  - exact (proj1 (Hexact 4 Hno)).
Defined.

(* ===================================================================== *)
(** ** C2: [group_trades] partitions its input *)
(* ===================================================================== *)

(** C2.  Whenever [group_trades] returns, the groups carry pairwise
    different (market, outcome) keys, the keys are exactly the keys that
    occur in the input, every input trade has exactly one group with its
    key, every group is built from precisely the input trades that carry
    its key, these member lists together rearrange the input, and
    reordering the input leaves the set of keys unchanged. *)
Theorem group_trades_partition E (trades : list Trade) (groups : list TradeGroup) :
  Pnl.group_trades E trades = OK groups ->
  NoDup (map group_key groups)
  /\ (forall k, k ∈ map group_key groups <-> k ∈ map trade_key trades)
  /\ (forall t, t ∈ trades ->
        exists g, g ∈ groups /\ group_key g = trade_key t
          /\ forall g', g' ∈ groups -> group_key g' = trade_key t -> g' = g)
  /\ (forall g, g ∈ groups ->
        Pnl.make_group E (group_key g) (members (group_key g) trades) = OK g)
  /\ concat (map (fun g => members (group_key g) trades) groups) ≡ₚ trades
  /\ (forall trades' groups',
        trades' ≡ₚ trades -> Pnl.group_trades E trades' = OK groups' ->
        map group_key groups' ≡ₚ map group_key groups).
Proof.
  intros H. destruct (group_keys_spec _ _ _ H) as [Hnd Hkeys].
  split_and!; [done | done | | | |].
  - intros t Ht.
    assert (trade_key t ∈ map group_key groups) as Hk.
    { apply Hkeys. apply list_elem_of_fmap. eauto. }
    apply list_elem_of_fmap in Hk as (g & Hg & Hin).
    exists g. split_and!; [done | done |].
    intros g' Hg' Hk'. eapply NoDup_map_inj_on; eauto. congruence.
  - intros g Hg. by apply (group_of_bucket _ _ _ _ H Hg).
  - change (map (fun g => members (group_key g) trades) groups)
      with (map ((fun k => members k trades) ∘ group_key) groups).
    rewrite list_fmap_compose. apply partition_concat; [done |].
    intros t Ht. apply Hkeys. apply list_elem_of_fmap. eauto.
  - intros trades' groups' Hperm H'.
    destruct (group_keys_spec _ _ _ H') as [Hnd' Hkeys'].
    apply NoDup_Permutation; [done | done |].
    intros k. rewrite Hkeys, Hkeys'. by rewrite Hperm.
Qed.

Lemma group_trades_partition_witness :
  Pnl.group_trades Std.env c2_trades = OK c2_groups
  /\ map group_key c2_groups = [("0xB", "No"); ("0xA", "Yes"); ("0xA", "No")]
  /\ NoDup (map group_key c2_groups).
Proof.
  split; [vm_compute; reflexivity |].
  split; [reflexivity |].
  apply (group_trades_partition Std.env c2_trades c2_groups).
  vm_compute. reflexivity.
Defined.

(* ===================================================================== *)
(** ** C3: the aggregates of a group *)
(* ===================================================================== *)

(** C3.  For every group [g] that [group_trades] returns, with [buys] the
    BUY trades among the input trades that carry the key of [g]:
    [avg_buy_price] is 0 when there is no BUY member, and otherwise it is
    the quotient of the summed [price * size] by the summed [size] of the
    BUY members wherever that quotient exists (a zero divisor gives 0);
    [total_bought] is the summed [price * size] of the BUY members; [pnl]
    is the sum of [trade_pnl] over all members.  One BUY of 100 at 0.40 and
    one SELL of 100 at 0.60 with 200 bps give 0.40, 40.00 and 18.80. *)
Theorem group_aggregates :
  (forall E (trades : list Trade) (groups : list TradeGroup) (g : TradeGroup),
     Pnl.group_trades E trades = OK groups -> g ∈ groups ->
     let buys := buy_members (group_key g) trades in
     let total_size := Dec.sum (map size buys) in
     let total_value := Dec.sum (map (fun t => price t * size t)%dec buys) in
     (buys = [] -> avg_buy_price g = Dec.zero)
     /\ (buys <> [] ->
         forall q, Dec.div total_value total_size = Some q -> avg_buy_price g = q)
     /\ (buys <> [] -> Dec.is_zero total_size = true -> avg_buy_price g = Dec.zero)
     /\ total_bought g = total_value
     /\ pnl g = Dec.sum (map Pnl.trade_pnl (members (group_key g) trades)))
  /\ (exists g,
        Pnl.group_trades Std.env [c3_buy; c3_sell] = OK [g]
        /\ Dec.eqb (avg_buy_price g) (Dec.lit 40 2) = true
        /\ Dec.eqb (total_bought g) (Dec.lit 4000 2) = true
        /\ Dec.eqb (pnl g) (Dec.lit 1880 2) = true).
Proof.
  split.
  - intros E trades groups g H Hg buys total_size total_value.
    destruct (group_of_bucket _ _ _ _ H Hg) as [_ Hmk].
    unfold Pnl.make_group in Hmk. bind_ok Hmk tlast Hlast.
    fold (buy_members (group_key g) trades) in Hmk. fold buys in Hmk.
    fold total_size total_value in Hmk.
    destruct buys as [|b buys'] eqn:Hbuys.
    + bind_ok Hmk tfirst Hfirst. injection Hmk as <-. simpl.
      split_and!; done.
    + bind_ok Hmk tfirst Hfirst. injection Hmk as <-. simpl.
      split_and!; try done.
      * intros _ q. unfold Dec.div. destruct (Dec.is_zero total_size); congruence.
      * intros _ ->. done.
  - eexists. split; [vm_compute; reflexivity |]. split_and!; vm_compute; reflexivity.
Qed.

Lemma group_aggregates_witness :
  exists g, c3_groups = [g]
    /\ pnl g = Dec.sum (map Pnl.trade_pnl (members (group_key g) [c3_buy; c3_sell]))
    /\ avg_buy_price g = Dec.lit 40 2.
Proof.
  eexists. split; [reflexivity |]. split; [| reflexivity].
  apply (proj1 group_aggregates Std.env [c3_buy; c3_sell] c3_groups).
  - vm_compute. reflexivity.
  - left.
Defined.

(* ===================================================================== *)
(** ** C4: redemption reconciliation *)
(* ===================================================================== *)

Lemma redeem_total_payout E rs total :
  Account.redeem_total E rs = OK total -> payout E rs total.
Proof.
  unfold Account.redeem_total. intros H.
  apply fmap_OK in H as (amounts & H & ->). exists amounts. split; [| done].
  apply mapM_OK_Forall2 in H. eapply Forall2_impl; [exact H |].
  intros r d Hr. by apply decimal_field_OK.
Qed.

Lemma timestamp_OK E r z :
  Account.timestamp E r = OK z ->
  exists s, r !! "timestamp" = Some s /\ Py.int_of_str E s = Some z.
Proof.
  unfold Account.timestamp. intros H. bind_ok H s Hs.
  apply getitem_OK in Hs. apply or_raise_OK in H. eauto.
Qed.

Lemma timestamps_latest E rs latest :
  mapM (Account.timestamp E) rs ≫= Py.max_int = OK latest ->
  latest_timestamp E rs latest.
Proof.
  intros H. bind_ok H times Htimes. apply max_int_OK in H as [Hin Hmax]. split.
  - destruct (mapM_OK_elem_r _ _ _ _ Htimes Hin) as (r & Hr & Hz).
    apply timestamp_OK in Hz as (s & Hs & Hz). eauto.
  - intros r Hr. destruct (mapM_OK_elem _ _ _ _ Htimes Hr) as (z & Hz & Hrz).
    apply timestamp_OK in Hrz as (s & Hs & Hsz). exists s, z. auto.
Qed.

Lemma reconciled_added E rs g g' :
  reconciled E rs g g' -> redemptions_added E rs g g'.
Proof.
  unfold reconciled, redemptions_added. destruct rs as [|r rs]; [done |].
  intros (total & latest & old & Htotal & Hlatest & Hold & ->).
  exists total, latest, old. apply or_raise_OK in Hold.
  split_and!; try done; [by apply redeem_total_payout | by apply timestamps_latest].
Qed.

(** C4.  Whenever [get_trade_groups] returns, its result rearranges the
    groups of the TRADE activities, each with the redemptions of its
    market added, followed by the synthesized groups.  A group whose
    market has REDEEM activities gets the sum of their [usdcSize] added to
    its [pnl], and the later of its own time and the latest redemption
    timestamp as [last_match_time]; its other fields stay, and a group
    whose market has no REDEEM activity is unchanged.  For every market
    with REDEEM activities and no group there is exactly one group in the
    result: its outcome is the sentinel, its [avg_buy_price] and
    [total_bought] are 0 and its [pnl] is the sum of the [usdcSize] of the
    REDEEM activities of the market; nothing else is synthesized. *)
Theorem redemption_reconciliation E (activities : list Account.record)
    (result : list TradeGroup) :
  Account.get_trade_groups E activities = OK result ->
  exists trades groups augmented redeem_only,
    Account.trade_activities E activities = OK trades
    /\ Pnl.group_trades E trades = OK groups
    /\ result ≡ₚ (augmented ++ redeem_only)%list
    /\ Forall2
         (fun g g' => redemptions_added E (redeems_of (g_market g) activities) g g')
         groups augmented
    /\ (forall cid,
          redeems_of cid activities <> [] -> cid ∉ map g_market groups ->
          exists g',
            filter (fun g => g_market g = cid) result = [g']
            /\ g' ∈ redeem_only
            /\ g_outcome g' = Account.unknown_outcome
            /\ avg_buy_price g' = Dec.of_Z 0
            /\ total_bought g' = Dec.of_Z 0
            /\ payout E (redeems_of cid activities) (pnl g'))
    /\ (forall g', g' ∈ redeem_only ->
          redeems_of (g_market g') activities <> []
          /\ g_market g' ∉ map g_market groups).
Proof.
  intros H.
  apply get_trade_groups_OK in H
    as (trades & groups & redeems & augmented & redeem_only
        & Htrades & Hgroups & Hredeems & Haug & Hro & Hperm & _).
  exists trades, groups, augmented, redeem_only.
  destruct (reconciled_market _ _ _ _ _ Hredeems Haug) as [Hrec Hmk].
  destruct (group_redeems_OK _ _ Hredeems) as [Hnd Hin].
  pose proof (redeem_only_markets _ _ _ Hro) as Hromk.
  set (grouped := list_to_set (map g_market groups) : gset string) in *.
  set (crs := filter (fun cr => fst cr ∉ grouped) redeems) in *.
  assert (NoDup (map fst crs)) as Hndc.
  { eapply sublist_NoDup; [exact Hnd |]. apply fmap_sublist, sublist_filter. }
  split_and!; [done | done | done | | |].
  - eapply Forall2_impl; [exact Hrec |]. intros g g'. apply reconciled_added.
  - intros cid Hne Hnot.
    assert ((cid, redeems_of cid activities) ∈ crs) as Hcr.
    { apply list_elem_of_filter. split; [| by apply Hin].
      simpl. unfold grouped. by rewrite elem_of_list_to_set. }
    destruct (mapM_OK_elem _ _ _ _ Hro Hcr) as (g' & Hg' & Hmk'). simpl in Hmk'.
    apply redeem_only_group_OK in Hmk' as (Hm & Ho & Ha & Ht & Hp).
    apply redeem_total_payout in Hp.
    exists g'. split_and!; try done.
    apply Permutation_singleton_r. rewrite Hperm, filter_app.
    rewrite (filter_none _ augmented).
    + simpl. subst cid. rewrite (filter_unique g_market redeem_only g'); [done | | done].
      by rewrite Hromk.
    + intros g Hg Hm'. apply Hnot. rewrite <- Hmk, <- Hm'.
      apply list_elem_of_fmap. eauto.
  - intros g' Hg'.
    destruct (mapM_OK_elem_r _ _ _ _ Hro Hg') as ([cid rs] & Hcr & Hmk').
    simpl in Hmk'. apply redeem_only_group_OK in Hmk' as (-> & _).
    apply list_elem_of_filter in Hcr as [Hnot Hcr]. simpl in Hnot.
    apply Hin in Hcr as [-> Hne]. split; [done |].
    unfold grouped in Hnot. by rewrite elem_of_list_to_set in Hnot.
Qed.

Lemma redemption_reconciliation_witness :
  map (fun g => (g_market g, last_match_time g)) c4_groups
    = [("0xA", "500"); ("0xB", "300"); ("0xC", "50")]
  /\ Forall2 (fun g v => Dec.eqb (pnl g) v = true) c4_groups
       [Dec.of_Z 60; Dec.of_Z 25; Dec.of_Z (-5)]
  /\ (exists g',
        filter (fun g => g_market g = "0xB") c4_groups = [g']
        /\ payout Std.env (redeems_of "0xB" c4_activities) (pnl g')
        /\ Dec.eqb (pnl g') (Dec.of_Z 10 + Dec.of_Z 15)%dec = true)
  /\ exists trades groups augmented redeem_only,
       Account.trade_activities Std.env c4_activities = OK trades
       /\ Pnl.group_trades Std.env trades = OK groups
       /\ c4_groups ≡ₚ (augmented ++ redeem_only)%list
       /\ Forall2
            (fun g g' =>
               redemptions_added Std.env (redeems_of (g_market g) c4_activities) g g')
            groups augmented.
Proof.
  destruct (redemption_reconciliation Std.env c4_activities c4_groups)
    as (trades & groups & augmented & redeem_only & H1 & H2 & H3 & H4 & H5 & _).
  { vm_compute. reflexivity. }
  split_and!.
  - reflexivity.
  - repeat constructor.
  - destruct (H5 "0xB") as (g' & Hg' & _ & _ & _ & _ & Hp).
    + intros Hnil. apply (f_equal length) in Hnil. vm_compute in Hnil.
      discriminate Hnil.
    + vm_compute in H1. injection H1 as <-.
      vm_compute in H2. injection H2 as <-.
      cbn [map g_market]. intros Hin.
      repeat (apply elem_of_cons in Hin as [Hin|Hin]; [discriminate Hin |]).
      by apply elem_of_nil in Hin.
    + exists g'. split_and!; [done | done |].
      vm_compute in Hg'. injection Hg' as <-. vm_compute. reflexivity.
  - exists trades, groups, augmented, redeem_only. done.
Defined.

(* ===================================================================== *)
(** ** C5: a REDEEM activity as a Trade *)
(* ===================================================================== *)

(** C5.  The Trades [_activities_as_trades] returns for a feed are those
    of its records, in order.  A REDEEM record whose [size] is a non-zero
    number [sz], with [usdcSize] a number [usdc] and its hash, market and
    timestamp present, yields exactly one Trade: side SELL, size [sz], price
    [usdc / sz].  A REDEEM record whose [size] is zero yields no Trade.  A
    REDEEM of usdcSize 50 and size 100 is a SELL of 100 at 0.50. *)
Theorem redeem_as_sell :
  (forall E xs ys,
     Account._activities_as_trades E (xs ++ ys) =
       txs ← Account._activities_as_trades E xs;
       tys ← Account._activities_as_trades E ys;
       OK (txs ++ tys)%list)
  /\ (forall E (a : Account.record) sz usdc h cid ts,
        a !! "type" = Some "REDEEM" ->
        Account.getitem a "size" ≫= Account.to_Decimal E = OK sz ->
        Dec.is_zero sz = false ->
        Account.getitem a "usdcSize" ≫= Account.to_Decimal E = OK usdc ->
        a !! "transactionHash" = Some h ->
        a !! "conditionId" = Some cid ->
        a !! "timestamp" = Some ts ->
        exists q t,
          Dec.div usdc sz = Some q
          /\ Account._activities_as_trades E [a] = OK [t]
          /\ side t = "SELL" /\ size t = sz /\ price t = q
          /\ market t = cid /\ match_time t = ts /\ fee_rate_bps t = Dec.of_Z 0)
  /\ (forall E (a : Account.record) sz,
        a !! "type" = Some "REDEEM" ->
        Account.getitem a "size" ≫= Account.to_Decimal E = OK sz ->
        Dec.is_zero sz = true ->
        Account._activities_as_trades E [a] = OK [])
  /\ (exists t,
        Account._activities_as_trades Std.env [c5_redeem] = OK [t]
        /\ side t = "SELL"
        /\ Dec.eqb (size t) (Dec.of_Z 100) = true
        /\ Dec.eqb (price t) (Dec.lit 50 2) = true).
Proof.
  split_and!.
  - apply _activities_as_trades_app.
  - intros E a sz usdc h cid ts Hty Hsz Hnz Husdc Hh Hcid Hts.
    exists (Dec.quot usdc sz). eexists.
    split; [unfold Dec.div; by rewrite Hnz |].
    assert (Account.getitem a "type" = OK "REDEEM") as Hty'
      by (unfold Account.getitem; by rewrite Hty).
    unfold Account._activities_as_trades, Account._activities_as_trades_step. simpl.
    rewrite Hty'. simpl. rewrite Hsz. simpl. rewrite Hnz, Husdc. simpl.
    unfold Account.getitem. rewrite Hh, Hcid, Hts. simpl.
    split; [reflexivity |]. done.
  - intros E a sz Hty Hsz Hz.
    assert (Account.getitem a "type" = OK "REDEEM") as Hty'
      by (unfold Account.getitem; by rewrite Hty).
    unfold Account._activities_as_trades, Account._activities_as_trades_step. simpl.
    rewrite Hty'. simpl. rewrite Hsz. simpl. by rewrite Hz.
  - eexists. split; [vm_compute; reflexivity |]. split_and!; vm_compute; reflexivity.
Qed.

Lemma redeem_as_sell_witness :
  exists q t,
    Dec.div (Dec.of_Z 50) (Dec.of_Z 100) = Some q
    /\ Account._activities_as_trades Std.env [c5_redeem] = OK [t]
    /\ side t = "SELL" /\ size t = Dec.of_Z 100 /\ price t = q
    /\ market t = "0xA" /\ match_time t = "700" /\ fee_rate_bps t = Dec.of_Z 0.
Proof.
  apply (proj1 (proj2 redeem_as_sell) Std.env c5_redeem
           (Dec.of_Z 100) (Dec.of_Z 50) "0x2" "0xA" "700");
    vm_compute; reflexivity.
Defined.

(* ===================================================================== *)
(** ** C6: when a position exists *)
(* ===================================================================== *)

(** C6.  Every Position that [get_open_positions] returns has
    [net_shares] strictly above 0, equal to the summed BUY sizes minus the
    summed SELL sizes of the TRADE activities of its (market, outcome); its
    market has no REDEEM activity in the feed; and [current_price] times
    [net_shares] is strictly above 0.01.  A holding of 5 shares priced
    0.001 is left out, priced 0.01 it is returned. *)
Theorem open_position_conditions :
  (forall E activities markets positions p,
     Account.get_open_positions E activities markets = OK positions ->
     p ∈ positions ->
     let fills := fills_of (p_market p, p_outcome p) activities in
     Dec.ltb (Dec.of_Z 0) (net_shares p) = true
     /\ (exists buy_sizes sell_sizes,
           mapM (Account.size_of E) (on_side "BUY" fills) = OK buy_sizes
           /\ mapM (Account.size_of E) (on_side "SELL" fills) = OK sell_sizes
           /\ net_shares p = (Dec.sum buy_sizes - Dec.sum sell_sizes)%dec)
     /\ ~ redeemed_in activities (p_market p)
     /\ Dec.ltb Account.dust (current_price p * net_shares p)%dec = true)
  /\ Account.get_open_positions Std.env c6_activities (c6_markets "0.001" "0.999")
     = OK []
  /\ (exists p,
        Account.get_open_positions Std.env c6_activities (c6_markets "0.01" "0.99")
          = OK [p]
        /\ Dec.eqb (net_shares p) (Dec.of_Z 5) = true
        /\ Dec.eqb (current_price p) (Dec.lit 1 2) = true
        /\ Dec.eqb (current_price p * net_shares p)%dec (Dec.lit 5 2) = true).
Proof.
  split_and!.
  - intros E activities markets positions p H Hp fills.
    unfold Account.get_open_positions in H. bind_ok H raw Hraw.
    injection H as <-.
    apply list_elem_of_omap in Hp as (r & Hr & Hpos).
    apply position_of_Some in Hpos as (Hm & Ho & Hn & _ & Hdust).
    destruct (open_raw_OK _ _ _ _ Hraw Hr) as (redeemed & meta & key & Hred & _ & Hentry).
    apply open_raw_entry_OK in Hentry
      as (Hnot & Hcid & Hout & bs & ss & Hbs & Hss & Hnet & Hpos).
    assert (key = (p_market p, p_outcome p)) as Hkey.
    { destruct key. simpl in *. congruence. }
    subst key. fold fills in Hbs, Hss. split_and!.
    + apply leb_false_ltb. by rewrite Hn.
    + exists bs, ss. split_and!; [done | done | congruence].
    + intros Hredeemed. apply Hnot, Hred. done.
    + by apply leb_false_ltb.
  - vm_compute. reflexivity.
  - eexists. split; [vm_compute; reflexivity |]. split_and!; vm_compute; reflexivity.
Qed.

Lemma open_position_conditions_witness :
  length c6_positions = 1%nat
  /\ Forall (fun p =>
               Dec.ltb (Dec.of_Z 0) (net_shares p) = true
               /\ ~ redeemed_in c6_activities (p_market p)
               /\ Dec.ltb Account.dust (current_price p * net_shares p)%dec = true)
       c6_positions.
Proof.
  split; [reflexivity |].
  apply Forall_forall. intros p Hp.
  destruct (proj1 open_position_conditions Std.env c6_activities
              (c6_markets "0.01" "0.99") c6_positions p)
    as (H1 & _ & H3 & H4).
  - vm_compute. reflexivity.
  - exact Hp.
  - done.
Defined.

(* ===================================================================== *)
(** ** C7: newest first *)
(* ===================================================================== *)

(** C7.  The groups [group_trades] returns, and the groups
    [get_trade_groups] returns, are in descending order of
    [int(last_match_time)].  Groups with times 100, 300, 200 come out as
    300, 200, 100, from either function; the order is that of the integers,
    not of the strings: 9 and 10 come out as 10, 9. *)
Theorem trade_groups_newest_first :
  (forall E trades groups,
     Pnl.group_trades E trades = OK groups ->
     exists ks, mapM (fun g => Pnl.int E (last_match_time g)) groups = OK ks
                /\ descending ks)
  /\ (forall E activities groups,
        Account.get_trade_groups E activities = OK groups ->
        exists ks, mapM (fun g => Pnl.int E (last_match_time g)) groups = OK ks
                   /\ descending ks)
  /\ (exists groups,
        Pnl.group_trades Std.env c7_trades = OK groups
        /\ map last_match_time groups = ["300"; "200"; "100"])
  /\ (exists groups,
        Account.get_trade_groups Std.env c7_activities = OK groups
        /\ map last_match_time groups = ["300"; "200"; "100"])
  /\ (exists groups,
        Pnl.group_trades Std.env
          [ a_fill "0xA" "Yes" "BUY" (Dec.of_Z 1) (Dec.lit 5 1) (Dec.of_Z 0) "9";
            a_fill "0xB" "Yes" "BUY" (Dec.of_Z 1) (Dec.lit 5 1) (Dec.of_Z 0) "10" ]
          = OK groups
        /\ map last_match_time groups = ["10"; "9"]).
Proof.
  split_and!.
  - intros E trades groups H.
    by apply group_trades_OK in H as (gs & _ & _ & Hsorted).
  - intros E activities groups H.
    apply get_trade_groups_OK in H
      as (? & ? & ? & ? & ? & _ & _ & _ & _ & _ & _ & Hsorted).
    done.
  - eexists. split; vm_compute; reflexivity.
  - eexists. split; vm_compute; reflexivity.
  - eexists. split; vm_compute; reflexivity.
Qed.

Lemma trade_groups_newest_first_witness :
  exists ks,
    mapM (fun g => Pnl.int Std.env (last_match_time g)) c7_groups = OK ks
    /\ descending ks.
Proof.
  apply (proj1 (proj2 trade_groups_newest_first) Std.env c7_activities c7_groups).
  vm_compute. reflexivity.
Defined.

(* ===================================================================== *)
(** ** C8: the current-price lookup *)
(* ===================================================================== *)

(** C8.  With [outcomes] and [prices] the decoded arrays of the record:
    the lookup returns [Decimal(str(prices[i]))] for the first index [i]
    whose outcome name equals the wanted one after [strip().lower()] on
    both sides.  It returns exactly 0 whenever the lookup fails: when an
    array cannot be decoded or iterated, when no name matches, when the
    price at that index is missing or rejected by [Decimal(...)], and for
    the empty record that stands for a missing market.  No such failure
    is raised out of [get_open_positions]: the entry is skipped as dust,
    and when the lookup fails for every entry the result is the empty
    list. *)
Theorem price_lookup_absorbs_failures :
  (forall E (info : Account.market_info) outcome outcomes prices items i o d,
     Account.decode E (default (Py.JScalar (Py.SStr "[]")) (info !! "outcomes"))
       = OK outcomes ->
     Account.decode E (default (Py.JScalar (Py.SStr "[]")) (info !! "outcomePrices"))
       = OK prices ->
     Account.iterate outcomes = OK items ->
     list_find (matches E outcome) items = Some (i, o) ->
     price_at E prices i = OK d ->
     Account._current_price_for_outcome E info outcome = d)
  /\ (forall E (info : Account.market_info) outcome,
        lookup_fails E info outcome ->
        Account._current_price_for_outcome E info outcome = Dec.zero)
  /\ (forall E outcome, lookup_fails E ∅ outcome)
  /\ (forall E (mp : gmap string Account.market_info) (r : Account.OpenRaw),
        lookup_fails E (default ∅ (mp !! Account.or_conditionId r))
          (Account.or_outcome r) ->
        Account.position_of E mp r = None)
  /\ (forall E activities markets raw,
        Account.open_raw E activities = OK raw ->
        (forall r, r ∈ raw ->
           lookup_fails E
             (default ∅ (Account.market_map markets !! Account.or_conditionId r))
             (Account.or_outcome r)) ->
        Account.get_open_positions E activities markets = OK [])
  /\ (Dec.eqb (Account._current_price_for_outcome Std.env c8_info "  YES ")
              (Dec.lit 65 2) = true
      /\ Account._current_price_for_outcome Std.env c8_info "Maybe" = Dec.zero).
Proof.
  split_and!.
  - intros E info outcome outcomes prices items i o d Ho Hp Hi Hfind Hd.
    unfold Account._current_price_for_outcome, Account.price_lookup.
    rewrite Ho, Hp. simpl. rewrite Hi. simpl. rewrite scan_outcomes_find. simpl.
    rewrite Hfind, Nat.add_0_l || rewrite Hfind. by rewrite Hd.
  - intros E info outcome. apply lookup_fails_zero.
  - intros E outcome. unfold lookup_fails. rewrite !lookup_empty. simpl.
    do 3 right. exists (Py.JList []), (Py.JList []), [].
    rewrite Py.json_loads_empty. done.
  - intros E mp r H. by apply position_of_zero_price, lookup_fails_zero.
  - intros E activities markets raw Hraw Hall. unfold Account.get_open_positions.
    rewrite Hraw. simpl. f_equal. clear Hraw.
    induction raw as [|r raw IH]; [done |]. simpl.
    rewrite (position_of_zero_price E _ r)
      by (apply lookup_fails_zero, Hall; left).
    apply IH. intros r' Hr'. apply Hall. by right.
  - vm_compute. reflexivity.
  - vm_compute. reflexivity.
Qed.

Lemma price_lookup_absorbs_failures_witness :
  Account._current_price_for_outcome Std.env c8_info "no " = Dec.lit 35 2
  /\ Account.get_open_positions Std.env c6_activities (c6_markets "n/a" "0.5") = OK [].
Proof.
  destruct price_lookup_absorbs_failures as (Hfound & _ & _ & _ & Hnone & _).
  split.
  - apply (Hfound Std.env c8_info "no "
             (Py.JList [Py.SStr "Yes"; Py.SStr "No"])
             (Py.JList [Py.SStr "0.65"; Py.SStr "0.35"])
             [Py.SStr "Yes"; Py.SStr "No"] 1%nat (Py.SStr "No"));
      vm_compute; reflexivity.
  - eapply (Hnone Std.env c6_activities); [vm_compute; reflexivity |].
    intros r Hr. apply list_elem_of_singleton in Hr as ->.
    do 3 right.
    exists (Py.JList [Py.SStr "Yes"; Py.SStr "No"]),
      (Py.JList [Py.SStr "n/a"; Py.SStr "0.5"]), [Py.SStr "Yes"; Py.SStr "No"].
    split_and!; [vm_compute; reflexivity ..|].
    right. exists (Py.SStr "n/a").
    split; [reflexivity | split; vm_compute; reflexivity].
Defined.

(* ===================================================================== *)
(** ** C9: a malformed numeric field fails the call *)
(* ===================================================================== *)

Lemma raw_getitem_OK (a : Raw.record) k v :
  Raw.getitem a k = OK v <-> a !! k = Some v.
Proof. apply or_raise_OK. Qed.

Lemma raw_getitem_Raise (t : Raw.record) k e :
  Raw.getitem t k = Raise e -> e = KeyError k /\ t !! k = None.
Proof. unfold Raw.getitem. destruct (t !! k); simpl; [done |]. by intros [= <-]. Qed.

Lemma Decimal_of_text_Raise E s e :
  Raw.Decimal_of_text E s = Raise e -> e = InvalidOperation /\ rejected E s.
Proof.
  unfold Raw.Decimal_of_text, rejected.
  destruct (Py.Decimal_of_str E s); [done |].
  destruct (Py.Decimal_special E s); [done |]. by intros [= <-].
Qed.

Lemma Decimal_of_text_rejected E s :
  rejected E s -> Raw.Decimal_of_text E s = Raise InvalidOperation.
Proof. intros [H1 H2]. unfold Raw.Decimal_of_text. by rewrite H1, H2. Qed.

Lemma unusable_Raise E (t : Raw.record) f :
  unusable E t f -> exists e, Raw.getitem t f ≫= Raw.Decimal E = Raise e.
Proof.
  unfold Raw.getitem. intros [->|[->|(s & -> & Hs)]]; simpl; [eauto | eauto |].
  rewrite (Decimal_of_text_rejected _ _ Hs). eauto.
Qed.

Lemma fill_field_Raise E (t : Raw.record) k e :
  Raw.getitem t k ≫= Raw.Decimal E = Raise e -> fill_error E t e.
Proof.
  unfold Raw.getitem. destruct (t !! k) as [v|] eqn:Hk; simpl.
  - destruct v as [|b|z|r [x|]|s]; simpl; try done.
    + intros [= <-]. right. left. eauto.
    + intros [-> Hs]%Decimal_of_text_Raise. right. right. eauto.
  - intros [= <-]. left. eauto.
Qed.

Lemma unusable_text_Raise E (a : Raw.record) f :
  unusable_text E a f -> exists e, Raw.Decimal_of_field E a f = Raise e.
Proof.
  unfold Raw.Decimal_of_field, Raw.getitem.
  intros [->|(v & -> & Hv)]; simpl; [eauto |].
  rewrite (Decimal_of_text_rejected _ _ Hv). eauto.
Qed.

Lemma activity_field_Raise E (a : Raw.record) k e :
  Raw.Decimal_of_field E a k = Raise e -> activity_error E a e.
Proof.
  unfold Raw.Decimal_of_field, Raw.getitem. destruct (a !! k) as [v|] eqn:Hk; simpl.
  - intros [-> Hs]%Decimal_of_text_Raise. right. left. eauto.
  - intros [= <-]. left. eauto.
Qed.

Lemma category_Raise E (a : Raw.record) e :
  Raw.getitem a "slug" ≫= Raw._category_from_slug = Raise e -> activity_error E a e.
Proof.
  unfold Raw.getitem. destruct (a !! "slug") as [v|] eqn:Hk; simpl.
  - unfold Raw._category_from_slug. destruct (Raw.truthy v); [| done].
    destruct v; try done; intros [= <-]; right; right;
      (split; [done |]); eexists; (split; [done |]); done.
  - intros [= <-]. left. eauto.
Qed.

(** Case analysis on the next field read of a chain of binds. *)
Ltac next_raw_field H :=
  match type of H with
  | (Raw.getitem ?t ?k ≫= Raw.Decimal ?E) ≫= _ = Raise _ =>
      let Hf := fresh "Hf" in
      destruct (Raw.getitem t k ≫= Raw.Decimal E) eqn:Hf;
        [simpl in H | simpl in H; injection H as <-; by eapply fill_field_Raise]
  | Raw.Decimal_of_field ?E ?t ?k ≫= _ = Raise _ =>
      let Hf := fresh "Hf" in
      destruct (Raw.Decimal_of_field E t k) eqn:Hf;
        [simpl in H | simpl in H; injection H as <-; by eapply activity_field_Raise]
  | (Raw.getitem ?t ?k ≫= Raw._category_from_slug) ≫= _ = Raise _ =>
      let Hf := fresh "Hf" in
      destruct (Raw.getitem t k ≫= Raw._category_from_slug) eqn:Hf;
        [simpl in H | simpl in H; injection H as <-; by eapply category_Raise]
  | Raw.getitem ?t ?k ≫= _ = Raise _ =>
      let Hf := fresh "Hf" in
      destruct (Raw.getitem t k) eqn:Hf;
        [simpl in H | simpl in H; injection H as <-;
                      left; eexists; by apply raw_getitem_Raise in Hf]
  end.

Lemma raw_trade_of_fill_Raise E t e :
  Raw.trade_of_fill E t = Raise e -> fill_error E t e.
Proof.
  unfold Raw.trade_of_fill. intros H. repeat next_raw_field H. done.
Qed.

Lemma raw_trade_of_activity_Raise E a e :
  Raw.trade_of_activity E a = Raise e -> activity_error E a e.
Proof.
  unfold Raw.trade_of_activity. intros H. repeat next_raw_field H. done.
Qed.

Lemma raw_trade_of_fill_fails E t f :
  f ∈ ["size"; "price"; "fee_rate_bps"] -> unusable E t f ->
  exists e, Raw.trade_of_fill E t = Raise e.
Proof.
  intros Hf Hbad. apply unusable_Raise in Hbad.
  unfold Raw.trade_of_fill.
  do 4 (apply bind_Raise_any; intros ?).
  apply elem_of_cons in Hf as [->|Hf]; [by apply bind_Raise_l |].
  apply bind_Raise_any; intros ?.
  apply elem_of_cons in Hf as [->|Hf]; [by apply bind_Raise_l |].
  apply bind_Raise_any; intros ?.
  apply list_elem_of_singleton in Hf as ->. by apply bind_Raise_l.
Qed.

Lemma raw_trade_of_activity_fails E a f :
  f ∈ ["size"; "price"] -> unusable_text E a f ->
  exists e, Raw.trade_of_activity E a = Raise e.
Proof.
  intros Hf Hbad. apply unusable_text_Raise in Hbad.
  unfold Raw.trade_of_activity.
  do 3 (apply bind_Raise_any; intros ?).
  apply elem_of_cons in Hf as [->|Hf]; [by apply bind_Raise_l |].
  apply bind_Raise_any; intros ?.
  apply list_elem_of_singleton in Hf as ->. by apply bind_Raise_l.
Qed.

Lemma fill_field_OK E (t : Raw.record) f x :
  Raw.getitem t f ≫= Raw.Decimal E = OK x -> converted E t f x.
Proof. intros H. bind_ok H v Hv. apply raw_getitem_OK in Hv. by exists v. Qed.

Lemma activity_field_OK E (a : Raw.record) f x :
  Raw.Decimal_of_field E a f = OK x -> converted_text E a f x.
Proof.
  unfold Raw.Decimal_of_field. intros H. bind_ok H v Hv.
  apply raw_getitem_OK in Hv. by exists v.
Qed.

Lemma raw_trade_of_fill_OK E t tr :
  Raw.trade_of_fill E t = OK tr ->
  converted E t "size" (Raw.size tr) /\ converted E t "price" (Raw.price tr)
  /\ converted E t "fee_rate_bps" (Raw.fee_rate_bps tr).
Proof.
  unfold Raw.trade_of_fill. intros H.
  bind_ok H x1 H1. bind_ok H x2 H2. bind_ok H x3 H3. bind_ok H x4 H4.
  bind_ok H sz Hsz. bind_ok H pr Hpr. bind_ok H fee Hfee.
  bind_ok H x8 H8. bind_ok H x9 H9. bind_ok H x10 H10.
  bind_ok H x11 H11. bind_ok H x12 H12. injection H as <-. simpl.
  split_and!; by apply fill_field_OK.
Qed.

Lemma raw_trade_of_activity_OK E a tr :
  Raw.trade_of_activity E a = OK tr ->
  converted_text E a "size" (Raw.size tr)
  /\ converted_text E a "price" (Raw.price tr).
Proof.
  unfold Raw.trade_of_activity. intros H.
  bind_ok H x1 H1. bind_ok H x2 H2. bind_ok H x4 H4.
  bind_ok H sz Hsz. bind_ok H pr Hpr.
  bind_ok H x8 H8. bind_ok H x9 H9. bind_ok H x10 H10.
  bind_ok H x11 H11. bind_ok H x12 H12. injection H as <-. simpl.
  split; by apply activity_field_OK.
Qed.

Lemma raw_trade_activities_step_acc E (acc : list Raw.Trade) (a : Raw.record) :
  Raw.trade_activities_step E acc a =
    (fun ts => acc ++ ts)%list <$> Raw.trade_activities_step E [] a.
Proof.
  unfold Raw.trade_activities_step.
  destruct (Raw.getitem a "type") as [ty|e0]; simpl; [| done].
  destruct (Raw.equals ty "TRADE"); [| simpl; by rewrite app_nil_r].
  destruct (Raw.trade_of_activity E a); simpl; done.
Qed.

Lemma raw_equals_spec (v : Raw.json) s :
  Raw.equals v s = true <-> v = Raw.JStr s.
Proof.
  destruct v; simpl; try (split; [discriminate | discriminate]).
  rewrite bool_decide_eq_true. split; [by intros -> | by intros [= ->]].
Qed.

(** The first loop of [get_trade_groups] converts every TRADE activity,
    in order, and nothing else. *)
Lemma raw_trade_activities_OK E activities trades :
  Raw.trade_activities E activities = OK trades ->
  mapM (Raw.trade_of_activity E) (raw_trades_of activities) = OK trades.
Proof.
  unfold Raw.trade_activities. revert trades.
  induction activities as [|a acts IH]; intros trades; simpl.
  - intros [= <-]. done.
  - intros H. bind_ok H ts Hts.
    rewrite for_each_emit in H by apply raw_trade_activities_step_acc.
    apply fmap_OK in H as (ts' & Hts' & ->). specialize (IH _ Hts').
    unfold Raw.trade_activities_step in Hts. bind_ok Hts ty Hty.
    apply raw_getitem_OK in Hty. unfold raw_trades_of. rewrite filter_cons.
    destruct (Raw.equals ty "TRADE") eqn:Heq.
    + apply raw_equals_spec in Heq as ->. bind_ok Hts t Ht. injection Hts as <-.
      rewrite decide_True by done. simpl. rewrite Ht. simpl.
      fold (raw_trades_of acts). by rewrite IH.
    + injection Hts as <-. rewrite decide_False; [done |].
      intros Hty'. rewrite Hty in Hty'. injection Hty' as ->.
      apply not_true_iff_false in Heq. apply Heq. by apply raw_equals_spec.
Qed.

Lemma raw_trade_activities_Raise E activities s e :
  Py.for_each (Raw.trade_activities_step E) activities s = Raise e ->
  exists a, a ∈ activities /\ activity_error E a e.
Proof.
  revert s. induction activities as [|a acts IH]; intros s; simpl; [discriminate |].
  destruct (Raw.trade_activities_step E s a) as [s'|e'] eqn:Hstep; simpl.
  - intros H. destruct (IH _ H) as (a' & Hin & Herr). exists a'. split; [by right | done].
  - intros [= <-]. exists a. split; [left |].
    unfold Raw.trade_activities_step in Hstep.
    destruct (Raw.getitem a "type") as [ty|e0] eqn:Hty; simpl in Hstep.
    + destruct (Raw.equals ty "TRADE"); [| done].
      destruct (Raw.trade_of_activity E a) eqn:Ht; simpl in Hstep; [done |].
      injection Hstep as <-. by eapply raw_trade_of_activity_Raise.
    + injection Hstep as <-. left. eexists. by apply raw_getitem_Raise in Hty.
Qed.

(** *** The string-valued records *)

Lemma as_json_lookup (t : Account.record) k :
  as_json t !! k = Raw.JStr <$> (t !! k).
Proof. unfold as_json. apply lookup_fmap. Qed.

Lemma as_json_getitem (t : Account.record) k s :
  Account.getitem t k = OK s -> Raw.getitem (as_json t) k = OK (Raw.JStr s).
Proof.
  intros H. apply getitem_OK in H. unfold Raw.getitem.
  by rewrite as_json_lookup, H.
Qed.

Lemma as_json_Decimal E (t : Account.record) k d :
  Account.getitem t k ≫= Account.to_Decimal E = OK d ->
  Raw.getitem (as_json t) k ≫= Raw.Decimal E = OK (Raw.Finite d).
Proof.
  intros H. bind_ok H s Hs. apply or_raise_OK in H.
  rewrite (as_json_getitem _ _ _ Hs). simpl. unfold Raw.Decimal_of_text.
  by rewrite H.
Qed.

Lemma as_json_Decimal_of_field E (t : Account.record) k d :
  Account.getitem t k ≫= Account.to_Decimal E = OK d ->
  Raw.Decimal_of_field E (as_json t) k = OK (Raw.Finite d).
Proof.
  intros H. bind_ok H s Hs. apply or_raise_OK in H. unfold Raw.Decimal_of_field.
  rewrite (as_json_getitem _ _ _ Hs). simpl. unfold Raw.Decimal_of_text.
  by rewrite H.
Qed.

(** On a record of strings whose numbers are finite, the conversion of
    a raw fill is [Account.trade_of_fill]. *)
Lemma trade_of_fill_refines E t tr :
  Account.trade_of_fill E t = OK tr ->
  Raw.trade_of_fill E (as_json t) = OK (as_raw_trade tr).
Proof.
  unfold Account.trade_of_fill, Raw.trade_of_fill. intros H.
  bind_ok H x1 H1. bind_ok H x2 H2. bind_ok H x3 H3. bind_ok H x4 H4.
  bind_ok H sz Hsz. bind_ok H pr Hpr. bind_ok H fee Hfee.
  bind_ok H x8 H8. bind_ok H x9 H9. bind_ok H x10 H10.
  bind_ok H x11 H11. bind_ok H x12 H12. injection H as <-.
  rewrite (as_json_getitem _ _ _ H1), (as_json_getitem _ _ _ H2),
    (as_json_getitem _ _ _ H3), (as_json_getitem _ _ _ H4). cbn [mbind result_bind].
  rewrite (as_json_Decimal _ _ _ _ Hsz), (as_json_Decimal _ _ _ _ Hpr),
    (as_json_Decimal _ _ _ _ Hfee). cbn [mbind result_bind].
  rewrite (as_json_getitem _ _ _ H8), (as_json_getitem _ _ _ H9),
    (as_json_getitem _ _ _ H10), (as_json_getitem _ _ _ H11),
    (as_json_getitem _ _ _ H12). done.
Qed.

Lemma get_trades_refines E raw trades :
  Account.get_trades E raw = OK trades ->
  Raw.get_trades E (map as_json raw) = OK (map as_raw_trade trades).
Proof.
  unfold Account.get_trades, Raw.get_trades. intros H.
  apply mapM_OK_Forall2 in H. apply mapM_OK_Forall2.
  induction H as [|t tr ts trs Ht _ IH]; simpl; constructor; [| done].
  by apply trade_of_fill_refines.
Qed.

Lemma category_refines (slug : string) :
  Raw._category_from_slug (Raw.JStr slug) = OK (Account._category_from_slug slug).
Proof. by destruct slug. Qed.

Lemma trade_of_activity_refines E a tr :
  Account.trade_of_activity E true a = OK tr ->
  Raw.trade_of_activity E (as_json a) = OK (as_raw_trade tr).
Proof.
  unfold Account.trade_of_activity, Raw.trade_of_activity. intros H.
  bind_ok H x1 H1. bind_ok H x2 H2. bind_ok H x4 H4.
  bind_ok H sz Hsz. bind_ok H pr Hpr.
  bind_ok H x8 H8. bind_ok H x9 H9. bind_ok H x10 H10.
  bind_ok H x11 H11. bind_ok H x12 H12. injection H as <-.
  rewrite (as_json_getitem _ _ _ H1), (as_json_getitem _ _ _ H2),
    (as_json_getitem _ _ _ H4). cbn [mbind result_bind].
  rewrite (as_json_Decimal_of_field _ _ _ _ Hsz),
    (as_json_Decimal_of_field _ _ _ _ Hpr). cbn [mbind result_bind].
  rewrite (as_json_getitem _ _ _ H8), (as_json_getitem _ _ _ H9),
    (as_json_getitem _ _ _ H11), (as_json_getitem _ _ _ H12).
  cbn [mbind result_bind].
  rewrite category_refines. cbn [mbind result_bind].
  rewrite H1 in H10. injection H10 as <-.
  unfold as_raw_trade, Raw.get, Account.get. cbn.
  rewrite as_json_lookup. by destruct (a !! "asset").
Qed.

Lemma trade_activities_refines_from E activities (s s' : list Trade) :
  Py.for_each (Account.trade_activities_step E) activities s = OK s' ->
  Py.for_each (Raw.trade_activities_step E) (map as_json activities)
    (map as_raw_trade s) = OK (map as_raw_trade s').
Proof.
  revert s. induction activities as [|a acts IH]; intros s; simpl.
  - by intros [= <-].
  - intros H. bind_ok H s1 Hs1. rewrite <- (IH _ H). clear IH H.
    unfold Account.trade_activities_step in Hs1. bind_ok Hs1 ty Hty.
    unfold Raw.trade_activities_step.
    rewrite (as_json_getitem _ _ _ Hty). cbn [mbind result_bind Raw.equals].
    destruct (decide (ty = "TRADE")) as [->|Hne].
    + bind_ok Hs1 t Ht. injection Hs1 as <-.
      rewrite bool_decide_true by done.
      rewrite (trade_of_activity_refines _ _ _ Ht). cbn [mbind result_bind].
      by rewrite map_app.
    + injection Hs1 as <-. by rewrite bool_decide_false.
Qed.

(** On a feed of string-valued records whose numbers are finite, the
    first loop of [get_trade_groups] is [Account.trade_activities]. *)
Lemma trade_activities_refines E activities trades :
  Account.trade_activities E activities = OK trades ->
  Raw.trade_activities E (map as_json activities) = OK (map as_raw_trade trades).
Proof. apply (trade_activities_refines_from E activities []). Qed.

(** A raw fill with [size] the string "NaN", or the JSON value [true],
    is no number and is converted all the same; so is a TRADE activity
    whose [size] is "NaN". *)
Lemma malformed_record_fails_counterexample :
  ~ (forall E (raw_trades : list Raw.record) t f v,
       t ∈ raw_trades -> f ∈ ["size"; "price"; "fee_rate_bps"] ->
       t !! f = Some v -> ~ is_number E v ->
       exists e, Raw.get_trades E raw_trades = Raise e)
  /\ (exists tr,
        Raw.get_trades Std.env [c9_json_fill (Raw.JStr "NaN")] = OK [tr]
        /\ Raw.size tr = Raw.Special "NaN")
  /\ (exists tr,
        Raw.get_trades Std.env [c9_json_fill (Raw.JBool true)] = OK [tr]
        /\ Raw.size tr = Raw.Finite (Dec.of_Z 1))
  /\ (exists tr,
        Raw.trade_activities Std.env
          [as_json (trade_activity "0xA" "Yes" "BUY" "NaN" "0.5" "100")]
          = OK [tr]
        /\ Raw.size tr = Raw.Special "NaN").
Proof.
  split_and!.
  - intros H.
    destruct (H Std.env [c9_json_fill (Raw.JStr "NaN")]
                (c9_json_fill (Raw.JStr "NaN")) "size" (Raw.JStr "NaN"))
      as [e He].
    + left.
    + left.
    + vm_compute. reflexivity.
    + intros [d Hd]. vm_compute in Hd. discriminate Hd.
    + vm_compute in He. discriminate He.
  - eexists. split; vm_compute; reflexivity.
  - eexists. split; vm_compute; reflexivity.
  - eexists. split; vm_compute; reflexivity.
Qed.

(** C9, amended.  If a raw fill has [size], [price] or [fee_rate_bps]
    absent or rejected by [Decimal(...)], [get_trades] raises: the
    [KeyError] of a missing field, the [TypeError] of a numeric field that
    is [None] or the [InvalidOperation] of one that spells no number, of
    one of the records.  If a TRADE activity has [size] or [price] absent
    or rejected by [Decimal(str(...))], the first loop of
    [get_trade_groups] raises in the same way, and so does
    [get_trade_groups].  When a conversion returns, every record (every
    TRADE activity) has its Trade, in order, holding what [Decimal] made
    of its fields: none is skipped, none is given a default.  What
    [Decimal] accepts is taken as it is, also when it is not a number: a
    string that spells a NaN or an infinity and, in a raw fill, a JSON
    boolean, which counts as 1 or 0. *)
Theorem malformed_record_fails :
  (forall E (raw_trades : list Raw.record) t f,
     t ∈ raw_trades -> f ∈ ["size"; "price"; "fee_rate_bps"] ->
     unusable E t f ->
     exists e t',
       Raw.get_trades E raw_trades = Raise e
       /\ t' ∈ raw_trades /\ fill_error E t' e)
  /\ (forall E (raw_trades : list Raw.record) trades,
        Raw.get_trades E raw_trades = OK trades ->
        Forall2 (fun t tr =>
                   converted E t "size" (Raw.size tr)
                   /\ converted E t "price" (Raw.price tr)
                   /\ converted E t "fee_rate_bps" (Raw.fee_rate_bps tr))
          raw_trades trades)
  /\ (forall E (activities : list Raw.record) a f,
        a ∈ activities -> a !! "type" = Some (Raw.JStr "TRADE") ->
        f ∈ ["size"; "price"] -> unusable_text E a f ->
        exists e a',
          Raw.trade_activities E activities = Raise e
          /\ a' ∈ activities /\ activity_error E a' e)
  /\ (forall E (activities : list Raw.record) trades,
        Raw.trade_activities E activities = OK trades ->
        Forall2 (fun a tr =>
                   converted_text E a "size" (Raw.size tr)
                   /\ converted_text E a "price" (Raw.price tr))
          (raw_trades_of activities) trades)
  /\ (forall E (activities : list Account.record) e,
        Raw.trade_activities E (map as_json activities) = Raise e ->
        exists e', Account.get_trade_groups E activities = Raise e')
  /\ (forall E s,
        Py.Decimal_special E s = true ->
        Raw.Decimal E (Raw.JStr s) = OK (Raw.Special s))
  /\ (forall E b,
        Raw.Decimal E (Raw.JBool b)
        = OK (Raw.Finite (Dec.of_Z (if b then 1 else 0)))).
Proof.
  split_and!.
  - intros E raw_trades t f Hin Hf Hbad.
    destruct (raw_trade_of_fill_fails _ _ _ Hf Hbad) as [e0 He0].
    destruct (mapM_fails _ _ _ _ Hin He0) as [e He].
    destruct (mapM_Raise_elem _ _ _ He) as (t' & Hin' & Ht').
    exists e, t'. split_and!; [done | done |]. by eapply raw_trade_of_fill_Raise.
  - intros E raw_trades trades H. apply mapM_OK_Forall2 in H.
    eapply Forall2_impl; [exact H |]. intros t tr Ht. by apply raw_trade_of_fill_OK.
  - intros E activities a f Hin Hty Hf Hbad.
    destruct (for_each_fails (Raw.trade_activities_step E) activities a Hin)
      with (s := @nil Raw.Trade) as [e He].
    { intros s. unfold Raw.trade_activities_step, Raw.getitem at 1.
      rewrite Hty. simpl.
      destruct (raw_trade_of_activity_fails E a f Hf Hbad) as [e ->]. simpl. eauto. }
    destruct (raw_trade_activities_Raise _ _ _ _ He) as (a' & Hin' & Herr).
    exists e, a'. done.
  - intros E activities trades H. apply raw_trade_activities_OK in H.
    apply mapM_OK_Forall2 in H.
    eapply Forall2_impl; [exact H |]. intros a tr Ha.
    exact (raw_trade_of_activity_OK _ _ _ Ha).
  - intros E activities e H. unfold Account.get_trade_groups.
    destruct (Account.trade_activities E activities) as [trades|e'] eqn:Ht;
      [| simpl; eauto].
    apply trade_activities_refines in Ht. congruence.
  - intros E s Hs. simpl. unfold Raw.Decimal_of_text.
    by rewrite (Py.Decimal_special_not_finite E s Hs), Hs.
  - done.
Qed.

Lemma malformed_record_fails_witness :
  (exists e t',
     Raw.get_trades Std.env
       [c9_json_fill (Raw.JStr "10"); c9_json_fill (Raw.JStr "ten")] = Raise e
     /\ t' ∈ [c9_json_fill (Raw.JStr "10"); c9_json_fill (Raw.JStr "ten")]
     /\ fill_error Std.env t' e)
  /\ Raw.get_trades Std.env
       [c9_json_fill (Raw.JStr "10"); c9_json_fill (Raw.JStr "ten")]
     = Raise InvalidOperation
  /\ Raw.get_trades Std.env [c9_json_fill Raw.JNull] = Raise TypeError
  /\ exists e a',
       Raw.trade_activities Std.env
         [as_json (trade_activity "0xA" "Yes" "BUY" "" "0.5" "100")] = Raise e
       /\ a' ∈ [as_json (trade_activity "0xA" "Yes" "BUY" "" "0.5" "100")]
       /\ activity_error Std.env a' e.
Proof.
  split_and!.
  - apply (proj1 malformed_record_fails Std.env _
             (c9_json_fill (Raw.JStr "ten")) "size").
    + right. left.
    + left.
    + right. right. exists "ten". split; [vm_compute; reflexivity |].
      split; vm_compute; reflexivity.
  - vm_compute. reflexivity.
  - vm_compute. reflexivity.
  - apply (proj1 (proj2 (proj2 malformed_record_fails)) Std.env _
             (as_json (trade_activity "0xA" "Yes" "BUY" "" "0.5" "100")) "size").
    + left.
    + vm_compute. reflexivity.
    + left.
    + right. exists (Raw.JStr ""). split; [vm_compute; reflexivity |].
      split; vm_compute; reflexivity.
Defined.

(* ===================================================================== *)
(** ** C10: a partition with positive net shares has a BUY *)
(* ===================================================================== *)

Lemma with_side_total v (fills : list Account.record) :
  (forall f, f ∈ fills -> is_Some (f !! "side")) ->
  Account.with_side v fills = OK (on_side v fills).
Proof.
  induction fills as [|f fills IH]; intros H; simpl; [done |].
  destruct (H f) as [s Hs]; [left |]. unfold Account.getitem. rewrite Hs. simpl.
  rewrite IH by (intros; apply H; by right). simpl.
  unfold on_side. rewrite filter_cons. f_equal.
  destruct (decide (s = v)) as [->|Hne].
  - by rewrite decide_True.
  - rewrite decide_False; [done | congruence].
Qed.

Lemma value_of_OK E f v :
  Account.value_of E f = OK v ->
  exists p s, parsed E f "price" p /\ parsed E f "size" s /\ v = (p * s)%dec.
Proof.
  unfold Account.value_of. intros H. bind_ok H p Hp. bind_ok H s Hs.
  injection H as <-. exists p, s. split_and!; [| | done]; by apply decimal_field_OK.
Qed.

Lemma decimal_field_parsed E f k d :
  parsed E f k d -> Account.getitem f k ≫= Account.to_Decimal E = OK d.
Proof.
  intros (s & Hs & Hd). unfold Account.getitem, Account.to_Decimal.
  rewrite Hs. simpl. by rewrite Hd.
Qed.

(** With non-negative SELL sizes, a positive net size needs a BUY. *)
Lemma positive_net_has_buy E (fills : list Account.record)
    (buy_sizes sell_sizes : list Dec.t) :
  (forall f s, f ∈ on_side "SELL" fills -> parsed E f "size" s ->
     Dec.leb (Dec.of_Z 0) s = true) ->
  mapM (Account.size_of E) (on_side "BUY" fills) = OK buy_sizes ->
  mapM (Account.size_of E) (on_side "SELL" fills) = OK sell_sizes ->
  Dec.leb (Dec.sum buy_sizes - Dec.sum sell_sizes)%dec (Dec.of_Z 0) = false ->
  on_side "BUY" fills <> [] /\ 0 < Dec.coef (Dec.sum buy_sizes).
Proof.
  intros Hnonneg Hbs Hss Hnet.
  apply leb_zero in Hnet.
  assert (0 <= Dec.coef (Dec.sum sell_sizes)) as Hsell.
  { apply sum_nonneg. intros s Hs. apply leb_zero_l.
    destruct (mapM_OK_elem_r _ _ _ _ Hss Hs) as (f & Hf & Hfs).
    apply (Hnonneg f s Hf). by apply decimal_field_OK. }
  assert (0 < Dec.coef (Dec.sum buy_sizes)) as Hbuy.
  { destruct (Z.lt_ge_cases 0 (Dec.coef (Dec.sum buy_sizes))) as [|Hle]; [done |].
    pose proof (sub_nonpos _ _ Hle Hsell). lia. }
  split; [| done].
  intros Hnil. rewrite Hnil in Hbs. injection Hbs as <-. simpl in Hbuy. lia.
Qed.

(** C10.  Sizes are positive in the data model; here the SELL sizes of
    the partition are non-negative.  Then a partition that passes the
    check [net_shares > 0] has at least one BUY fill and a strictly
    positive total BUY size.  An entry that [get_open_positions] makes of
    a partition, which it does only past that check, has as
    [avg_buy_price] the quotient of the total BUY value by the total BUY
    size and as [last_buy_time] the largest BUY timestamp.  And for a
    partition that passes the check neither the division nor the maximum
    raises: when the fields read are there and well formed, and sizes and
    prices are of moderate magnitude, the body of the loop returns an
    entry. *)
Theorem open_position_has_buy E (redeemed : gset string)
    (meta : gmap string (string * string)) (key : string * string)
    (fills : list Account.record) :
  (forall f s, f ∈ on_side "SELL" fills -> parsed E f "size" s ->
     Dec.leb (Dec.of_Z 0) s = true) ->
  (passes_net_check E fills ->
   on_side "BUY" fills <> []
   /\ exists buy_sizes,
        Forall2 (fun f d => parsed E f "size" d) (on_side "BUY" fills) buy_sizes
        /\ Dec.ltb (Dec.of_Z 0) (Dec.sum buy_sizes) = true)
  /\ (forall r,
        Account.open_raw_entry E redeemed meta key fills = OK (Some r) ->
        passes_net_check E fills
        /\ exists buy_sizes values latest,
             Forall2 (fun f d => parsed E f "size" d) (on_side "BUY" fills) buy_sizes
             /\ Forall2
                  (fun f v =>
                     exists p s,
                       parsed E f "price" p /\ parsed E f "size" s
                       /\ v = (p * s)%dec)
                  (on_side "BUY" fills) values
             /\ Dec.div (Dec.sum values) (Dec.sum buy_sizes)
                = Some (Account.or_avg_buy_price r)
             /\ latest_timestamp E (on_side "BUY" fills) latest
             /\ Account.or_last_buy_time r = Py.str_of_Z latest)
  /\ (passes_net_check E fills ->
      fst key ∉ redeemed ->
      (forall f, f ∈ fills -> is_Some (f !! "side")) ->
      (forall f, f ∈ on_side "BUY" fills ->
         (exists p, parsed E f "price" p)
         /\ exists s z, f !! "timestamp" = Some s /\ Py.int_of_str E s = Some z) ->
      (forall f k d, f ∈ fills -> k ∈ ["size"; "price"] -> parsed E f k d ->
         moderate d) ->
      is_Some (meta !! fst key) ->
      exists r, Account.open_raw_entry E redeemed meta key fills = OK (Some r)).
Proof.
  intros Hnonneg. split_and!.
  - intros (bs & ss & Hbs & Hss & Hnet).
    destruct (positive_net_has_buy _ _ _ _ Hnonneg Hbs Hss Hnet) as [Hne Hpos].
    split; [done |]. exists bs. split.
    + apply mapM_OK_Forall2 in Hbs. eapply Forall2_impl; [exact Hbs |].
      intros f d Hf. by apply decimal_field_OK.
    + apply leb_false_ltb, leb_zero. done.
  - intros r H. unfold Account.open_raw_entry in H.
    destruct (decide (fst key ∈ redeemed)) as [|Hnot]; [done |].
    bind_ok H buys Hbuys. bind_ok H sells Hsells.
    apply with_side_OK in Hbuys, Hsells. subst buys sells.
    bind_ok H tb Htb. apply fmap_OK in Htb as (bs & Hbs & ->).
    bind_ok H tsl Htsl. apply fmap_OK in Htsl as (ss & Hss & ->).
    destruct (Dec.leb _ _) eqn:Hnet; [done |].
    destruct (positive_net_has_buy _ _ _ _ Hnonneg Hbs Hss Hnet) as [Hne Hpos].
    bind_ok H tv Htv. apply fmap_OK in Htv as (vs & Hvs & ->).
    bind_ok H lbt Hlbt. apply fmap_OK in Hlbt as (latest & Hlatest & ->).
    bind_ok H m Hm. injection H as <-. simpl.
    assert (Dec.is_zero (Dec.sum bs) = false) as Hnz.
    { unfold Dec.is_zero. apply Z.eqb_neq. lia. }
    split; [by exists bs, ss |]. exists bs, vs, latest. split_and!.
    + apply mapM_OK_Forall2 in Hbs. eapply Forall2_impl; [exact Hbs |].
      intros f d Hf. by apply decimal_field_OK.
    + apply mapM_OK_Forall2 in Hvs. eapply Forall2_impl; [exact Hvs |].
      intros f v Hf. by apply value_of_OK.
    + unfold Dec.div. by rewrite Hnz.
    + by apply timestamps_latest.
    + done.
  - intros (bs & ss & Hbs & Hss & Hnet) Hnot Hside Hbuy _ [m Hm].
    destruct (positive_net_has_buy _ _ _ _ Hnonneg Hbs Hss Hnet) as [Hne Hpos].
    destruct (mapM_OK_total (Account.value_of E) (on_side "BUY" fills)) as [vs Hvs].
    { intros f Hf. destruct (Hbuy f Hf) as [[p Hp] _].
      destruct (mapM_OK_elem _ _ _ _ Hbs Hf) as (s & _ & Hs).
      exists (p * s)%dec. unfold Account.value_of.
      rewrite (decimal_field_parsed _ _ _ _ Hp). simpl.
      unfold Account.size_of in Hs. rewrite Hs. done. }
    destruct (mapM_OK_total (Account.timestamp E) (on_side "BUY" fills)) as [ts Hts].
    { intros f Hf. destruct (Hbuy f Hf) as [_ (s & z & Hs & Hz)].
      exists z. unfold Account.timestamp, Account.getitem, Pnl.int.
      rewrite Hs. simpl. by rewrite Hz. }
    assert (exists latest, Py.max_int ts = OK latest) as [latest Hlatest].
    { pose proof (mapM_length _ _ _ Hts) as Hlen.
      destruct ts as [|t ts]; [| simpl; eauto].
      destruct (on_side "BUY" fills); [done | simpl in Hlen; lia]. }
    unfold Account.open_raw_entry. rewrite decide_False by done.
    rewrite !with_side_total by done. simpl.
    rewrite Hbs, Hss. simpl. rewrite Hnet, Hvs. simpl.
    rewrite Hts. simpl. rewrite Hlatest. simpl. rewrite Hm. simpl. eauto.
Qed.

Lemma open_position_has_buy_witness :
  exists r,
    Account.open_raw_entry Std.env ∅ {[ "0xA" := ("Some market", "nba-finals") ]}
      ("0xA", "Yes") (fills_of ("0xA", "Yes") c10_ok_activities) = OK (Some r)
    /\ on_side "BUY" (fills_of ("0xA", "Yes") c10_ok_activities) <> []
    /\ Dec.eqb (Account.or_avg_buy_price r) (Dec.lit 5 1) = true
    /\ Account.or_last_buy_time r = "100".
Proof.
  destruct (open_position_has_buy Std.env ∅ {[ "0xA" := ("Some market", "nba-finals") ]}
              ("0xA", "Yes") (fills_of ("0xA", "Yes") c10_ok_activities))
    as (Hbuy & _ & Hreturns).
  - assert (on_side "SELL" (fills_of ("0xA", "Yes") c10_ok_activities)
            = [trade_activity "0xA" "Yes" "SELL" "2" "0.6" "200"]) as ->
      by (vm_compute; reflexivity).
    intros f s Hf (str & Hstr & Hs). apply list_elem_of_singleton in Hf as ->.
    vm_compute in Hstr. injection Hstr as <-.
    vm_compute in Hs. injection Hs as <-. vm_compute. reflexivity.
  - assert (passes_net_check Std.env (fills_of ("0xA", "Yes") c10_ok_activities))
      as Hpass.
    { exists [Dec.of_Z 5], [Dec.of_Z 2]. split_and!; vm_compute; reflexivity. }
    destruct Hreturns as [r Hr].
    + exact Hpass.
    + apply not_elem_of_empty.
    + intros f Hf. apply list_elem_of_In in Hf. simpl in Hf.
      destruct Hf as [<-|[<-|[]]]; vm_compute; eauto.
    + assert (on_side "BUY" (fills_of ("0xA", "Yes") c10_ok_activities)
              = [trade_activity "0xA" "Yes" "BUY" "5" "0.5" "100"]) as ->
        by (vm_compute; reflexivity).
      intros f Hf. apply list_elem_of_singleton in Hf as ->. split.
      * exists (Dec.lit 5 1), "0.5". split; vm_compute; reflexivity.
      * exists "100", 100. split; vm_compute; reflexivity.
    + intros f k d Hf Hk (str & Hstr & Hd).
      apply list_elem_of_In in Hf, Hk. simpl in Hf, Hk.
      destruct Hf as [<-|[<-|[]]]; destruct Hk as [<-|[<-|[]]];
        vm_compute in Hstr; injection Hstr as <-;
        vm_compute in Hd; injection Hd as <-; vm_compute; split; intros [=] || done.
    + vm_compute. eauto.
    + exists r. split; [exact Hr |]. split; [apply (Hbuy Hpass) |].
      vm_compute in Hr. injection Hr as <-. split; vm_compute; reflexivity.
Defined.

(* ===================================================================== *)
(** ** Further facts about the built-ins *)
(* ===================================================================== *)

Lemma mapM_OK_id {A} (f : A -> result A) (l : list A) :
  (forall x, x ∈ l -> f x = OK x) -> mapM f l = OK l.
Proof.
  induction l as [|x l IH]; intros H; simpl; [done |].
  rewrite (H x) by left. simpl. rewrite IH; [done |].
  intros; apply H; by right.
Qed.

(** A loop skips an element on which the body does nothing. *)
Lemma for_each_skip {A S} (body : S -> A -> result S) (xs ys : list A) (a : A) :
  (forall s, body s a = OK s) ->
  forall s, Py.for_each body (xs ++ a :: ys) s = Py.for_each body (xs ++ ys) s.
Proof.
  intros Ha s. rewrite !for_each_app.
  destruct (Py.for_each body xs s) as [s'|e]; simpl; [| done].
  by rewrite Ha.
Qed.

Lemma for_each_ext {A S} (body body' : S -> A -> result S) (xs : list A) :
  (forall s x, x ∈ xs -> body s x = body' s x) ->
  forall s, Py.for_each body xs s = Py.for_each body' xs s.
Proof.
  induction xs as [|x xs IH]; intros H s; simpl; [done |].
  rewrite (H s x) by left.
  destruct (body' s x) as [s'|e]; simpl; [| done].
  apply IH. intros; apply H; by right.
Qed.

Lemma for_each_map {A B S} (body : S -> B -> result S) (f : A -> B) (xs : list A) :
  forall s, Py.for_each body (map f xs) s = Py.for_each (fun s x => body s (f x)) xs s.
Proof.
  induction xs as [|x xs IH]; intros s; simpl; [done |].
  destruct (body s (f x)) as [s'|e]; simpl; [apply IH | done].
Qed.

(** *** The order of strings *)

Lemma ascii_compare_lt_trans (a b c : ascii) :
  Ascii.compare a b = Lt -> Ascii.compare b c = Lt -> Ascii.compare a c = Lt.
Proof.
  unfold Ascii.compare. rewrite !N.compare_lt_iff. lia.
Qed.

Lemma string_compare_lt_trans (s1 s2 s3 : string) :
  String.compare s1 s2 = Lt -> String.compare s2 s3 = Lt -> String.compare s1 s3 = Lt.
Proof.
  revert s2 s3. induction s1 as [|a s1 IH]; intros [|b s2] [|c s3]; simpl; try done.
  destruct (Ascii.compare a b) eqn:Hab; try done.
  - apply Ascii.compare_eq_iff in Hab as ->.
    destruct (Ascii.compare b c) eqn:Hbc; try done. apply IH.
  - destruct (Ascii.compare b c) eqn:Hbc; try done.
    + apply Ascii.compare_eq_iff in Hbc as <-. by rewrite Hab.
    + by rewrite (ascii_compare_lt_trans _ _ _ Hab Hbc).
Qed.

Lemma string_compare_refl (s : string) : String.compare s s = Eq.
Proof.
  induction s as [|a s IH]; simpl; [done |].
  unfold Ascii.compare. by rewrite N.compare_refl.
Qed.

Lemma string_ltb_trans (s1 s2 s3 : string) :
  String.ltb s1 s2 = true -> String.ltb s2 s3 = true -> String.ltb s1 s3 = true.
Proof.
  unfold String.ltb.
  destruct (String.compare s1 s2) eqn:H12; try done.
  destruct (String.compare s2 s3) eqn:H23; try done.
  by rewrite (string_compare_lt_trans _ _ _ H12 H23).
Qed.

(** Two different strings are ordered one way or the other. *)
Lemma string_ltb_total (s1 s2 : string) :
  s1 <> s2 -> String.ltb s1 s2 = false -> String.ltb s2 s1 = true.
Proof.
  unfold String.ltb. intros Hne. rewrite (String.compare_antisym s2 s1).
  destruct (String.compare s1 s2) eqn:H; simpl; try done.
  by apply String.compare_eq_iff in H.
Qed.

Lemma insert_desc_strict (A : Type) (kx : string) (x : A) (l : list (string * A)) :
  kx ∉ map fst l ->
  strictly_descending (map fst l) ->
  strictly_descending (map fst (Py.insert_desc String.ltb kx x l)).
Proof.
  unfold strictly_descending.
  induction l as [|[ky y] l IH]; simpl; intros Hnot Hs.
  - repeat constructor.
  - apply StronglySorted_inv in Hs as [Hs Hall].
    apply not_elem_of_cons in Hnot as [Hne Hnot].
    destruct (String.ltb kx ky) eqn:Hlt; simpl.
    + constructor; [by apply IH |].
      rewrite insert_desc_Permutation. simpl. by constructor.
    + apply string_ltb_total in Hlt; [| done].
      constructor; [by constructor |].
      constructor; [done |].
      eapply Forall_impl; [exact Hall |]. simpl.
      intros d Hd. by eapply string_ltb_trans.
Qed.

Lemma sort_desc_strict (A : Type) (l : list (string * A)) :
  NoDup (map fst l) -> strictly_descending (map fst (Py.sort_desc String.ltb l)).
Proof.
  induction l as [|[k x] l IH]; simpl; intros Hnd; [constructor |].
  apply NoDup_cons in Hnd as [Hk Hnd].
  apply insert_desc_strict; [| by apply IH].
  by rewrite sort_desc_Permutation.
Qed.

(** Sorting a list that is already in descending key order changes
    nothing. *)
Lemma sort_desc_sorted (A : Type) (l : list (Z * A)) :
  descending (map fst l) -> Py.sort_desc Z.ltb l = l.
Proof.
  unfold descending.
  induction l as [|[k x] l IH]; intros Hs; [done |].
  change (Py.sort_desc Z.ltb ((k, x) :: l))
    with (Py.insert_desc Z.ltb k x (Py.sort_desc Z.ltb l)).
  simpl in Hs. apply StronglySorted_inv in Hs as [Hs Hall].
  rewrite IH by done. destruct l as [|[ky y] l]; simpl; [done |].
  apply Forall_cons in Hall as [Hky _]. simpl in Hky.
  destruct (Z.ltb_spec k ky); [lia | done].
Qed.

Lemma sorted_desc_sorted {A} (key : A -> result Z) (xs : list A) (ks : list Z) :
  mapM key xs = OK ks -> descending ks -> Py.sorted_desc key xs = OK xs.
Proof.
  intros Hks Hs. unfold Py.sorted_desc. rewrite Hks. simpl.
  pose proof (mapM_length _ _ _ Hks) as Hlen.
  rewrite sort_desc_sorted by (rewrite fst_zip; [done | lia]).
  rewrite snd_zip; [done | lia].
Qed.

(* ===================================================================== *)
(** ** [daily_pnl]: the order of the days *)
(* ===================================================================== *)

Lemma StronglySorted_lookup_lt {A} (R : A -> A -> Prop) (l : list A) i j x y :
  StronglySorted R l -> (i < j)%nat -> l !! i = Some x -> l !! j = Some y -> R x y.
Proof.
  intros Hs. revert i j.
  induction Hs as [|a l Hs IH Hall]; intros i j Hij Hi Hj; [done |].
  destruct j as [|j]; [lia |]. destruct i as [|i]; simpl in Hi, Hj.
  - injection Hi as <-. rewrite Forall_forall in Hall. apply Hall.
    by eapply list_elem_of_lookup_2.
  - apply (IH i j); [lia | done | done].
Qed.

(** X1.  The rows [daily_pnl] returns are in strictly descending order of
    their date strings, the order [sorted] puts strings in, and no date
    comes twice.  That is newest day first whenever the string order of
    the dates of the trades agrees with the order of their timestamps, as
    it does for ["%Y-%m-%d"] dates of the years 1000 to 9999: then every
    trade of a row is more recent than every trade of a later row. *)
Theorem daily_pnl_newest_first E (trades : list Trade) (daily : list (string * Dec.t)) :
  Pnl.daily_pnl E trades = OK daily ->
  strictly_descending (map fst daily)
  /\ ((forall t t' d d' z z',
         t ∈ trades -> t' ∈ trades ->
         day_of E t = OK d -> day_of E t' = OK d' ->
         Pnl.int E (match_time t) = OK z -> Pnl.int E (match_time t') = OK z' ->
         String.ltb d d' = true -> z < z') ->
      forall (i j : nat) d d' t t' z z',
        (i < j)%nat ->
        map fst daily !! i = Some d -> map fst daily !! j = Some d' ->
        t ∈ trades_on E d trades -> t' ∈ trades_on E d' trades ->
        Pnl.int E (match_time t) = OK z -> Pnl.int E (match_time t') = OK z' ->
        z' < z).
Proof.
  intros H.
  assert (strictly_descending (map fst daily)) as Hs.
  { unfold Pnl.daily_pnl in H. bind_ok H bs Hbs. injection H as <-.
    apply sort_desc_strict.
    destruct (daily_buckets_from _ _ _ _ Hbs) as (Hnd & _).
    apply Hnd. constructor. }
  split; [done |].
  intros Hagree i j d d' t t' z z' Hij Hi Hj Ht Ht' Hz Hz'.
  apply list_elem_of_filter in Ht as [Hd Ht], Ht' as [Hd' Ht'].
  apply (Hagree t' t d' d z' z); try done.
  exact (StronglySorted_lookup_lt _ _ _ _ _ _ Hs Hij Hi Hj).
Qed.

Lemma daily_pnl_newest_first_witness :
  map fst c1_ok_daily = ["2023-11-15"; "2023-11-14"]
  /\ strictly_descending (map fst c1_ok_daily)
  /\ forall t t' z z',
       t ∈ trades_on Std.env "2023-11-15" c1_ok_trades ->
       t' ∈ trades_on Std.env "2023-11-14" c1_ok_trades ->
       Pnl.int Std.env (match_time t) = OK z ->
       Pnl.int Std.env (match_time t') = OK z' ->
       z' < z.
Proof.
  split; [reflexivity |].
  destruct (daily_pnl_newest_first Std.env c1_ok_trades c1_ok_daily) as [Hs Hnew].
  { vm_compute. reflexivity. }
  split; [exact Hs |].
  intros t t' z z'.
  apply (fun Hagree => Hnew Hagree 0%nat 1%nat "2023-11-15" "2023-11-14" t t' z z');
    [| lia | reflexivity | reflexivity].
  clear. intros t t' d d' z z' Ht Ht' Hd Hd' Hz Hz' Hlt.
  apply list_elem_of_In in Ht, Ht'. simpl in Ht, Ht'.
  destruct Ht as [<-|[<-|[<-|[]]]]; destruct Ht' as [<-|[<-|[<-|[]]]];
    vm_compute in Hd, Hd', Hz, Hz';
    injection Hd as <-; injection Hd' as <-; injection Hz as <-; injection Hz' as <-;
    vm_compute in Hlt; try discriminate Hlt; lia.
Defined.

(* ===================================================================== *)
(** ** [group_trades]: the newest member, the first member, failures *)
(* ===================================================================== *)

Lemma make_group_first E k fills g :
  Pnl.make_group E k fills = OK g ->
  exists first rest,
    fills = first :: rest
    /\ g_market_title g = market_title first /\ g_category g = category first.
Proof.
  unfold Pnl.make_group. intros H. bind_ok H tlast Hlast.
  destruct (match filter _ fills with [] => _ | _ :: _ => _ end) as [avg bought].
  bind_ok H tfirst Hfirst. injection H as <-. simpl.
  destruct fills as [|t0 rest]; [done |]. injection Hfirst as <-. eauto.
Qed.

Lemma make_group_pnl E k fills g :
  Pnl.make_group E k fills = OK g -> pnl g = Dec.sum (map Pnl.trade_pnl fills).
Proof.
  unfold Pnl.make_group. intros H. bind_ok H tlast Hlast.
  destruct (match filter _ fills with [] => _ | _ :: _ => _ end) as [avg bought].
  bind_ok H tfirst Hfirst. by injection H as <-.
Qed.

(** X2.  In every group [group_trades] returns, [last_match_time] is the
    [match_time] of one of the input trades with the key of the group,
    and no such trade has a later time as an integer; the title and the
    category are those of the first such trade in input order. *)
Theorem group_newest_and_first_member E (trades : list Trade)
    (groups : list TradeGroup) (g : TradeGroup) :
  Pnl.group_trades E trades = OK groups -> g ∈ groups ->
  let fills := members (group_key g) trades in
  (exists t z,
     t ∈ fills /\ last_match_time g = match_time t
     /\ Pnl.int E (match_time t) = OK z
     /\ forall y, y ∈ fills ->
          exists zy, Pnl.int E (match_time y) = OK zy /\ zy <= z)
  /\ exists first rest,
       fills = first :: rest
       /\ g_market_title g = market_title first /\ g_category g = category first.
Proof.
  intros H Hg fills. destruct (group_of_bucket _ _ _ _ H Hg) as [_ Hmk].
  split; [by eapply make_group_last_match_time | by eapply make_group_first].
Qed.

Lemma group_newest_and_first_member_witness :
  map last_match_time c2_groups = ["300"; "200"; "150"]
  /\ forall g, g ∈ c2_groups ->
       exists first rest,
         members (group_key g) c2_trades = first :: rest
         /\ g_market_title g = market_title first.
Proof.
  split; [reflexivity |]. intros g Hg.
  destruct (group_newest_and_first_member Std.env c2_trades c2_groups g)
    as (_ & first & rest & Hm & Ht & _).
  - vm_compute. reflexivity.
  - exact Hg.
  - eauto.
Defined.

(** X3.  [group_trades] needs every [match_time] to be an integer
    literal: when it returns, [int(...)] accepts the [match_time] of every
    input trade, so one trade whose [match_time] [int(...)] rejects makes
    the whole call raise. *)
Theorem group_trades_needs_integer_times E (trades : list Trade) :
  (forall groups,
     Pnl.group_trades E trades = OK groups ->
     forall t, t ∈ trades -> exists z, Py.int_of_str E (match_time t) = Some z)
  /\ (forall t,
        t ∈ trades -> Py.int_of_str E (match_time t) = None ->
        exists e, Pnl.group_trades E trades = Raise e).
Proof.
  assert (forall groups,
            Pnl.group_trades E trades = OK groups ->
            forall t, t ∈ trades ->
              exists z, Py.int_of_str E (match_time t) = Some z) as Hall.
  { intros groups H t Ht.
    destruct (group_keys_spec _ _ _ H) as [_ Hkeys].
    assert (trade_key t ∈ map group_key groups) as Hk.
    { apply Hkeys. apply list_elem_of_fmap. eauto. }
    apply list_elem_of_fmap in Hk as (g & Hkey & Hg).
    destruct (group_of_bucket _ _ _ _ H Hg) as [_ Hmk].
    apply make_group_last_match_time in Hmk as (t0 & z0 & _ & _ & _ & Hall).
    destruct (Hall t) as (z & Hz & _).
    { unfold members. apply list_elem_of_filter. by rewrite <- Hkey. }
    exists z. unfold Pnl.int in Hz. by apply or_raise_OK in Hz. }
  split; [exact Hall |].
  intros t Ht Hbad.
  destruct (Pnl.group_trades E trades) as [groups|e] eqn:H; [| eauto].
  destruct (Hall groups eq_refl t Ht) as [z Hz]. congruence.
Qed.

Lemma group_trades_needs_integer_times_witness :
  exists e,
    Pnl.group_trades Std.env
      (c2_trades ++ [a_fill "0xA" "Yes" "BUY" (Dec.of_Z 1) (Dec.lit 5 1) (Dec.of_Z 0) "noon"])
    = Raise e.
Proof.
  apply (proj2 (group_trades_needs_integer_times Std.env _)
           (a_fill "0xA" "Yes" "BUY" (Dec.of_Z 1) (Dec.lit 5 1) (Dec.of_Z 0) "noon")).
  - apply elem_of_app. right. left.
  - vm_compute. reflexivity.
Defined.

(* ===================================================================== *)
(** ** [group_trades]: the cash flows of the groups *)
(* ===================================================================== *)

Lemma Zsum_app (l l' : list Z) : Zsum (l ++ l') = Zsum l + Zsum l'.
Proof. induction l as [|x l IH]; simpl; lia. Qed.

Lemma Zsum_concat_map {A B} (f : B -> Z) (mem : A -> list B) (gs : list A) :
  Zsum (map f (concat (map mem gs))) = Zsum (map (fun g => Zsum (map f (mem g))) gs).
Proof.
  induction gs as [|g gs IH]; simpl; [done |].
  by rewrite map_app, Zsum_app, IH.
Qed.

Lemma Zsum_filter_le {A} (f : A -> Z) (P : A -> Prop) `{forall x, Decision (P x)}
    (l : list A) :
  (forall x, 0 <= f x) -> Zsum (map f (filter P l)) <= Zsum (map f l).
Proof.
  intros Hf. induction l as [|x l IH]; simpl; [lia |].
  rewrite filter_cons. pose proof (Hf x).
  destruct (decide (P x)); simpl; lia.
Qed.

Lemma Zsum_le {A} (f g : A -> Z) (l : list A) :
  (forall x, x ∈ l -> f x <= g x) -> Zsum (map f l) <= Zsum (map g l).
Proof.
  induction l as [|x l IH]; intros H; simpl; [lia |].
  pose proof (H x ltac:(left)).
  assert (Zsum (map f l) <= Zsum (map g l)) by (apply IH; intros; apply H; by right).
  lia.
Qed.

Lemma Zsum_abs_le (l : list Z) : Z.abs (Zsum l) <= Zsum (map Z.abs l).
Proof. induction l as [|x l IH]; simpl; lia. Qed.

(** The cash flow of the trades under one key, when nothing rounds. *)
Lemma members_sum_exact k key trades :
  no_rounding k trades ->
  places k (Dec.sum (map Pnl.trade_pnl (members key trades)))
  /\ units k (Dec.sum (map Pnl.trade_pnl (members key trades)))
     = Zsum (map (fun t => units k (Pnl.trade_pnl t)) (members key trades)).
Proof.
  intros (Hk & Hpl & Hfit). apply direct_sum_exact. split_and!; [done | |].
  - intros t Ht. apply Hpl. unfold members in Ht.
    by apply list_elem_of_filter in Ht as [_ Ht].
  - eapply Z.le_lt_trans; [| exact Hfit]. unfold members.
    apply (Zsum_filter_le (fun t => Z.abs (units k (Pnl.trade_pnl t)))).
    intros. apply Z.abs_nonneg.
Qed.

(** X4.  When the cash flows of the trades have at most [k] decimal
    places and their absolute values total less than [10 ^ (28 - k)], the
    [pnl] of the groups [group_trades] returns add up to the sum of
    [trade_pnl] over the input: grouping neither loses nor double-counts
    a cash flow. *)
Theorem group_pnl_adds_up E (trades : list Trade) (groups : list TradeGroup) (k : Z) :
  Pnl.group_trades E trades = OK groups -> no_rounding k trades ->
  Dec.eqb (Dec.sum (map pnl groups)) (Dec.sum (map Pnl.trade_pnl trades)) = true.
Proof.
  intros H Hno. pose proof Hno as (Hk & Hpl & Hfit).
  destruct (group_keys_spec _ _ _ H) as [Hnd Hkeys].
  assert (concat (map (fun g => members (group_key g) trades) groups) ≡ₚ trades)
    as Hperm.
  { change (map (fun g => members (group_key g) trades) groups)
      with (map ((fun k => members k trades) ∘ group_key) groups).
    rewrite list_fmap_compose. apply partition_concat; [done |].
    intros t Ht. apply Hkeys. apply list_elem_of_fmap. eauto. }
  assert (forall g, g ∈ groups ->
            places k (pnl g)
            /\ units k (pnl g)
               = Zsum (map (fun t => units k (Pnl.trade_pnl t))
                         (members (group_key g) trades))) as Hgroup.
  { intros g Hg. destruct (group_of_bucket _ _ _ _ H Hg) as [_ Hmk].
    rewrite (make_group_pnl _ _ _ _ Hmk). by apply members_sum_exact. }
  destruct (direct_sum_exact k trades Hno) as [Hp1 Hu1].
  destruct (sum_from_exact k (map pnl groups) Dec.zero) as [Hp2 Hu2].
  - by apply places_zero.
  - intros x (g & -> & Hg)%list_elem_of_fmap. by apply Hgroup.
  - rewrite units_zero, map_map. simpl.
    eapply Z.le_lt_trans; [| exact Hfit].
    rewrite <- (Zsum_Permutation _ _ (fmap_Permutation _ _ _ Hperm)).
    rewrite (Zsum_concat_map (fun t => Z.abs (units k (Pnl.trade_pnl t)))).
    apply Zsum_le. intros g Hg. destruct (Hgroup g Hg) as [_ ->].
    rewrite <- (map_map (fun t => units k (Pnl.trade_pnl t)) Z.abs).
    apply Zsum_abs_le.
  - apply (eqb_units k); [done | done |]. unfold Dec.sum at 1.
    rewrite Hu2, Hu1, units_zero, map_map. simpl.
    rewrite <- (Zsum_Permutation _ _ (fmap_Permutation _ _ _ Hperm)).
    rewrite (Zsum_concat_map (fun t => units k (Pnl.trade_pnl t))).
    rewrite Z.add_0_l. f_equal. apply map_ext_in. intros g Hg%list_elem_of_In.
    by destruct (Hgroup g Hg) as [_ ->].
Qed.

Lemma group_pnl_adds_up_witness :
  Dec.eqb (Dec.sum (map pnl c2_groups)) (Dec.sum (map Pnl.trade_pnl c2_trades)) = true.
Proof.
  apply (group_pnl_adds_up Std.env c2_trades c2_groups 4).
  - vm_compute. reflexivity.
  - split_and!; [lia | | vm_compute; reflexivity].
    intros t Ht. repeat (apply elem_of_cons in Ht as [->|Ht]);
      [vm_compute; discriminate .. | by apply elem_of_nil in Ht].
Defined.

(* ===================================================================== *)
(** ** [get_trade_groups] on a feed without redemptions *)
(* ===================================================================== *)

Lemma trade_activities_typed E activities s s' :
  Py.for_each (Account.trade_activities_step E) activities s = OK s' ->
  forall a, a ∈ activities -> exists ty, a !! "type" = Some ty.
Proof.
  revert s. induction activities as [|a0 acts IH]; intros s; simpl.
  - intros _ a Ha. by apply elem_of_nil in Ha.
  - intros H. bind_ok H s1 Hs1. intros a [->|Ha]%elem_of_cons; [| by eapply IH].
    unfold Account.trade_activities_step in Hs1. bind_ok Hs1 ty Hty.
    apply getitem_OK in Hty. eauto.
Qed.

Lemma group_redeems_none activities :
  (forall a, a ∈ activities -> exists ty, a !! "type" = Some ty /\ ty <> "REDEEM") ->
  Account.group_redeems activities = OK [].
Proof.
  unfold Account.group_redeems. generalize (@nil (string * list Account.record)).
  induction activities as [|a acts IH]; intros s H; simpl; [done |].
  destruct (H a) as (ty & Hty & Hne); [left |].
  assert (Account.group_redeems_step s a = OK s) as ->.
  { unfold Account.group_redeems_step.
    apply getitem_OK in Hty as ->. simpl. by rewrite decide_False. }
  simpl. apply IH. intros; apply H; by right.
Qed.

(** X5.  On a feed without REDEEM activities [get_trade_groups] is
    [group_trades] applied to the Trades of the TRADE activities: same
    groups in the same order, same exception when either step fails. *)
Theorem trade_groups_without_redeems E (activities : list Account.record) :
  (forall a, a ∈ activities -> a !! "type" <> Some "REDEEM") ->
  Account.get_trade_groups E activities
  = Account.trade_activities E activities ≫= Pnl.group_trades E.
Proof.
  intros Hno. unfold Account.get_trade_groups.
  destruct (Account.trade_activities E activities) as [trades|e] eqn:Htrades;
    simpl; [| done].
  destruct (Pnl.group_trades E trades) as [groups|e] eqn:Hgroups; simpl; [| done].
  rewrite group_redeems_none.
  - simpl. rewrite mapM_OK_id by done. simpl. rewrite app_nil_r.
    apply group_trades_OK in Hgroups as (_ & _ & _ & ks & Hks & Hs).
    by eapply sorted_desc_sorted.
  - intros a Ha.
    destruct (trade_activities_typed _ _ _ _ Htrades a Ha) as [ty Hty].
    exists ty. split; [done |]. intros ->. by eapply Hno.
Qed.

Lemma trade_groups_without_redeems_witness :
  Account.get_trade_groups Std.env trade_feed
  = Account.trade_activities Std.env trade_feed ≫= Pnl.group_trades Std.env
  /\ is_ok (Account.get_trade_groups Std.env trade_feed) = true.
Proof.
  split; [| vm_compute; reflexivity].
  apply (trade_groups_without_redeems Std.env trade_feed).
  intros a Ha. repeat (apply elem_of_cons in Ha as [->|Ha]);
    [vm_compute; discriminate .. | by apply elem_of_nil in Ha].
Defined.

(* ===================================================================== *)
(** ** Activities that are neither TRADE nor REDEEM *)
(* ===================================================================== *)

(** X6.  An activity whose [type] is neither TRADE nor REDEEM has no
    effect: with or without it in the feed, [get_trade_groups],
    [_activities_as_trades], [get_pnl_summary] and [get_open_positions]
    give the same result.  Only its [type] is read. *)
Theorem other_activity_types_ignored E (xs ys : list Account.record)
    (a : Account.record) (ty : string) :
  a !! "type" = Some ty -> ty <> "TRADE" -> ty <> "REDEEM" ->
  Account.get_trade_groups E (xs ++ a :: ys) = Account.get_trade_groups E (xs ++ ys)
  /\ Account._activities_as_trades E (xs ++ a :: ys)
     = Account._activities_as_trades E (xs ++ ys)
  /\ Account.get_pnl_summary E (xs ++ a :: ys) = Account.get_pnl_summary E (xs ++ ys)
  /\ forall markets,
       Account.get_open_positions E (xs ++ a :: ys) markets
       = Account.get_open_positions E (xs ++ ys) markets.
Proof.
  intros Hty Hnt Hnr.
  assert (Account.getitem a "type" = OK ty) as Hget by (by apply getitem_OK).
  assert (Account.trade_activities E (xs ++ a :: ys)
          = Account.trade_activities E (xs ++ ys)) as H1.
  { apply for_each_skip. intros s. unfold Account.trade_activities_step.
    rewrite Hget. simpl. by rewrite decide_False. }
  assert (Account.group_redeems (xs ++ a :: ys) = Account.group_redeems (xs ++ ys))
    as H2.
  { apply for_each_skip. intros s. unfold Account.group_redeems_step.
    rewrite Hget. simpl. by rewrite decide_False. }
  assert (Account._activities_as_trades E (xs ++ a :: ys)
          = Account._activities_as_trades E (xs ++ ys)) as H3.
  { apply for_each_skip. intros s. unfold Account._activities_as_trades_step.
    rewrite Hget. simpl. by rewrite !decide_False. }
  assert (Account.redeemed_markets (xs ++ a :: ys)
          = Account.redeemed_markets (xs ++ ys)) as H4.
  { apply for_each_skip. intros s. unfold Account.redeemed_markets_step.
    rewrite Hget. simpl. by rewrite decide_False. }
  assert (Account.bucket_fills (xs ++ a :: ys) = Account.bucket_fills (xs ++ ys))
    as H5.
  { apply for_each_skip. intros [buckets meta]. unfold Account.bucket_fills_step.
    rewrite Hget. simpl. by rewrite decide_False. }
  split_and!.
  - unfold Account.get_trade_groups. by rewrite H1, H2.
  - done.
  - unfold Account.get_pnl_summary. by rewrite H3.
  - intros markets. unfold Account.get_open_positions, Account.open_raw.
    by rewrite H4, H5.
Qed.

Lemma other_activity_types_ignored_witness :
  Account.get_trade_groups Std.env ([trade_activity "0xA" "Yes" "BUY" "10" "0.40" "100"]
                                    ++ split_activity :: [])
  = Account.get_trade_groups Std.env ([trade_activity "0xA" "Yes" "BUY" "10" "0.40" "100"]
                                      ++ []).
Proof.
  apply (other_activity_types_ignored Std.env
           [trade_activity "0xA" "Yes" "BUY" "10" "0.40" "100"] [] split_activity "SPLIT").
  - vm_compute. reflexivity.
  - discriminate.
  - discriminate.
Defined.

(* ===================================================================== *)
(** ** The Trades made of activities carry no fee *)
(* ===================================================================== *)

Lemma add_zero_same_expo (g : Dec.t) :
  (g + Dec.mk 0 (Dec.expo g))%dec = Dec.round_ctx g.
Proof.
  unfold Dec.add. simpl. rewrite Z.min_id, Z.sub_diag. simpl.
  rewrite Z.mul_1_r, Z.add_0_r. by destruct g.
Qed.

Lemma fee_of_zero_rate (g : Dec.t) :
  Dec.quot (g * Dec.of_Z 0)%dec Pnl._BPS = Dec.mk 0 (Dec.expo g).
Proof.
  unfold Dec.mul. simpl. rewrite Z.mul_0_r, Z.add_0_r.
  change (Dec.round_ctx (Dec.mk 0 (Dec.expo g))) with (Dec.mk 0 (Dec.expo g)).
  unfold Dec.quot. simpl. by rewrite Z.sub_0_r.
Qed.

(** Without a fee the cash flow of a fill is its gross amount. *)
Lemma trade_pnl_zero_fee (t : Trade) :
  fee_rate_bps t = Dec.of_Z 0 ->
  Pnl.trade_pnl t =
    if decide (side t = "SELL") then (price t * size t)%dec
    else (- (price t * size t))%dec.
Proof.
  intros Hfee. unfold Pnl.trade_pnl. rewrite Hfee, fee_of_zero_rate.
  assert (Dec.round_ctx (price t * size t)%dec = (price t * size t)%dec) as Hg
    by apply round_ctx_idem.
  destruct (decide (side t = "SELL")).
  - unfold Dec.sub. change (Dec.copy_negate (Dec.mk 0 ?e)) with (Dec.mk 0 e).
    by rewrite add_zero_same_expo.
  - by rewrite add_zero_same_expo, Hg.
Qed.

Lemma _activities_as_trades_elem E activities trades t :
  Account._activities_as_trades E activities = OK trades -> t ∈ trades ->
  exists a ts,
    a ∈ activities /\ Account._activities_as_trades_step E [] a = OK ts /\ t ∈ ts.
Proof.
  revert trades. induction activities as [|a acts IH]; intros trades.
  - intros [= <-] Ht. by apply elem_of_nil in Ht.
  - change (a :: acts) with ([a] ++ acts)%list. rewrite _activities_as_trades_app.
    intros H Ht. bind_ok H ts Hts. bind_ok H ts' Hts'. injection H as <-.
    apply elem_of_app in Ht as [Ht|Ht].
    + exists a, ts. split_and!; [left | | done].
      unfold Account._activities_as_trades in Hts. simpl in Hts.
      by destruct (Account._activities_as_trades_step E [] a).
    + destruct (IH _ Hts' Ht) as (a' & ts0 & Hin & Hstep & Hin').
      exists a', ts0. split_and!; [by right | done | done].
Qed.

(** X7.  Every Trade [_activities_as_trades] returns, and so every Trade
    behind [get_pnl_summary], has fee rate 0, status CONFIRMED and empty
    title and category; its [trade_pnl] is [price * size] for a SELL and
    [-(price * size)] otherwise: no fee is deducted. *)
Theorem activity_trades_carry_no_fee E (activities : list Account.record)
    (trades : list Trade) (t : Trade) :
  Account._activities_as_trades E activities = OK trades -> t ∈ trades ->
  fee_rate_bps t = Dec.of_Z 0
  /\ status t = "CONFIRMED" /\ market_title t = "" /\ category t = ""
  /\ Pnl.trade_pnl t =
       if decide (side t = "SELL") then (price t * size t)%dec
       else (- (price t * size t))%dec.
Proof.
  intros H Ht.
  destruct (_activities_as_trades_elem _ _ _ _ H Ht) as (a & ts & _ & Hstep & Hin).
  assert (fee_rate_bps t = Dec.of_Z 0
          /\ status t = "CONFIRMED" /\ market_title t = "" /\ category t = "")
    as (Hfee & Hrest).
  { unfold Account._activities_as_trades_step in Hstep. bind_ok Hstep ty Hty.
    destruct (decide (ty = "TRADE")).
    - bind_ok Hstep t' Ht'. injection Hstep as <-.
      apply list_elem_of_singleton in Hin as ->.
      unfold Account.trade_of_activity in Ht'.
      repeat (apply bind_OK in Ht' as (? & _ & Ht')).
      by injection Ht' as <-.
    - destruct (decide (ty = "REDEEM")).
      + bind_ok Hstep sz Hsz. destruct (Dec.is_zero sz).
        * injection Hstep as <-. by apply elem_of_nil in Hin.
        * repeat (apply bind_OK in Hstep as (? & _ & Hstep)).
          injection Hstep as <-. by apply list_elem_of_singleton in Hin as ->.
      + injection Hstep as <-. by apply elem_of_nil in Hin. }
  split_and!; try tauto. by apply trade_pnl_zero_fee.
Qed.

Lemma activity_trades_carry_no_fee_witness :
  exists t,
    Account._activities_as_trades Std.env [c5_redeem] = OK [t]
    /\ Pnl.trade_pnl t = (price t * size t)%dec.
Proof.
  eexists. split; [vm_compute; reflexivity |].
  refine (proj2 (proj2 (proj2 (proj2
    (activity_trades_carry_no_fee Std.env [c5_redeem] _ _ _ _))))).
  - vm_compute. reflexivity.
  - left.
Defined.

(* ===================================================================== *)
(** ** The fields [_activities_as_trades] reads *)
(* ===================================================================== *)

Ltac pnl_field H k :=
  let Hk := fresh "Hk" in
  pose proof (H k ltac:(unfold pnl_fields; repeat first [left | right])) as Hk;
  rewrite <- ?Hk; clear Hk.

Lemma _activities_as_trades_step_fields E (a a' : Account.record) (s : list Trade) :
  (forall k, k ∈ pnl_fields -> a !! k = a' !! k) ->
  Account._activities_as_trades_step E s a = Account._activities_as_trades_step E s a'.
Proof.
  intros H.
  unfold Account._activities_as_trades_step, Account.trade_of_activity,
    Account.getitem, Account.get.
  pnl_field H "type". pnl_field H "transactionHash". pnl_field H "conditionId".
  pnl_field H "asset". pnl_field H "side". pnl_field H "size". pnl_field H "price".
  pnl_field H "timestamp". pnl_field H "outcome". pnl_field H "usdcSize".
  reflexivity.
Qed.

Lemma trade_of_activity_needs_title E (a : Account.record) :
  a !! "title" = None -> exists e, Account.trade_of_activity E true a = Raise e.
Proof.
  intros Ht. unfold Account.trade_of_activity.
  do 8 (apply bind_Raise_any; intros ?).
  apply bind_Raise_l. unfold Account.getitem. rewrite Ht. simpl. eauto.
Qed.

(** X8.  [_activities_as_trades], and with it [get_pnl_summary], reads of
    an activity only the fields [pnl_fields]: two feeds whose records
    agree on these give the same result, so [title] and [slug] may be
    anything or missing.  [get_trade_groups] does read them: a TRADE
    activity without [title] makes it raise. *)
Theorem pnl_summary_reads_pnl_fields_only E :
  (forall acts acts' : list Account.record,
     Forall2 (fun a a' => forall k, k ∈ pnl_fields -> a !! k = a' !! k) acts acts' ->
     Account._activities_as_trades E acts = Account._activities_as_trades E acts'
     /\ Account.get_pnl_summary E acts = Account.get_pnl_summary E acts')
  /\ (forall (acts : list Account.record) a,
        a ∈ acts -> a !! "type" = Some "TRADE" -> a !! "title" = None ->
        exists e, Account.get_trade_groups E acts = Raise e).
Proof.
  split.
  - intros acts acts' H.
    assert (Account._activities_as_trades E acts
            = Account._activities_as_trades E acts') as Heq.
    { unfold Account._activities_as_trades. generalize (@nil Trade).
      induction H as [|a a' acts acts' Ha _ IH]; intros s; simpl; [done |].
      rewrite (_activities_as_trades_step_fields E a a' s Ha).
      destruct (Account._activities_as_trades_step E s a'); simpl; [apply IH | done]. }
    split; [done |]. unfold Account.get_pnl_summary. by rewrite Heq.
  - intros acts a Hin Hty Ht.
    destruct (for_each_fails (Account.trade_activities_step E) acts a Hin)
      with (s := @nil Trade) as [e He].
    { intros s. unfold Account.trade_activities_step.
      apply getitem_OK in Hty as ->. simpl.
      destruct (trade_of_activity_needs_title E a Ht) as [e ->]. simpl. eauto. }
    exists e. unfold Account.get_trade_groups, Account.trade_activities.
    by rewrite He.
Qed.

Lemma pnl_summary_reads_pnl_fields_only_witness :
  Account.get_pnl_summary Std.env [trade_activity "0xA" "Yes" "BUY" "10" "0.40" "100"]
  = Account.get_pnl_summary Std.env
      [delete "title" (trade_activity "0xA" "Yes" "BUY" "10" "0.40" "100")]
  /\ exists e,
       Account.get_trade_groups Std.env
         [delete "title" (trade_activity "0xA" "Yes" "BUY" "10" "0.40" "100")]
       = Raise e.
Proof.
  split.
  - apply (proj1 (pnl_summary_reads_pnl_fields_only Std.env)).
    constructor; [| constructor].
    intros k Hk. repeat (apply elem_of_cons in Hk as [->|Hk]);
      [vm_compute; reflexivity .. | by apply elem_of_nil in Hk].
  - apply (proj2 (pnl_summary_reads_pnl_fields_only Std.env) _
             (delete "title" (trade_activity "0xA" "Yes" "BUY" "10" "0.40" "100"))).
    + left.
    + vm_compute. reflexivity.
    + vm_compute. reflexivity.
Defined.

(* ===================================================================== *)
(** ** [get_open_positions]: order, keys, prices *)
(* ===================================================================== *)

(** Dropping elements of a list in descending key order leaves it in
    descending key order. *)
Lemma mapM_omap_descending {A B} (key : A -> result Z) (key' : B -> result Z)
    (f : A -> option B) (xs : list A) (ks : list Z) :
  (forall x y, f x = Some y -> key' y = key x) ->
  mapM key xs = OK ks -> descending ks ->
  exists ks', mapM key' (omap f xs) = OK ks' /\ descending ks'
              /\ forall k, k ∈ ks' -> k ∈ ks.
Proof.
  intros Hf. unfold descending. revert ks.
  induction xs as [|x xs IH]; intros ks; simpl.
  - intros [= <-] _. exists []. split_and!; [done | constructor | done].
  - change (list_omap A B f xs) with (omap f xs).
    intros H Hs. bind_ok H kx Hkx. bind_ok H ks0 Hks0. injection H as <-.
    apply StronglySorted_inv in Hs as [Hs Hall].
    destruct (IH _ Hks0 Hs) as (ks' & Hks' & Hs' & Hsub).
    destruct (f x) as [y|] eqn:Hfx.
    + exists (kx :: ks'). simpl. rewrite (Hf _ _ Hfx), Hkx. simpl. rewrite Hks'.
      split_and!; [done | |].
      * constructor; [done |]. apply Forall_forall. intros k Hk.
        rewrite Forall_forall in Hall. by apply Hall, Hsub.
      * intros k [->|Hk]%elem_of_cons; [left | right; by apply Hsub].
    + exists ks'. split_and!; [done | done |]. intros k Hk. right. by apply Hsub.
Qed.

Lemma NoDup_omap_keys {A B K} (g : A -> K) (h : B -> K) (f : A -> option B)
    (l : list A) :
  (forall x y, f x = Some y -> h y = g x) ->
  NoDup (map g l) -> NoDup (map h (omap f l)).
Proof.
  intros Hf. induction l as [|x l IH]; simpl; intros Hnd; [constructor |].
  change (list_omap A B f l) with (omap f l).
  apply NoDup_cons in Hnd as [Hx Hnd]. destruct (f x) as [y|] eqn:Hfx; [| by apply IH].
  simpl. apply NoDup_cons. split; [| by apply IH].
  intros Hin. apply Hx. rewrite <- (Hf _ _ Hfx).
  apply list_elem_of_fmap in Hin as (y' & -> & Hy').
  apply list_elem_of_omap in Hy' as (x' & Hx' & Hfx').
  rewrite (Hf _ _ Hfx'). apply list_elem_of_fmap. eauto.
Qed.

(** The entries of [open_raw] before sorting carry the keys of their
    buckets. *)
Lemma open_raw_entries_key_in E redeemed meta
    (buckets : list ((string * string) * list Account.record))
    (entries : list (option Account.OpenRaw)) (r : Account.OpenRaw) :
  Forall2 (fun b o => Account.open_raw_entry E redeemed meta (fst b) (snd b) = OK o)
    buckets entries ->
  r ∈ omap Datatypes.id entries ->
  (Account.or_conditionId r, Account.or_outcome r) ∈ map fst buckets.
Proof.
  intros H Hin. apply list_elem_of_omap in Hin as (o & Hin & Ho).
  unfold Datatypes.id in Ho. subst o.
  induction H as [|[key fills] o bs es Ho Hrest IH]; [by apply elem_of_nil in Hin |].
  apply elem_of_cons in Hin as [<-|Hin]; simpl.
  - apply open_raw_entry_OK in Ho as (_ & -> & -> & _). simpl. destruct key. left.
  - right. by apply IH.
Qed.

Lemma open_raw_entries_keys E redeemed meta
    (buckets : list ((string * string) * list Account.record))
    (entries : list (option Account.OpenRaw)) :
  mapM (fun b => Account.open_raw_entry E redeemed meta (fst b) (snd b)) buckets
    = OK entries ->
  NoDup (map fst buckets) ->
  NoDup (map (fun r => (Account.or_conditionId r, Account.or_outcome r))
           (omap Datatypes.id entries)).
Proof.
  intros H Hnd. apply mapM_OK_Forall2 in H.
  induction H as [|[key fills] o bs es Ho Hrest IH]; simpl in *; [constructor |].
  change (list_omap _ _ Datatypes.id es) with (omap Datatypes.id es).
  apply NoDup_cons in Hnd as [Hk Hnd]. specialize (IH Hnd).
  destruct o as [r|]; simpl; [| done].
  apply NoDup_cons. split; [| done].
  apply open_raw_entry_OK in Ho as (_ & Hc & Ho & _). simpl in Hc, Ho.
  intros Hin. apply Hk.
  apply list_elem_of_fmap in Hin as (r' & Hr' & Hin).
  apply (open_raw_entries_key_in _ _ _ _ _ _ Hrest) in Hin.
  rewrite <- Hr', Hc, Ho in Hin. by destruct key.
Qed.

Lemma open_raw_keys E activities raw :
  Account.open_raw E activities = OK raw ->
  NoDup (map (fun r => (Account.or_conditionId r, Account.or_outcome r)) raw).
Proof.
  unfold Account.open_raw. intros H.
  bind_ok H redeemed Hred. bind_ok H st Hst. bind_ok H entries Hent.
  apply sorted_desc_OK in H as [Hperm _]. rewrite Hperm.
  eapply open_raw_entries_keys; [exact Hent |].
  apply bucket_fills_from in Hst as [Hnd _]. apply Hnd. constructor.
Qed.

Lemma position_of_last_buy_time E mp r p :
  Account.position_of E mp r = Some p ->
  last_buy_time p = Account.or_last_buy_time r.
Proof.
  unfold Account.position_of. destruct (Dec.leb _ _); [done |]. by intros [= <-].
Qed.

(** X9.  The positions [get_open_positions] returns are in descending
    order of [int(last_buy_time)], the most recent BUY first, and no two
    of them have the same (market, outcome). *)
Theorem open_positions_newest_first E (activities : list Account.record)
    (markets : option (list Account.market_info)) (positions : list Position) :
  Account.get_open_positions E activities markets = OK positions ->
  (exists ks,
     mapM (fun p => Pnl.int E (last_buy_time p)) positions = OK ks /\ descending ks)
  /\ NoDup (map position_key positions).
Proof.
  unfold Account.get_open_positions. intros H. bind_ok H raw Hraw.
  injection H as <-. split.
  - unfold Account.open_raw in Hraw.
    bind_ok Hraw redeemed Hred. bind_ok Hraw st Hst. bind_ok Hraw entries Hent.
    apply sorted_desc_OK in Hraw as (_ & ks & Hks & Hs).
    destruct (mapM_omap_descending
                (fun r => Pnl.int E (Account.or_last_buy_time r))
                (fun p => Pnl.int E (last_buy_time p))
                (Account.position_of E (Account.market_map markets)) raw ks)
      as (ks' & Hks' & Hs' & _); [| done | done | eauto].
    intros r p Hp. by rewrite (position_of_last_buy_time _ _ _ _ Hp).
  - eapply NoDup_omap_keys; [| by eapply open_raw_keys].
    intros r p Hp. apply position_of_Some in Hp as (Hm & Ho & _).
    unfold position_key. by rewrite Hm, Ho.
Qed.

Lemma open_positions_newest_first_witness :
  map (fun p => (position_key p, last_buy_time p)) three_positions
    = [(("0xB", "No"), "300"); (("0xC", "Yes"), "200"); (("0xA", "Yes"), "100")]
  /\ (exists ks,
        mapM (fun p => Pnl.int Std.env (last_buy_time p)) three_positions = OK ks
        /\ descending ks)
  /\ NoDup (map position_key three_positions).
Proof.
  split; [reflexivity |].
  apply (open_positions_newest_first Std.env three_buys three_markets).
  vm_compute. reflexivity.
Defined.

Lemma above_dust_positive (x : Dec.t) :
  Dec.leb x Account.dust = false -> 0 < Dec.coef x.
Proof.
  unfold Dec.leb, Dec.compare, Account.dust, Dec.lit. cbn [Dec.coef Dec.expo].
  set (e := Z.min _ _).
  match goal with
  | |- context [1 * 10 ^ ?k] => pose proof (pow10_pos k ltac:(lia)) as Hp
  end.
  pose proof (pow10_pos (Dec.expo x - e) ltac:(lia)) as Hq.
  match goal with
  | |- context [?a ?= ?b] => destruct (Z.compare_spec a b); [done | done |]
  end.
  intros _. nia.
Qed.

Lemma mul_positive (a b : Dec.t) :
  0 < Dec.coef (a * b)%dec -> 0 < Dec.coef b -> 0 < Dec.coef a.
Proof.
  unfold Dec.mul. intros H Hb. apply Z.sgn_pos in H.
  rewrite (proj1 (round_ctx_spec _)) in H. simpl in H.
  apply Z.sgn_pos_iff in H. nia.
Qed.

(** X10.  [get_open_positions] returns a position only for a market the
    price service answered for, and only at a strictly positive current
    price.  When the price service fails or returns no market, the result
    is empty. *)
Theorem open_positions_need_a_price E (activities : list Account.record)
    (markets : option (list Account.market_info)) (positions : list Position) :
  Account.get_open_positions E activities markets = OK positions ->
  (forall p, p ∈ positions ->
     (exists info, Account.market_map markets !! p_market p = Some info)
     /\ Dec.ltb (Dec.of_Z 0) (current_price p) = true)
  /\ (markets = None \/ markets = Some [] -> positions = []).
Proof.
  unfold Account.get_open_positions. intros H. bind_ok H raw Hraw.
  injection H as <-.
  assert (forall r p,
            r ∈ raw -> Account.position_of E (Account.market_map markets) r = Some p ->
            (exists info, Account.market_map markets !! p_market p = Some info)
            /\ Dec.ltb (Dec.of_Z 0) (current_price p) = true) as Hpos.
  { intros r p Hr Hp. pose proof Hp as Hp'.
    apply position_of_Some in Hp' as (Hm & Ho & Hn & Hprice & Hdust).
    split.
    - unfold Account.position_of in Hp. rewrite <- Hm in Hp.
      destruct (Account.market_map markets !! p_market p) as [info|]; [eauto |].
      simpl in Hp. by rewrite current_price_empty, zero_value_is_dust in Hp.
    - apply leb_false_ltb, leb_zero. apply above_dust_positive in Hdust.
      apply (mul_positive _ _ Hdust). rewrite Hn.
      destruct (open_raw_OK _ _ _ _ Hraw Hr) as (redeemed & meta & key & _ & _ & He).
      apply open_raw_entry_OK in He as (_ & _ & _ & bs & ss & _ & _ & _ & Hnet).
      by apply leb_zero. }
  split.
  - intros p Hp. apply list_elem_of_omap in Hp as (r & Hr & Hp). by eapply Hpos.
  - intros Hnone.
    assert (Account.market_map markets = ∅) as Hmp by (by destruct Hnone as [->| ->]).
    destruct (omap _ raw) as [|p ps] eqn:Hps; [done |].
    assert (p ∈ omap (Account.position_of E (Account.market_map markets)) raw) as Hp
      by (rewrite Hps; left).
    apply list_elem_of_omap in Hp as (r & Hr & Hp).
    destruct (Hpos r p Hr Hp) as [[info Hinfo] _].
    rewrite Hmp, lookup_empty in Hinfo. done.
Qed.

Lemma open_positions_need_a_price_witness :
  Account.get_open_positions Std.env c6_activities None = OK []
  /\ forall p, p ∈ c6_positions -> Dec.ltb (Dec.of_Z 0) (current_price p) = true.
Proof.
  split; [vm_compute; reflexivity |]. intros p Hp.
  apply (open_positions_need_a_price Std.env c6_activities (c6_markets "0.01" "0.99")
           c6_positions); [vm_compute; reflexivity | exact Hp].
Defined.

(* ===================================================================== *)
(** ** [_category_from_slug] *)
(* ===================================================================== *)

Lemma before_dash_app (cat rest : string) :
  dashless cat -> Account.before_dash (cat ++ String "-" rest) = cat.
Proof.
  unfold dashless. induction cat as [|c cat IH]; simpl; intros H; [done |].
  destruct (Ascii.eqb_spec c "-") as [->|Hne].
  - exfalso. by apply (H "-"%char); [left |].
  - f_equal. apply IH. intros c' Hc'. apply H. by right.
Qed.

Lemma before_dash_dashless (s : string) : dashless (Account.before_dash s).
Proof.
  unfold dashless. induction s as [|c s IH]; simpl; [done |].
  destruct (Ascii.eqb_spec c "-") as [->|Hne]; simpl; [done |].
  intros c' [<-|Hc']; [done | by apply IH].
Qed.

Lemma before_dash_prefix (s : string) : String.prefix (Account.before_dash s) s = true.
Proof.
  induction s as [|c s IH]; simpl; [done |].
  destruct (Ascii.eqb_spec c "-") as [->|Hne]; simpl; [done |].
  by destruct (ascii_dec c c).
Qed.

Lemma before_dash_fixed (s : string) : dashless s -> Account.before_dash s = s.
Proof.
  unfold dashless. induction s as [|c s IH]; simpl; intros H; [done |].
  destruct (Ascii.eqb_spec c "-") as [->|Hne].
  - exfalso. by apply (H "-"%char); [left |].
  - f_equal. apply IH. intros c' Hc'. apply H. by right.
Qed.

(** X11.  [_category_from_slug] returns the text before the first dash:
    for a slug [cat-rest] with no dash in [cat] it is [cat].  Its result
    is always a prefix of the slug without a dash, and a fixed point: a
    category is its own category. *)
Theorem category_is_dashless_prefix :
  (forall cat rest : string,
     dashless cat -> Account._category_from_slug (cat ++ "-" ++ rest) = cat)
  /\ (forall slug : string,
        String.prefix (Account._category_from_slug slug) slug = true
        /\ dashless (Account._category_from_slug slug)
        /\ Account._category_from_slug (Account._category_from_slug slug)
           = Account._category_from_slug slug).
Proof.
  split.
  - intros cat rest Hc. unfold Account._category_from_slug.
    change ("-" ++ rest)%string with (String "-" rest).
    destruct (cat ++ String "-" rest)%string eqn:Hs.
    + by destruct cat.
    + rewrite <- Hs. by apply before_dash_app.
  - intros slug. unfold Account._category_from_slug at 1 2 4.
    destruct slug as [|c s]; [split_and!; [done | by intros ? [] | done] |].
    split_and!; [apply before_dash_prefix | apply before_dash_dashless |].
    unfold Account._category_from_slug.
    destruct (Account.before_dash (String c s)) eqn:Hb; [done |].
    rewrite <- Hb. apply before_dash_fixed, before_dash_dashless.
Qed.

Lemma category_is_dashless_prefix_witness :
  Account._category_from_slug ("nba" ++ "-" ++ "finals-2024") = "nba".
Proof.
  apply (proj1 category_is_dashless_prefix "nba" "finals-2024").
  intros c Hc. simpl in Hc.
  repeat (destruct Hc as [<-|Hc]; [discriminate |]). destruct Hc.
Defined.

(* ===================================================================== *)
(** ** [get_open_positions]: where title and category come from *)
(* ===================================================================== *)

(** [meta] keeps, for every market, the title and slug of its first TRADE
    activity. *)
Lemma bucket_meta_from activities st0 st :
  Py.for_each Account.bucket_fills_step activities st0 = OK st ->
  forall cid,
    snd st !! cid =
      match snd st0 !! cid with
      | Some m => Some m
      | None =>
          a ← head (market_trades cid activities);
          title ← a !! "title"; slug ← a !! "slug"; Some (title, slug)
      end.
Proof.
  revert st0. induction activities as [|a acts IH]; intros st0; simpl.
  - intros [= <-] cid. by destruct (snd st0 !! cid).
  - intros H cid. bind_ok H st1 Hst1. rewrite (IH _ H). clear IH H.
    unfold Account.bucket_fills_step in Hst1. bind_ok Hst1 ty Hty.
    apply getitem_OK in Hty. unfold market_trades. rewrite filter_cons.
    destruct (decide (ty = "TRADE")) as [->|Hne].
    + bind_ok Hst1 c Hc. bind_ok Hst1 out Hout. apply getitem_OK in Hc, Hout.
      destruct (snd st0 !! c) as [m|] eqn:Hm.
      * injection Hst1 as <-. simpl.
        destruct (snd st0 !! cid) as [m'|] eqn:Hm'; [done |].
        rewrite decide_False; [done |]. intros [_ Hc']. congruence.
      * bind_ok Hst1 title Ht. bind_ok Hst1 slug Hs. apply getitem_OK in Ht, Hs.
        injection Hst1 as <-. simpl.
        destruct (decide (c = cid)) as [->|Hcc].
        -- rewrite lookup_insert_eq, Hm, decide_True by done. simpl.
           by rewrite Ht, Hs.
        -- rewrite lookup_insert_ne by done.
           rewrite decide_False; [done |]. intros [_ Hc']. congruence.
    + injection Hst1 as <-.
      rewrite decide_False; [done |]. intros [Hty' _]. congruence.
Qed.

Lemma open_raw_entry_meta E redeemed meta key fills r :
  Account.open_raw_entry E redeemed meta key fills = OK (Some r) ->
  Account.or_conditionId r = fst key
  /\ meta !! fst key = Some (Account.or_title r, Account.or_slug r).
Proof.
  unfold Account.open_raw_entry. intros H.
  destruct (decide (fst key ∈ redeemed)) as [|Hnot]; [done |].
  bind_ok H buys Hbuys. bind_ok H sells Hsells.
  bind_ok H tb Htb. bind_ok H tsl Htsl.
  destruct (Dec.leb _ _) eqn:Hnet; [done |].
  bind_ok H tv Htv. bind_ok H lbt Hlbt. bind_ok H m Hm.
  apply or_raise_OK in Hm. injection H as <-. simpl. by destruct m.
Qed.

(** X12.  The title of a position is the [title] of the first TRADE
    activity of its market in the feed, of whatever outcome, and its
    category is [_category_from_slug] of the [slug] of that activity. *)
Theorem position_title_from_first_trade E (activities : list Account.record)
    (markets : option (list Account.market_info)) (positions : list Position)
    (p : Position) :
  Account.get_open_positions E activities markets = OK positions ->
  p ∈ positions ->
  exists a rest slug,
    market_trades (p_market p) activities = a :: rest
    /\ a !! "title" = Some (p_market_title p)
    /\ a !! "slug" = Some slug
    /\ p_category p = Account._category_from_slug slug.
Proof.
  unfold Account.get_open_positions. intros H Hp. bind_ok H raw Hraw.
  injection H as <-. apply list_elem_of_omap in Hp as (r & Hr & Hp).
  unfold Account.open_raw in Hraw.
  bind_ok Hraw redeemed Hred. bind_ok Hraw st Hst. bind_ok Hraw entries Hent.
  apply sorted_desc_OK in Hraw as [Hperm _]. rewrite Hperm in Hr.
  apply list_elem_of_omap in Hr as (o & Ho & Hsome). unfold Datatypes.id in Hsome.
  subst o.
  destruct (mapM_OK_elem_r _ _ _ _ Hent Ho) as ([key fills] & Hb & Hentry).
  simpl in Hentry. apply open_raw_entry_meta in Hentry as [Hcid Hmeta].
  simpl in Hcid, Hmeta.
  rewrite (bucket_meta_from _ _ _ Hst) in Hmeta. simpl in Hmeta.
  rewrite lookup_empty in Hmeta.
  assert (p_market p = fst key /\ p_market_title p = Account.or_title r
          /\ p_category p = Account._category_from_slug (Account.or_slug r))
    as (-> & -> & ->).
  { unfold Account.position_of in Hp. destruct (Dec.leb _ _); [done |].
    injection Hp as <-. simpl. by rewrite Hcid. }
  destruct (market_trades (fst key) activities) as [|a rest]; [done |].
  simpl in Hmeta.
  destruct (a !! "title") as [title|] eqn:Ht; [| done]. simpl in Hmeta.
  destruct (a !! "slug") as [slug|] eqn:Hs; [| done]. simpl in Hmeta.
  injection Hmeta as <- <-. exists a, rest, slug. done.
Qed.

Lemma position_title_from_first_trade_witness :
  map p_market_title c6_positions = ["Some market"]
  /\ forall p, p ∈ c6_positions ->
       exists a rest slug,
         market_trades (p_market p) c6_activities = a :: rest
         /\ a !! "title" = Some (p_market_title p)
         /\ a !! "slug" = Some slug
         /\ p_category p = Account._category_from_slug slug.
Proof.
  split; [reflexivity |]. intros p Hp.
  apply (position_title_from_first_trade Std.env c6_activities
           (c6_markets "0.01" "0.99") c6_positions p);
    [vm_compute; reflexivity | exact Hp].
Defined.

(* ===================================================================== *)
(** ** [quantize] and [unit_bet] *)
(* ===================================================================== *)

Lemma ndigits_fits (n : Z) : Z.abs n < 10 ^ Dec.prec -> Dec.ndigits (Z.abs n) <= Dec.prec.
Proof. intros H. apply ndigits_le; [apply Z.abs_nonneg | done | done]. Qed.

(** Five percent of a balance, when the product needs no rounding. *)
Lemma five_percent_exact (balance : Dec.t) :
  Z.abs (Dec.coef balance * 5) < 10 ^ Dec.prec ->
  (balance * Sizing._FRACTION)%dec
  = Dec.mk (Dec.coef balance * 5) (Dec.expo balance + - 2).
Proof. intros H. unfold Dec.mul. by rewrite round_ctx_fits. Qed.

Lemma unit_bet_exact (balance : Dec.t) :
  Dec.expo balance <= 0 ->
  Z.abs (Dec.coef balance * 5) < 10 ^ Dec.prec ->
  Sizing.unit_bet balance
  = OK (Dec.mk (Z.quot (Dec.coef balance * 5) (10 ^ (- Dec.expo balance))) (- 2)).
Proof.
  intros He Hfit. unfold Sizing.unit_bet. rewrite five_percent_exact by done.
  set (c := Dec.coef balance * 5) in *. set (e := Dec.expo balance) in *.
  pose proof (pow10_pos (- e) ltac:(lia)) as Hp.
  unfold Decimal.quantize. cbn [Dec.coef Dec.expo Dec.lit].
  change (Z.opp 2) with (-2).
  destruct (Z.eqb_spec c 0) as [->|Hc]; [by rewrite Z.quot_0_l by lia |].
  pose proof (ndigits_fits c Hfit) as Hnd.
  destruct (Z.ltb_spec Dec.prec (Dec.ndigits (Z.abs c) + (e + - 2) - - 2)); [lia |].
  assert (Decimal.rescale (Dec.mk c (e + - 2)) (- 2) Decimal.ROUND_DOWN
          = Dec.mk (Z.quot c (10 ^ (- e))) (- 2)) as ->.
  { unfold Decimal.rescale. cbn [Dec.coef Dec.expo].
    destruct (Z.leb_spec (- 2) (e + - 2)).
    - replace e with 0 by lia. simpl. f_equal. rewrite Z.quot_1_r. lia.
    - replace (- 2 - (e + - 2)) with (- e) by lia. f_equal.
      rewrite Z.quot_div by lia. rewrite (Z.sgn_pos (10 ^ (- e))) by lia.
      rewrite (Z.abs_eq (10 ^ (- e))) by lia. lia. }
  cbn [Dec.coef]. simpl or_raise.
  assert (Z.abs (Z.quot c (10 ^ (- e))) <= Z.abs c) as Hle.
  { rewrite <- Z.quot_abs by lia. rewrite (Z.abs_eq (10 ^ (- e))) by lia.
    rewrite Z.quot_div_nonneg by lia. apply Z.div_le_upper_bound; nia. }
  assert (Dec.ndigits (Z.abs (Z.quot c (10 ^ (- e)))) <= Dec.prec) as Hnd'
    by (apply ndigits_fits; lia).
  destruct (Z.ltb_spec Dec.prec (Dec.ndigits (Z.abs (Z.quot c (10 ^ (- e)))))); [lia |].
  done.
Qed.

(** X13.  [unit_bet] returns an amount with exactly two decimal places.
    For a balance [c * 10 ^ e] with [e <= 0] whose twentieth needs no
    rounding, that amount is [5 * c / 10 ^ (-e)] cents cut towards zero:
    for a balance that is not negative it is at most 5% of the balance
    and less than one cent below it. *)
Theorem unit_bet_is_five_percent_cut (balance : Dec.t) :
  (forall r, Sizing.unit_bet balance = OK r -> Dec.expo r = - 2)
  /\ (Dec.expo balance <= 0 ->
      Z.abs (Dec.coef balance * 5) < 10 ^ Dec.prec ->
      Sizing.unit_bet balance
      = OK (Dec.mk (Z.quot (Dec.coef balance * 5) (10 ^ (- Dec.expo balance))) (- 2)))
  /\ (0 <= Dec.coef balance -> Dec.expo balance <= 0 ->
      Z.abs (Dec.coef balance * 5) < 10 ^ Dec.prec ->
      exists r,
        Sizing.unit_bet balance = OK r
        /\ Dec.coef r * 10 ^ (- Dec.expo balance) <= Dec.coef balance * 5
           < (Dec.coef r + 1) * 10 ^ (- Dec.expo balance)).
Proof.
  split_and!.
  - intros r. unfold Sizing.unit_bet, Decimal.quantize.
    destruct (Dec.coef _ =? 0); [by intros [= <-] |].
    destruct (Dec.prec <? _); [done |].
    destruct (Dec.prec <? _); [done |]. intros [= <-].
    unfold Decimal.rescale. by destruct (_ <=? _).
  - apply unit_bet_exact.
  - intros Hc He Hfit. eexists. split; [by apply unit_bet_exact |].
    cbn [Dec.coef].
    pose proof (pow10_pos (- Dec.expo balance) ltac:(lia)) as Hp.
    rewrite Z.quot_div_nonneg by lia.
    pose proof (Z.mul_div_le (Dec.coef balance * 5) _ Hp).
    pose proof (Z.mul_succ_div_gt (Dec.coef balance * 5) _ Hp).
    lia.
Qed.

Lemma unit_bet_is_five_percent_cut_witness :
  Sizing.unit_bet (Dec.lit 12345678 6) = OK (Dec.lit 61 2).
Proof.
  apply (proj1 (proj2 (unit_bet_is_five_percent_cut (Dec.lit 12345678 6)))).
  - vm_compute. discriminate.
  - vm_compute. reflexivity.
Defined.

(* ===================================================================== *)
(** ** [get_balance] *)
(* ===================================================================== *)

(** What stripping the trailing zeros of a quotient keeps and reaches. *)
Lemma strip_zeros_spec (fuel : nat) (c e ideal : Z) :
  let r := Dec.strip_zeros fuel c e ideal in
  c = fst r * 10 ^ (snd r - e) /\ e <= snd r /\ (e <= ideal -> snd r <= ideal).
Proof.
  revert c e. induction fuel as [|fuel IH]; intros c e; simpl.
  - rewrite Z.sub_diag. simpl. lia.
  - destruct (Z.ltb_spec e ideal) as [Hlt|Hge]; simpl;
      [| rewrite Z.sub_diag; simpl; lia].
    destruct (Z.eqb_spec (c mod 10) 0) as [Hmod|Hmod]; simpl;
      [| rewrite Z.sub_diag; simpl; lia].
    destruct (IH (c / 10) (e + 1)) as (H1 & H2 & H3).
    set (r := Dec.strip_zeros fuel (c / 10) (e + 1) ideal) in *.
    split_and!; [| lia | lia].
    replace (snd r - e) with (Z.succ (snd r - (e + 1))) by lia.
    rewrite Z.pow_succ_r by lia.
    pose proof (Z.div_mod c 10 ltac:(lia)). lia.
Qed.

(** A coefficient that ends in [m] zeros loses at least [m] of them. *)
Lemma strip_zeros_reaches (fuel : nat) (d e ideal m : Z) :
  0 <= m <= Z.of_nat fuel -> e + m <= ideal ->
  e + m <= snd (Dec.strip_zeros fuel (d * 10 ^ m) e ideal).
Proof.
  revert d e m. induction fuel as [|fuel IH]; intros d e m Hm He; simpl.
  - lia.
  - destruct (Z.eq_dec m 0) as [->|Hnz].
    { pose proof (strip_zeros_spec (S fuel) (d * 10 ^ 0) e ideal) as (_ & H & _).
      simpl in H. lia. }
    destruct (Z.ltb_spec e ideal) as [Hlt|Hge]; [| lia]. simpl.
    replace m with (Z.succ (m - 1)) by lia. rewrite Z.pow_succ_r by lia.
    replace (d * (10 * 10 ^ (m - 1))) with (d * 10 ^ (m - 1) * 10) by lia.
    rewrite Z.mod_mul by lia. simpl. rewrite Z.div_mul by lia.
    specialize (IH d (e + 1) (m - 1) ltac:(lia) ltac:(lia)). lia.
Qed.

(** An integer number of millionths, divided by a million. *)
Lemma millionths_exact (n : Z) :
  Z.abs n < 10 ^ Dec.prec ->
  let r := Dec.quot (Dec.mk n 0) (Dec.of_Z 1000000) in
  - 6 <= Dec.expo r <= 0 /\ Dec.coef r * 10 ^ (Dec.expo r + 6) = n.
Proof.
  intros Hfit. unfold Dec.quot. cbn [Dec.coef Dec.expo Dec.of_Z].
  change (Z.sgn 1000000) with 1. change (Z.abs 1000000) with 1000000.
  change (Dec.ndigits 1000000) with 7. rewrite Z.sub_diag.
  destruct (Z.eqb_spec (Z.abs n) 0) as [Hz|Hnz].
  { assert (n = 0) as -> by lia.
    change (Dec.round_ctx (Dec.mk 0 0)) with (Dec.mk 0 0).
    cbn [Dec.coef Dec.expo]. lia. }
  pose proof (ndigits_spec (Z.abs n) (Z.abs_nonneg n)) as (Hd1 & _ & _).
  pose proof (ndigits_fits n Hfit) as Hd2. unfold Dec.prec in *.
  set (shift := 7 - Dec.ndigits (Z.abs n) + 28 + 1).
  assert (8 <= shift) as Hshift by (unfold shift; lia).
  destruct (Z.leb_spec 0 shift); [| lia].
  assert (Z.abs n * 10 ^ shift = Z.abs n * 10 ^ (shift - 6) * 1000000) as Hnum.
  { replace shift with ((shift - 6) + 6) at 1 by lia.
    rewrite Z.pow_add_r by lia. change (10 ^ 6) with 1000000. lia. }
  rewrite Hnum, Z.mod_mul, Z.div_mul by lia. simpl (0 =? 0).
  pose proof (strip_zeros_spec (Z.to_nat (0 - (0 - shift)))
                (Z.abs n * 10 ^ (shift - 6)) (0 - shift) 0) as (Hval & Hlo & Hhi).
  pose proof (strip_zeros_reaches (Z.to_nat (0 - (0 - shift))) (Z.abs n)
                (0 - shift) 0 (shift - 6) ltac:(lia) ltac:(lia)) as Hmin.
  destruct (Dec.strip_zeros _ _ _ _) as [c e']. simpl in Hval, Hlo, Hhi, Hmin.
  specialize (Hhi ltac:(lia)).
  assert (c * 10 ^ (e' + 6) = Z.abs n) as Hc.
  { pose proof (pow10_pos (shift - 6) ltac:(lia)) as Hp.
    apply (Z.mul_reg_r _ _ (10 ^ (shift - 6))); [lia |].
    rewrite Hval, <- Z.mul_assoc, <- Z.pow_add_r by lia.
    do 2 f_equal. lia. }
  pose proof (pow10_pos (e' + 6) ltac:(lia)) as Hp.
  assert (0 <= c <= Z.abs n) as Hcb by nia.
  rewrite round_ctx_fits.
  - cbn [Dec.coef Dec.expo]. split; [lia |].
    rewrite Z.mul_1_r, <- Z.mul_assoc, Hc.
    destruct (Z.abs_spec n) as [[? ->]|[? ->]]; [rewrite Z.sgn_pos | rewrite Z.sgn_neg];
      lia.
  - cbn [Dec.coef]. unfold Dec.prec. rewrite Z.mul_1_r, Z.abs_mul.
    destruct (Z.sgn_spec n) as [[_ ->]|[[_ ->]|[_ ->]]]; simpl Z.abs; lia.
Qed.

Lemma get_balance_exact E (raw : Account.record) (s : string) (n : Z) :
  raw !! "balance" = Some s -> Py.Decimal_of_str E s = Some (Dec.mk n 0) ->
  Z.abs n < 10 ^ Dec.prec ->
  exists r,
    AccountService.get_balance E raw = OK r
    /\ - 6 <= Dec.expo r <= 0 /\ Dec.coef r * 10 ^ (Dec.expo r + 6) = n.
Proof.
  intros Hraw Hs Hfit. unfold AccountService.get_balance, Account.to_Decimal.
  rewrite Hraw, Hs. simpl. eexists. split; [done |]. by apply millionths_exact.
Qed.

(** X14.  [get_balance] divides the [balance] field by a million: for a
    field that spells an integer [n] of fewer than 29 digits the result
    has at most six decimal places and is worth exactly [n] millionths.
    A missing field counts as 0: it is no [KeyError]. *)
Theorem get_balance_is_millionths E (raw : Account.record) :
  (forall s n,
     raw !! "balance" = Some s -> Py.Decimal_of_str E s = Some (Dec.mk n 0) ->
     Z.abs n < 10 ^ Dec.prec ->
     exists r,
       AccountService.get_balance E raw = OK r
       /\ places 6 r /\ units 6 r = n)
  /\ (raw !! "balance" = None -> AccountService.get_balance E raw = OK (Dec.of_Z 0)).
Proof.
  split.
  - intros s n Hraw Hs Hfit.
    destruct (get_balance_exact E raw s n Hraw Hs Hfit) as (r & Hr & He & Hc).
    exists r. unfold places, units. split_and!; [done | lia | done].
  - intros Hraw. unfold AccountService.get_balance. by rewrite Hraw.
Qed.

Lemma get_balance_is_millionths_witness :
  exists r,
    AccountService.get_balance Std.env balance_answer = OK r
    /\ places 6 r /\ units 6 r = 12345678.
Proof.
  apply (proj1 (get_balance_is_millionths Std.env balance_answer) "12345678").
  - vm_compute. reflexivity.
  - vm_compute. reflexivity.
  - vm_compute. reflexivity.
Defined.

(** X15.  The unit bet of a balance of [n] millionths, [0 <= n] of fewer
    than 28 digits, is [n / 200000] cents, rounded down: [get_balance]
    followed by [unit_bet] loses nothing but the fraction of a cent. *)
Theorem unit_bet_of_balance E (raw : Account.record) (s : string) (n : Z) :
  raw !! "balance" = Some s -> Py.Decimal_of_str E s = Some (Dec.mk n 0) ->
  0 <= n < 10 ^ 27 ->
  AccountService.get_balance E raw ≫= Sizing.unit_bet
  = OK (Dec.mk (n / 200000) (- 2)).
Proof.
  intros Hraw Hs Hn.
  destruct (get_balance_exact E raw s n Hraw Hs) as (r & -> & He & Hc);
    [unfold Dec.prec; lia |].
  simpl. pose proof (pow10_pos (Dec.expo r + 6) ltac:(lia)) as Hp.
  pose proof (pow10_pos (- Dec.expo r) ltac:(lia)) as Hq.
  assert (0 <= Dec.coef r <= n) as Hcb by nia.
  rewrite unit_bet_exact; [| lia | unfold Dec.prec; lia].
  do 2 f_equal. rewrite Z.quot_div_nonneg by lia.
  rewrite <- (Z.div_mul_cancel_l n 200000 5) by lia.
  change (5 * 200000) with (10 ^ 6).
  replace 6 with (- Dec.expo r + (Dec.expo r + 6)) at 1 by lia.
  rewrite Z.pow_add_r by lia.
  replace (5 * n) with (Dec.coef r * 5 * 10 ^ (Dec.expo r + 6)) by lia.
  by rewrite Z.div_mul_cancel_r by lia.
Qed.

Lemma unit_bet_of_balance_witness :
  AccountService.get_balance Std.env balance_answer ≫= Sizing.unit_bet
  = OK (Dec.lit 61 2).
Proof.
  apply (unit_bet_of_balance Std.env balance_answer "12345678" 12345678).
  - vm_compute. reflexivity.
  - vm_compute. reflexivity.
  - lia.
Defined.

(* ===================================================================== *)
(** ** [_enrich_trades] and [get_last_trades] *)
(* ===================================================================== *)

Lemma descending_app (k1 k2 : list Z) :
  descending (k1 ++ k2) ->
  descending k1 /\ descending k2 /\ forall a b, a ∈ k1 -> b ∈ k2 -> b <= a.
Proof.
  unfold descending. induction k1 as [|x k1 IH]; simpl; intros H.
  - split_and!; [constructor | done |]. intros a b Ha. by apply elem_of_nil in Ha.
  - apply StronglySorted_inv in H as [H Hall].
    destruct (IH H) as (H1 & H2 & H3). rewrite Forall_app in Hall.
    destruct Hall as [Hall1 Hall2]. split_and!; [by constructor | done |].
    intros a b [->|Ha]%elem_of_cons Hb; [| by apply H3].
    rewrite Forall_forall in Hall2. by apply Hall2.
Qed.

Lemma slice_to_nonneg {A} (n : Z) (xs : list A) :
  0 <= n -> Builtins.slice_to n xs = take (Z.to_nat n) xs.
Proof. intros H. unfold Builtins.slice_to. by destruct (Z.leb_spec 0 n); [| lia]. Qed.

Lemma _enrich_trades_map (trades : list Trade) markets :
  AccountService._enrich_trades trades markets
  = map (AccountService.enrich (AccountService.gamma_market_map markets)) trades.
Proof. by destruct trades. Qed.

Lemma enrich_replaces mp (t : Trade) :
  AccountService.enrich mp t
  = AccountService.replace_title_category t
      (market_title (AccountService.enrich mp t))
      (category (AccountService.enrich mp t)).
Proof. reflexivity. Qed.

(** What [get_last_trades] computes before it enriches. *)
Lemma get_last_trades_OK E raw markets n out :
  AccountService.get_last_trades E raw markets n = OK out ->
  exists all_trades sorted ks,
    Account.get_trades E raw = OK all_trades
    /\ sorted ≡ₚ filter (fun t => status t ∈ AccountService._SETTLED) all_trades
    /\ mapM (fun t => Pnl.int E (match_time t)) sorted = OK ks
    /\ descending ks
    /\ out = map (AccountService.enrich (AccountService.gamma_market_map markets))
               (Builtins.slice_to n sorted).
Proof.
  unfold AccountService.get_last_trades. intros H.
  bind_ok H all_trades Hall. bind_ok H settled Hs.
  apply fmap_OK in Hs as (sorted & Hsorted & ->).
  apply sorted_desc_OK in Hsorted as (Hperm & ks & Hks & Hdesc).
  injection H as <-. rewrite _enrich_trades_map. by exists all_trades, sorted, ks.
Qed.

(** X16.  For [0 <= n], [get_last_trades(n)] returns the [n] newest
    settled fills, or all of them when there are fewer: every Trade it
    returns is a fill of [get_trades] with a settled status, changed at
    most in title and category; the Trades are in descending order of
    [int(match_time)]; and a settled fill that is left out is no newer
    than any Trade returned. *)
Theorem last_trades_are_newest_settled E (raw : list Account.record)
    (markets : option (list Account.record)) (n : Z) (out : list Trade) :
  AccountService.get_last_trades E raw markets n = OK out -> 0 <= n ->
  exists all_trades,
    Account.get_trades E raw = OK all_trades
    /\ length out
       = Nat.min (Z.to_nat n)
           (length (filter (fun t => status t ∈ AccountService._SETTLED) all_trades))
    /\ (forall t, t ∈ out ->
          status t ∈ AccountService._SETTLED
          /\ exists t0,
               t0 ∈ all_trades
               /\ t = AccountService.replace_title_category t0
                        (market_title t) (category t))
    /\ (exists ks,
          mapM (fun t => Pnl.int E (match_time t)) out = OK ks /\ descending ks)
    /\ (forall t0, t0 ∈ all_trades -> status t0 ∈ AccountService._SETTLED ->
          (exists t,
             t ∈ out
             /\ t = AccountService.replace_title_category t0
                      (market_title t) (category t))
          \/ (forall t, t ∈ out ->
                exists z0 z,
                  Pnl.int E (match_time t0) = OK z0
                  /\ Pnl.int E (match_time t) = OK z /\ z0 <= z)).
Proof.
  intros H Hn.
  apply get_last_trades_OK in H
    as (all_trades & sorted & ks & Hall & Hperm & Hks & Hdesc & ->).
  rewrite slice_to_nonneg by done. set (k := Z.to_nat n).
  set (mp := AccountService.gamma_market_map markets).
  exists all_trades.
  apply mapM_OK_Forall2 in Hks.
  pose proof (Forall2_take _ _ _ k Hks) as Hks1.
  pose proof (Forall2_drop _ _ _ k Hks) as Hks2.
  rewrite <- (take_drop k ks) in Hdesc.
  apply descending_app in Hdesc as (Hd1 & _ & Hd3).
  split_and!.
  - done.
  - rewrite length_map, length_take. by rewrite Hperm.
  - intros t (t0 & -> & Ht0)%list_elem_of_fmap.
    assert (t0 ∈ sorted) as Hin
      by (rewrite <- (take_drop k sorted); apply elem_of_app; by left).
    rewrite Hperm in Hin. apply list_elem_of_filter in Hin as [Hst Hin].
    split; [done |]. exists t0. split; [done | apply enrich_replaces].
  - exists (take k ks). split; [| done]. apply mapM_OK_Forall2.
    apply Forall2_fmap_l. eapply Forall2_impl; [exact Hks1 |]. done.
  - intros t0 Hin Hst.
    assert (t0 ∈ sorted) as Hs by (rewrite Hperm; by apply list_elem_of_filter).
    rewrite <- (take_drop k sorted) in Hs. apply elem_of_app in Hs as [Hs|Hs].
    + left. exists (AccountService.enrich mp t0).
      split; [by apply list_elem_of_fmap_2 | apply enrich_replaces].
    + right. intros t (t1 & -> & Ht1)%list_elem_of_fmap.
      apply list_elem_of_lookup_1 in Hs as [i Hi].
      destruct (Forall2_lookup_l _ _ _ _ _ Hks2 Hi) as (z0 & Hz0 & Hk0).
      apply list_elem_of_lookup_1 in Ht1 as [j Hj].
      destruct (Forall2_lookup_l _ _ _ _ _ Hks1 Hj) as (z & Hz & Hk).
      exists z0, z. split_and!; [done | done |].
      apply Hd3; by eapply list_elem_of_lookup_2.
Qed.

Lemma last_trades_are_newest_settled_witness :
  exists out,
    AccountService.get_last_trades Std.env raw_fills (Some gamma_answer) 2 = OK out
    /\ map match_time out = ["300"; "200"]
    /\ map market_title out = ["A title"; "Will A win?"]
    /\ forall t, t ∈ out -> status t ∈ AccountService._SETTLED.
Proof.
  eexists. split; [vm_compute; reflexivity |].
  split; [reflexivity |]. split; [reflexivity |]. intros t Ht.
  destruct (last_trades_are_newest_settled Std.env raw_fills (Some gamma_answer) 2 _
              ltac:(vm_compute; reflexivity) ltac:(lia))
    as (all_trades & _ & _ & Hout & _).
  by apply Hout.
Defined.

Lemma trade_of_fill_no_meta E (t : Account.record) (tr : Trade) :
  Account.trade_of_fill E t = OK tr -> market_title tr = "" /\ category tr = "".
Proof.
  unfold Account.trade_of_fill. intros H.
  repeat (apply bind_OK in H as (? & _ & H)). by injection H as <-.
Qed.

Lemma enrich_nothing (t : Trade) :
  market_title t = "" -> category t = "" -> AccountService.enrich ∅ t = t.
Proof.
  intros Ht Hc. unfold AccountService.enrich. rewrite lookup_empty. simpl.
  unfold AccountService.get_or, Account.get. rewrite !lookup_empty.
  destruct t. simpl in *. by subst.
Qed.

Lemma slice_to_elem {A} (n : Z) (xs : list A) (x : A) :
  x ∈ Builtins.slice_to n xs -> x ∈ xs.
Proof.
  unfold Builtins.slice_to.
  destruct (0 <=? n); intros H;
    match type of H with
    | _ ∈ take ?k _ => rewrite <- (take_drop k xs); apply elem_of_app; by left
    end.
Qed.

(** X17.  When the Gamma service raises or returns no market,
    [get_last_trades] returns the newest settled fills as [get_trades]
    built them, with empty title and category: a failed enrichment
    costs nothing else. *)
Theorem last_trades_without_gamma E (raw : list Account.record) (n : Z) :
  AccountService.get_last_trades E raw None n
  = (all_trades ← Account.get_trades E raw;
     Builtins.slice_to n <$>
       Py.sorted_desc (fun t => Pnl.int E (match_time t))
         (filter (fun t => status t ∈ AccountService._SETTLED) all_trades))
  /\ AccountService.get_last_trades E raw (Some []) n
     = AccountService.get_last_trades E raw None n.
Proof.
  split; [| done]. unfold AccountService.get_last_trades.
  destruct (Account.get_trades E raw) as [all_trades|e] eqn:Hall; simpl; [| done].
  destruct (Py.sorted_desc _ _) as [sorted|e] eqn:Hs; simpl; [| done].
  f_equal. rewrite _enrich_trades_map. simpl.
  apply sorted_desc_OK in Hs as [Hperm _].
  rewrite <- (map_id (Builtins.slice_to n sorted)) at 2.
  apply map_ext_in. intros t Ht%list_elem_of_In%slice_to_elem.
  rewrite Hperm in Ht. apply list_elem_of_filter in Ht as [_ Ht].
  destruct (mapM_OK_elem_r _ _ _ _ Hall Ht) as (r & _ & Hr).
  apply trade_of_fill_no_meta in Hr as [? ?]. by apply enrich_nothing.
Qed.

Lemma gamma_market_map_from (ms : list Account.record)
    (mp : gmap string Account.record) (cid : string) :
  fold_left (fun mp m => <[Account.get m "conditionId" "" := m]> mp) ms mp !! cid
  = match last (filter (fun m => Account.get m "conditionId" "" = cid) ms) with
    | Some m => Some m
    | None => mp !! cid
    end.
Proof.
  revert mp. induction ms as [|m ms IH]; intros mp; simpl; [done |].
  rewrite IH, filter_cons.
  destruct (decide (Account.get m "conditionId" "" = cid)) as [Hk|Hk].
  - rewrite last_cons. destruct (last (filter _ ms)); [done |].
    by rewrite Hk, lookup_insert_eq.
  - destruct (last (filter _ ms)); [done |]. by rewrite lookup_insert_ne.
Qed.

(** X18.  [_enrich_trades] returns as many Trades as it is given, in the
    same order, each changed at most in title and category, so with the
    same [trade_pnl].  For a market the title is [question] of its record
    in the Gamma answer, or [title] when [question] is missing or empty,
    or the empty string; the category is [_category_from_slug] of [slug];
    of several records with one [conditionId] the last one counts. *)
Theorem enrich_changes_title_and_category_only (trades : list Trade)
    (markets : option (list Account.record)) :
  Forall2
    (fun t t' =>
       t' = AccountService.replace_title_category t (market_title t') (category t'))
    trades (AccountService._enrich_trades trades markets)
  /\ map Pnl.trade_pnl (AccountService._enrich_trades trades markets)
     = map Pnl.trade_pnl trades
  /\ forall ms,
       markets = Some ms ->
       AccountService._enrich_trades trades markets
       = map (fun t =>
                let info := gamma_record ms (market t) in
                AccountService.replace_title_category t
                  (AccountService.get_or info "question"
                     (AccountService.get_or info "title" ""))
                  (Account._category_from_slug (Account.get info "slug" "")))
           trades.
Proof.
  rewrite _enrich_trades_map. split_and!.
  - apply Forall2_fmap_r, Forall_Forall2_diag, Forall_forall. intros t _.
    apply enrich_replaces.
  - rewrite map_map. by apply map_ext.
  - intros ms ->. apply map_ext. intros t.
    unfold AccountService.enrich, gamma_record, AccountService.gamma_market_map.
    rewrite gamma_market_map_from, lookup_empty.
    by destruct (last (filter _ ms)).
Qed.

Lemma enrich_changes_title_and_category_only_witness :
  map market_title
    (AccountService._enrich_trades
       [a_fill "0xA" "Yes" "BUY" (Dec.of_Z 1) (Dec.lit 5 1) (Dec.of_Z 0) "100";
        a_fill "0xC" "Yes" "BUY" (Dec.of_Z 1) (Dec.lit 5 1) (Dec.of_Z 0) "300";
        a_fill "0xD" "Yes" "BUY" (Dec.of_Z 1) (Dec.lit 5 1) (Dec.of_Z 0) "200"]
       (Some gamma_answer))
  = ["Will A win?"; "A title"; ""].
Proof.
  rewrite (proj2 (proj2 (enrich_changes_title_and_category_only _ _))
             gamma_answer eq_refl).
  vm_compute. reflexivity.
Defined.

(* ===================================================================== *)
(** ** [_trunc] *)
(* ===================================================================== *)

Lemma len_app (s1 s2 : string) :
  Str.len (s1 ++ s2) = (Str.len s1 + Str.len s2)%nat.
Proof.
  induction s1 as [|c s1 IH]; simpl; [done |]. rewrite IH.
  destruct (Str.is_continuation c); lia.
Qed.

Lemma len_take_chars (k : nat) (s : string) :
  Str.len (Str.take_chars k s) = Nat.min k (Str.len s).
Proof.
  revert k. induction s as [|c s IH]; intros k; simpl; [lia |].
  destruct (Str.is_continuation c) eqn:Hc; simpl.
  - rewrite Hc. apply IH.
  - destruct k as [|k]; simpl; [done |]. rewrite Hc, IH. lia.
Qed.

Lemma len_slice_to (n : Z) (s : string) :
  Z.of_nat (Str.len (Str.slice_to n s))
  = if 0 <=? n then Z.min n (Z.of_nat (Str.len s))
    else Z.max 0 (Z.of_nat (Str.len s) + n).
Proof.
  unfold Str.slice_to. destruct (Z.leb_spec 0 n); rewrite len_take_chars; lia.
Qed.

(** X19.  [_trunc] leaves a text of at most [width] characters alone.
    For [1 <= width] its result has [min(len(text), width)] characters,
    so it fits the width, and truncating it again changes nothing.  For
    [width <= 0] a longer text comes out with
    [max(1, len(text) + width)] characters: it does not fit. *)
Theorem trunc_fits_the_width (text : string) (width : Z) :
  (Z.of_nat (Str.len text) <= width -> Ui._trunc text width = text)
  /\ (1 <= width ->
      Z.of_nat (Str.len (Ui._trunc text width))
      = Z.min (Z.of_nat (Str.len text)) width)
  /\ (1 <= width -> Ui._trunc (Ui._trunc text width) width = Ui._trunc text width)
  /\ (width <= 0 -> width < Z.of_nat (Str.len text) ->
      Z.of_nat (Str.len (Ui._trunc text width))
      = Z.max 1 (Z.of_nat (Str.len text) + width)).
Proof.
  assert (1 <= width ->
          Z.of_nat (Str.len (Ui._trunc text width))
          = Z.min (Z.of_nat (Str.len text)) width) as Hlen.
  { intros Hw. unfold Ui._trunc.
    destruct (Z.leb_spec (Z.of_nat (Str.len text)) width); [lia |].
    rewrite len_app, Nat2Z.inj_add, len_slice_to.
    destruct (Z.leb_spec 0 (width - 1)); [| lia].
    change (Z.of_nat (Str.len Ui.ellipsis)) with 1. lia. }
  split_and!.
  - intros H. unfold Ui._trunc.
    by destruct (Z.leb_spec (Z.of_nat (Str.len text)) width); [| lia].
  - done.
  - intros Hw. specialize (Hlen Hw). unfold Ui._trunc at 1.
    by destruct (Z.leb_spec (Z.of_nat (Str.len (Ui._trunc text width))) width);
      [| lia].
  - intros Hw Hlong. unfold Ui._trunc.
    destruct (Z.leb_spec (Z.of_nat (Str.len text)) width); [lia |].
    rewrite len_app, Nat2Z.inj_add, len_slice_to.
    destruct (Z.leb_spec 0 (width - 1)); [lia |].
    change (Z.of_nat (Str.len Ui.ellipsis)) with 1. lia.
Qed.

Lemma trunc_fits_the_width_witness :
  Ui._trunc "Will the home team win?" 8 = ("Will th" ++ Ui.ellipsis)%string
  /\ Z.of_nat (Str.len (Ui._trunc "Will the home team win?" 8)) = 8.
Proof.
  split; [reflexivity |].
  rewrite (proj1 (proj2 (trunc_fits_the_width "Will the home team win?" 8)));
    [reflexivity | lia].
Defined.

(* ===================================================================== *)
(** ** The ids of the filter buttons *)
(* ===================================================================== *)

(** X20.  [_btn_suffix_to_cat] undoes [_cat_to_btn_suffix] on every
    category but ["other"], which comes back as the dash of the groups
    without a category; and [_cat_to_btn_suffix] undoes
    [_btn_suffix_to_cat] on every suffix but that dash. *)
Theorem btn_suffix_round_trip :
  (forall cat : string,
     Ui._btn_suffix_to_cat (Ui._cat_to_btn_suffix cat) = cat <-> cat <> "other")
  /\ (forall suffix : string,
        Ui._cat_to_btn_suffix (Ui._btn_suffix_to_cat suffix) = suffix
        <-> suffix <> Account.unknown_outcome)
  /\ Ui._btn_suffix_to_cat (Ui._cat_to_btn_suffix "other") = Account.unknown_outcome.
Proof.
  unfold Ui._btn_suffix_to_cat, Ui._cat_to_btn_suffix. split_and!.
  - intros cat. destruct (decide (cat = Account.unknown_outcome)) as [->|Hd].
    + rewrite decide_True by done. split; [done |]. done.
    + destruct (decide (cat = "other")) as [->|Ho]; [| done].
      split; [discriminate | done].
  - intros suffix. destruct (decide (suffix = "other")) as [->|Ho].
    + rewrite decide_True by done. split; [done |]. done.
    + destruct (decide (suffix = Account.unknown_outcome)) as [->|Hd]; [| done].
      split; [discriminate | done].
  - done.
Qed.

Lemma btn_suffix_round_trip_witness :
  Ui._btn_suffix_to_cat (Ui._cat_to_btn_suffix "nba") = "nba".
Proof. apply (proj1 btn_suffix_round_trip "nba"). discriminate. Defined.

(* ===================================================================== *)
(** ** The pages of the trades screen *)
(* ===================================================================== *)

Lemma page_groups_take_drop {A} (groups : list A) (page : Z) :
  0 <= page ->
  Ui.page_groups groups page = take 50 (drop (Z.to_nat (page * 50)) groups).
Proof.
  intros Hp. unfold Ui.page_groups, Builtins.slice, Builtins.clip, Ui._PAGE_SIZE.
  destruct (Z.leb_spec 0 (page * 50)); [| lia].
  destruct (Z.leb_spec 0 (page * 50 + 50)); [| lia].
  destruct (Nat.le_gt_cases (length groups) (Z.to_nat (page * 50))) as [Hge|Hlt].
  - rewrite (Nat.min_r (Z.to_nat (page * 50))) by done.
    rewrite !drop_ge by lia. by rewrite !take_nil.
  - rewrite (Nat.min_l (Z.to_nat (page * 50))) by lia.
    set (a := Z.to_nat (page * 50)) in *.
    destruct (Nat.le_gt_cases (length groups) (Z.to_nat (page * 50 + 50))).
    + rewrite (Nat.min_r (Z.to_nat (page * 50 + 50))) by done.
      rewrite !take_ge; [done | rewrite length_drop; lia | rewrite length_drop; lia].
    + rewrite Nat.min_l by lia. f_equal. lia.
Qed.

Lemma pages_concat {A} (groups : list A) (n : nat) :
  concat (map (Ui.page_groups groups) (seqZ 0 (Z.of_nat n))) = take (50 * n) groups.
Proof.
  induction n as [|n IH]; [done |].
  rewrite seqZ_S, map_app, concat_app, IH.
  replace (concat (map (Ui.page_groups groups) [0 + Z.of_nat n]))
    with (Ui.page_groups groups (Z.of_nat n))
    by (cbn [map concat]; by rewrite app_nil_r, Z.add_0_l).
  rewrite page_groups_take_drop by lia.
  replace (Z.to_nat (Z.of_nat n * 50)) with (50 * n)%nat by lia.
  rewrite take_take_drop. f_equal. lia.
Qed.

Lemma total_pages_bounds {A} (groups : list A) :
  1 <= Ui.total_pages groups
  /\ Z.of_nat (length groups) <= 50 * Ui.total_pages groups
  /\ (groups <> [] -> 50 * (Ui.total_pages groups - 1) < Z.of_nat (length groups)).
Proof.
  unfold Ui.total_pages, Ui._PAGE_SIZE.
  pose proof (Z.div_mod (Z.of_nat (length groups) + 50 - 1) 50 ltac:(lia)) as Hdm.
  pose proof (Z.mod_pos_bound (Z.of_nat (length groups) + 50 - 1) 50 ltac:(lia)).
  split_and!; [lia | lia |].
  intros Hne. assert (0 < Z.of_nat (length groups)) by (destruct groups; simpl; [done | lia]).
  lia.
Qed.

(** X21.  The pages of the trades screen split the groups to show into
    consecutive runs: pages [0] to [total_pages - 1], one after the
    other, are the whole list, each group on exactly one page; no page
    holds more than 50 groups and, unless there is no group at all, none
    of these pages is empty. *)
Theorem pages_cover_the_groups {A} (groups : list A) :
  concat (map (Ui.page_groups groups) (seqZ 0 (Ui.total_pages groups))) = groups
  /\ (forall page, (length (Ui.page_groups groups page) <= 50)%nat)
  /\ (forall page,
        0 <= page < Ui.total_pages groups -> groups <> [] ->
        Ui.page_groups groups page <> []).
Proof.
  destruct (total_pages_bounds groups) as (H1 & H2 & H3). split_and!.
  - rewrite <- (Z2Nat.id (Ui.total_pages groups)) by lia.
    rewrite pages_concat. apply take_ge. lia.
  - intros page. unfold Ui.page_groups, Builtins.slice, Builtins.clip, Ui._PAGE_SIZE.
    rewrite length_take.
    destruct (0 <=? page * 50) eqn:Ha; destruct (0 <=? page * 50 + 50) eqn:Hb; lia.
  - intros page Hp Hne. rewrite page_groups_take_drop by lia.
    specialize (H3 Hne). intros Hnil. apply (f_equal length) in Hnil.
    rewrite length_take, length_drop in Hnil.
    change (length (@nil A)) with 0%nat in Hnil. lia.
Qed.

Lemma pages_cover_the_groups_witness :
  Ui.total_pages (seq 0 120) = 3
  /\ length (Ui.page_groups (seq 0 120) 2) = 20%nat
  /\ Ui.page_groups (seq 0 120) 2 <> [].
Proof.
  split; [reflexivity |]. split; [reflexivity |].
  apply (proj2 (proj2 (pages_cover_the_groups (seq 0 120))) 2).
  - vm_compute. split; [discriminate | reflexivity].
  - discriminate.
Defined.

(* ===================================================================== *)
(** ** The trades screen *)
(* ===================================================================== *)

Section TradesScreenFacts.
Context {R : Type} (row : TradeGroup -> result R).
Implicit Types s : @Ui.TradesScreen R.

Lemma _render_table_shown s s' :
  0 <= Ui._trade_page s -> Ui._render_table row s = OK s' ->
  shown row s'
  /\ Ui._all_groups s' = Ui._all_groups s
  /\ Ui._active_filters s' = Ui._active_filters s
  /\ Ui._trade_page s' = Z.min (Ui._trade_page s) (Ui.total_pages (Ui._filtered_groups s) - 1)
  /\ Ui.filter_buttons s' = Ui.filter_buttons s
  /\ Ui.active_buttons s' = Ui.active_buttons s.
Proof.
  intros Hp. unfold Ui._render_table. intros H. bind_ok H rows Hrows.
  injection H as <-.
  destruct (total_pages_bounds (Ui._filtered_groups s)) as (H1 & _).
  split_and!; try done. unfold shown.
  change (Ui._filtered_groups _) with (Ui._filtered_groups s). cbn [Ui._trade_page
    Ui.table Ui.page_label Ui.prev_disabled Ui.next_disabled].
  set (pages := Ui.total_pages (Ui._filtered_groups s)) in *.
  split_and!; [lia | lia | done | done | |].
  - rewrite Z.eqb_eq. done.
  - rewrite Z.leb_le. lia.
Qed.

End TradesScreenFacts.

(** X22.  [_render_table] makes the widgets of the trades screen agree
    with its attributes, whenever the page number is not negative: the
    page is brought into range, the table holds the rows of that page of
    the filtered groups, the label reads [page + 1 / pages], the
    previous-page button is disabled on the first page only and the
    next-page button on the last page only.  [on_button_pressed] keeps
    this agreement, whatever button is pressed. *)
Theorem trades_screen_stays_consistent {R} (row : TradeGroup -> result R)
    (s s' : @Ui.TradesScreen R) :
  (0 <= Ui._trade_page s -> Ui._render_table row s = OK s' -> shown row s')
  /\ (forall id, shown row s -> Ui.on_button_pressed row s id = OK s' -> shown row s').
Proof.
  split.
  - intros Hp H. by apply (_render_table_shown row s s').
  - intros id Hs. pose proof Hs as ([Hp _] & _). unfold Ui.on_button_pressed.
    destruct (decide (default "" id = "trade-prev")).
    { destruct (Z.ltb_spec 0 (Ui._trade_page s)); [| by intros [= <-]].
      intros Hr. apply (_render_table_shown row) in Hr; [tauto | simpl; lia]. }
    destruct (decide (default "" id = "trade-next")).
    { destruct (Z.ltb_spec (Ui._trade_page s) (Ui.total_pages (Ui._filtered_groups s) - 1));
        [| by intros [= <-]].
      intros Hr. apply (_render_table_shown row) in Hr; [tauto | simpl; lia]. }
    destruct (negb (Str.startswith "filter-" (default "" id))); [by intros [= <-] |].
    intros Hr. apply (_render_table_shown row) in Hr; [tauto | simpl; lia].
Qed.

Lemma trades_screen_stays_consistent_witness :
  exists s1 s2,
    Ui._render_table market_row a_screen = OK s1
    /\ Ui.on_button_pressed market_row s1 (Some "filter-nba") = OK s2
    /\ shown market_row s1 /\ shown market_row s2
    /\ Ui.page_label s1 = "1 / 1" /\ Ui.table s1 = ["0xB"; "0xA"; "0xA"].
Proof.
  eexists. eexists.
  split; [vm_compute; reflexivity |]. split; [vm_compute; reflexivity |].
  match goal with
  | |- shown _ ?s1 /\ shown _ ?s2 /\ _ =>
      assert (shown market_row s1) as H1
        by (apply (proj1 (trades_screen_stays_consistent market_row a_screen s1));
            [vm_compute; discriminate | vm_compute; reflexivity]);
      assert (shown market_row s2) as H2
        by (apply (proj2 (trades_screen_stays_consistent market_row s1 s2)
                     (Some "filter-nba") H1); vm_compute; reflexivity)
  end.
  split; [exact H1 |]. split; [exact H2 |]. split; reflexivity.
Defined.

Lemma substring_all (s : string) : String.substring 0 (String.length s) s = s.
Proof. induction s as [|c s IH]; simpl; [done | by rewrite IH]. Qed.

Lemma filter_id_suffix (x : string) :
  Str.startswith "filter-" ("filter-" ++ x) = true
  /\ Str.removeprefix "filter-" ("filter-" ++ x) = x.
Proof.
  unfold Str.startswith, Str.removeprefix. simpl.
  change ("" +:+ x) with x. destruct x; simpl; (split; [done |]);
    [done | by rewrite substring_all].
Qed.

Lemma btn_suffix_decode_encode (cat : string) :
  cat <> "other" -> Ui._btn_suffix_to_cat (Ui._cat_to_btn_suffix cat) = cat.
Proof.
  intros Ho. unfold Ui._btn_suffix_to_cat, Ui._cat_to_btn_suffix.
  destruct (decide (cat = Account.unknown_outcome)) as [->|Hd].
  - by rewrite decide_True.
  - by rewrite decide_False.
Qed.

(** After [_sync_button_states] a filter button is active exactly when
    its category is among the filters. *)
Lemma sync_buttons_spec (filters : gset string) (ids : list string)
    (active : gset string) (id : string) :
  id <> "filter-all" ->
  id ∈ fold_left (Ui.sync_button filters) ids active
  <-> if decide (id ∈ ids)
      then Ui._btn_suffix_to_cat (Str.removeprefix "filter-" id) ∈ filters
      else id ∈ active.
Proof.
  intros Hid. revert active. induction ids as [|x ids IH]; intros active; simpl.
  - done.
  - rewrite IH. clear IH. unfold Ui.sync_button.
    destruct (decide (id ∈ ids)) as [Hin|Hnin];
      destruct (decide (id ∈ x :: ids)) as [Hin'|Hnin'].
    + done.
    + exfalso. apply Hnin'. by right.
    + apply elem_of_cons in Hin' as [->|?]; [| done].
      rewrite decide_False by done.
      destruct (decide (_ ∈ filters)).
      * rewrite elem_of_union, elem_of_singleton. tauto.
      * rewrite elem_of_difference, elem_of_singleton. tauto.
    + assert (id <> x) by (intros ->; apply Hnin'; left).
      destruct (decide (x = "filter-all")); [done |].
      destruct (decide (_ ∈ filters)).
      * rewrite elem_of_union, elem_of_singleton. tauto.
      * rewrite elem_of_difference, elem_of_singleton. tauto.
Qed.

(** X23.  Pressing the "All" button of the trades screen clears the
    category filters, so every group is listed again.  Pressing the
    button made for a category, other than ["other"] and ["all"], adds
    the category to the filters or removes it when it is there, and
    pressing it again restores the filters.  Either way the screen goes
    back to the first page, and afterwards a filter button carries the
    class [active] exactly when its category is among the filters. *)
Theorem filter_buttons_toggle_categories {R} (row : TradeGroup -> result R)
    (s : @Ui.TradesScreen R) :
  (forall s1,
     Ui.on_button_pressed row s (Some "filter-all") = OK s1 ->
     Ui._active_filters s1 = ∅ /\ Ui._trade_page s1 = 0
     /\ Ui._filtered_groups s1 = Ui._all_groups s)
  /\ (forall cat s1,
        cat <> "other" -> cat <> "all" ->
        Ui.on_button_pressed row s (Some ("filter-" ++ Ui._cat_to_btn_suffix cat))
          = OK s1 ->
        Ui._active_filters s1
        = (if decide (cat ∈ Ui._active_filters s) then Ui._active_filters s ∖ {[cat]}
           else {[cat]} ∪ Ui._active_filters s)
        /\ Ui._trade_page s1 = 0
        /\ Ui._all_groups s1 = Ui._all_groups s
        /\ (forall id,
              id ∈ Ui.filter_buttons s1 -> id <> "filter-all" ->
              id ∈ Ui.active_buttons s1
              <-> Ui._btn_suffix_to_cat (Str.removeprefix "filter-" id)
                  ∈ Ui._active_filters s1)
        /\ forall s2,
             Ui.on_button_pressed row s1
               (Some ("filter-" ++ Ui._cat_to_btn_suffix cat)) = OK s2 ->
             Ui._active_filters s2 = Ui._active_filters s).
Proof.
  assert (forall (s0 s1 : @Ui.TradesScreen R) cat,
            cat <> "other" -> cat <> "all" ->
            Ui.on_button_pressed row s0
              (Some ("filter-" ++ Ui._cat_to_btn_suffix cat)) = OK s1 ->
            let filters :=
              if decide (cat ∈ Ui._active_filters s0)
              then Ui._active_filters s0 ∖ {[cat]}
              else {[cat]} ∪ Ui._active_filters s0 in
            Ui._render_table row
              (Ui._sync_button_states
                 (Ui.with_page (Ui.with_filters s0 filters) 0)) = OK s1) as Hpress.
  { intros s0 s1 cat Ho Ha. unfold Ui.on_button_pressed.
    cbn [default from_option Datatypes.id].
    destruct (filter_id_suffix (Ui._cat_to_btn_suffix cat)) as [-> ->].
    rewrite (btn_suffix_decode_encode cat Ho).
    destruct (decide (_ = "trade-prev")) as [Heq|_]; [by simpl in Heq |].
    destruct (decide (_ = "trade-next")) as [Heq|_]; [by simpl in Heq |].
    destruct (decide (_ = "filter-all")) as [Heq|_];
      [| cbn [negb]; intros H; exact H].
    exfalso. simpl in Heq. injection Heq as Heq.
    unfold Ui._cat_to_btn_suffix in Heq.
    destruct (decide (cat = Account.unknown_outcome)); [done | by apply Ha]. }
  split.
  - intros s1. unfold Ui.on_button_pressed. simpl. intros H.
    apply (_render_table_shown row) in H as (_ & Hg & Hf & Hp & _); [| simpl; lia].
    simpl in Hg, Hf, Hp.
    destruct (total_pages_bounds
                (Ui._filtered_groups
                   (Ui._sync_button_states
                      (Ui.with_page (Ui.with_filters s ∅) 0)))) as (H1 & _).
    split_and!; [done | lia |].
    unfold Ui._filtered_groups. rewrite Hf, Hg. by rewrite decide_True.
  - intros cat s1 Ho Ha H. apply Hpress in H; [| done | done].
    apply (_render_table_shown row) in H as (_ & Hg & Hf & Hp & Hb & Hact);
      [| simpl; lia].
    simpl in Hg, Hf, Hp, Hb, Hact.
    match type of Hp with
    | _ = Z.min 0 (Ui.total_pages ?l - 1) =>
        destruct (total_pages_bounds l) as (H1 & _)
    end.
    split_and!; [done | lia | done | |].
    + intros id Hid Hne. rewrite Hact, Hf, Hb in *.
      rewrite (sync_buttons_spec _ _ _ _ Hne). by rewrite decide_True.
    + intros s2 H2. apply Hpress in H2; [| done | done].
      apply (_render_table_shown row) in H2 as (_ & _ & Hf2 & _); [| simpl; lia].
      simpl in Hf2. rewrite Hf2, Hf.
      destruct (decide (cat ∈ Ui._active_filters s)) as [Hin|Hnin].
      * rewrite decide_False
          by (rewrite elem_of_difference, elem_of_singleton; tauto).
        apply set_eq. intros x. rewrite elem_of_union, elem_of_difference,
          elem_of_singleton. destruct (decide (x = cat)) as [->|]; tauto.
      * rewrite decide_True by (rewrite elem_of_union, elem_of_singleton; tauto).
        apply set_eq. intros x. rewrite elem_of_difference, elem_of_union,
          elem_of_singleton. destruct (decide (x = cat)) as [->|]; tauto.
Qed.

Lemma filter_buttons_toggle_categories_witness :
  exists s1,
    Ui.on_button_pressed market_row a_screen (Some "filter-nba") = OK s1
    /\ Ui._active_filters s1 = {[ "nba" ]} ∪ ∅
    /\ Ui._trade_page s1 = 0.
Proof.
  eexists. split; [vm_compute; reflexivity |].
  destruct (proj2 (filter_buttons_toggle_categories market_row a_screen) "nba" _
              ltac:(discriminate) ltac:(discriminate)
              ltac:(vm_compute; reflexivity)) as (Hf & Hp & _).
  split; [exact Hf | exact Hp].
Defined.

(* ===================================================================== *)
(** ** [get_trade_groups]: one group per key *)
(* ===================================================================== *)

Lemma trade_of_activity_market E b (a : Account.record) (t : Trade) :
  Account.trade_of_activity E b a = OK t -> a !! "conditionId" = Some (market t).
Proof.
  unfold Account.trade_of_activity. intros H.
  bind_ok H id0 Hid. bind_ok H cid Hcid. apply getitem_OK in Hcid.
  repeat (apply bind_OK in H as (? & _ & H)).
  destruct b; repeat (apply bind_OK in H as (? & _ & H)); by injection H as <-.
Qed.

Lemma NoDup_map_pair {A B C} (f : A -> B) (g : A -> C) (l : list A) :
  NoDup (map f l) -> NoDup (map (fun x => (f x, g x)) l).
Proof.
  induction l as [|x l IH]; simpl; intros H; [constructor |].
  apply NoDup_cons in H as [Hx H]. apply NoDup_cons. split; [| by apply IH].
  intros Hin. apply Hx. apply list_elem_of_fmap in Hin as (y & [= -> _] & Hy).
  apply list_elem_of_fmap. eauto.
Qed.

Lemma reconciled_key E rs g g' : reconciled E rs g g' -> group_key g' = group_key g.
Proof.
  unfold reconciled. destruct rs; [by intros -> |].
  by intros (total & latest & old & _ & _ & _ & ->).
Qed.

(** X24.  [get_trade_groups] returns at most one group for a (market,
    outcome), and the markets of its groups are exactly the
    [conditionId]s of the TRADE and REDEEM activities of the feed: no
    market is lost, none is invented. *)
Theorem trade_groups_one_per_key E (activities : list Account.record)
    (result : list TradeGroup) :
  Account.get_trade_groups E activities = OK result ->
  NoDup (map group_key result)
  /\ forall cid,
       cid ∈ map g_market result
       <-> exists a,
             a ∈ activities /\ a !! "conditionId" = Some cid
             /\ (a !! "type" = Some "TRADE" \/ a !! "type" = Some "REDEEM").
Proof.
  intros H.
  apply get_trade_groups_OK in H
    as (trades & groups & redeems & augmented & redeem_only
        & Htrades & Hgroups & Hredeems & Haug & Hro & Hperm & _).
  destruct (reconciled_market _ _ _ _ _ Hredeems Haug) as [Hrec Hmk].
  destruct (group_redeems_OK _ _ Hredeems) as [Hnd Hin].
  pose proof (redeem_only_markets _ _ _ Hro) as Hromk.
  destruct (group_keys_spec _ _ _ Hgroups) as [Hndg Hkeys].
  set (grouped := list_to_set (map g_market groups) : gset string) in *.
  set (crs := filter (fun cr => fst cr ∉ grouped) redeems) in *.
  assert (NoDup (map fst crs)) as Hndc.
  { eapply sublist_NoDup; [exact Hnd |]. apply fmap_sublist, sublist_filter. }
  assert (map group_key augmented = map group_key groups) as Hka.
  { clear -Hrec. induction Hrec as [|g g' gs gs' Hg _ IH]; simpl; [done |].
    by rewrite (reconciled_key _ _ _ _ Hg), IH. }
  assert (forall cid, cid ∈ map fst crs <->
            (cid ∉ map g_market groups) /\ redeems_of cid activities <> [])
    as Hcrs.
  { intros cid. split.
    - intros ([c rs] & -> & Hcr)%list_elem_of_fmap.
      apply list_elem_of_filter in Hcr as [Hnot Hcr]. simpl in *.
      apply Hin in Hcr as [-> Hne]. split; [| done].
      unfold grouped in Hnot. by rewrite elem_of_list_to_set in Hnot.
    - intros [Hnot Hne]. apply list_elem_of_fmap.
      exists (cid, redeems_of cid activities). split; [done |].
      apply list_elem_of_filter. split; [| by apply Hin].
      simpl. unfold grouped. by rewrite elem_of_list_to_set. }
  split.
  - rewrite Hperm, map_app. apply NoDup_app. split_and!.
    + by rewrite Hka.
    + intros k Hk Hk'.
      apply list_elem_of_fmap in Hk as (g & -> & Hg).
      apply list_elem_of_fmap in Hk' as (g' & Hkk & Hg').
      assert (g_market g' ∈ map fst crs) as Hc.
      { rewrite <- Hromk. apply list_elem_of_fmap. eauto. }
      apply Hcrs in Hc as [Hnot _]. apply Hnot. rewrite <- Hmk.
      replace (g_market g') with (g_market g) by (by injection Hkk).
      apply list_elem_of_fmap. eauto.
    + apply (NoDup_map_pair g_market g_outcome). by rewrite Hromk.
  - intros cid.
    assert (cid ∈ map g_market groups <->
            exists a, a ∈ activities /\ a !! "conditionId" = Some cid
                      /\ a !! "type" = Some "TRADE") as Htr.
    { apply trade_activities_OK in Htrades. apply mapM_OK_Forall2 in Htrades.
      split.
      - intros (g & -> & Hg)%list_elem_of_fmap.
        assert (group_key g ∈ map trade_key trades) as Hk.
        { apply Hkeys. apply list_elem_of_fmap. eauto. }
        apply list_elem_of_fmap in Hk as (t & Hkt & Ht).
        apply list_elem_of_lookup_1 in Ht as [i Hi].
        destruct (Forall2_lookup_r _ _ _ _ _ Htrades Hi) as (a & Ha & Hta).
        apply list_elem_of_lookup_2 in Ha. unfold trades_of in Ha.
        apply list_elem_of_filter in Ha as [Hty Ha].
        exists a. split_and!; [done | | done].
        rewrite (trade_of_activity_market _ _ _ _ Hta). f_equal.
        by injection Hkt.
      - intros (a & Ha & Hcid & Hty).
        assert (a ∈ trades_of activities) as Hat
          by (by apply list_elem_of_filter).
        apply list_elem_of_lookup_1 in Hat as [i Hi].
        destruct (Forall2_lookup_l _ _ _ _ _ Htrades Hi) as (t & Ht & Hta).
        apply list_elem_of_lookup_2 in Ht.
        pose proof (trade_of_activity_market _ _ _ _ Hta) as Hm.
        assert (trade_key t ∈ map group_key groups) as Hk.
        { apply Hkeys. apply list_elem_of_fmap. eauto. }
        apply list_elem_of_fmap in Hk as (g & Hkg & Hg).
        apply list_elem_of_fmap. exists g. split; [| done].
        assert (market t = g_market g) by (by injection Hkg). congruence. }
    assert (redeems_of cid activities <> [] <->
            exists a, a ∈ activities /\ a !! "conditionId" = Some cid
                      /\ a !! "type" = Some "REDEEM") as Hrd.
    { unfold redeems_of. split.
      - intros Hne. destruct (filter _ activities) as [|a l] eqn:Hf; [done |].
        assert (a ∈ filter (fun a => a !! "type" = Some "REDEEM"
                                     /\ a !! "conditionId" = Some cid) activities)
          as Ha by (rewrite Hf; left).
        apply list_elem_of_filter in Ha as [[? ?] ?]. eauto.
      - intros (a & Ha & Hcid & Hty) Hnil.
        assert (a ∈ filter (fun a => a !! "type" = Some "REDEEM"
                                     /\ a !! "conditionId" = Some cid) activities)
          as Hin' by (by apply list_elem_of_filter).
        rewrite Hnil in Hin'. by apply elem_of_nil in Hin'. }
    rewrite Hperm, map_app, elem_of_app, Hmk, Hromk, Hcrs, Htr, Hrd. split.
    + intros [(a & ? & ? & ?)|[_ (a & ? & ? & ?)]]; exists a; tauto.
    + intros (a & Ha & Hcid & [Hty|Hty]); [left; eauto |].
      destruct (decide (cid ∈ map g_market groups)) as [Hg|Hg].
      * left. by apply Htr.
      * right. split; [by rewrite <- Htr | eauto].
Qed.

Lemma trade_groups_one_per_key_witness :
  map group_key c4_groups
  = [("0xA", "Yes"); ("0xB", Account.unknown_outcome); ("0xC", "No")]
  /\ NoDup (map group_key c4_groups).
Proof.
  split; [reflexivity |].
  apply (trade_groups_one_per_key Std.env c4_activities c4_groups).
  vm_compute. reflexivity.
Defined.

(* ===================================================================== *)
(** ** [load_settings] *)
(* ===================================================================== *)

Lemma filter_nil_inv {A} (P : A -> Prop) `{forall x, Decision (P x)} (l : list A) :
  filter P l = [] -> forall x, x ∈ l -> ~ P x.
Proof.
  intros Hnil x Hx HP.
  assert (x ∈ filter P l) as Hin by (by apply list_elem_of_filter).
  rewrite Hnil in Hin. by apply elem_of_nil in Hin.
Qed.

Lemma set_variable (environ : gmap string string) (var : string) :
  var ∈ Config.required ->
  (forall v, v ∈ Config.required -> ~ Config.unset environ v) ->
  exists val, environ !! var = Some val /\ val <> "".
Proof.
  intros Hvar Hall. specialize (Hall var Hvar). unfold Config.unset in Hall.
  destruct (environ !! var) as [val|]; [| tauto].
  exists val. split; [done |]. intros ->. tauto.
Qed.

Ltac required_var :=
  unfold Config.required; repeat first [left | right].

(** X25.  [load_settings] returns a [Settings] exactly when the five
    required variables are all set and not empty; its fields are the
    values of the variables, none of them empty, and the chain id is 137.
    Otherwise it raises its [EnvironmentError], which names exactly the
    required variables that are unset or empty; the [KeyError] of
    [os.environ[...]] never comes up. *)
Theorem load_settings_needs_all_five (environ : gmap string string) :
  (forall st,
     Config.load_settings environ = inl st ->
     (forall var, var ∈ Config.required -> ~ Config.unset environ var)
     /\ environ !! "POLYMARKET_WALLET_ADDRESS" = Some (Config.wallet_address st)
     /\ environ !! "POLYMARKET_PK" = Some (Config.private_key st)
     /\ environ !! "POLYMARKET_API_KEY" = Some (Config.api_key st)
     /\ environ !! "POLYMARKET_API_SECRET" = Some (Config.api_secret st)
     /\ environ !! "POLYMARKET_API_PASSPHRASE" = Some (Config.api_passphrase st)
     /\ Config.chain_id st = 137)
  /\ ((forall var, var ∈ Config.required -> ~ Config.unset environ var) ->
      exists st, Config.load_settings environ = inl st)
  /\ (forall e,
        Config.load_settings environ = inr e ->
        exists missing,
          e = Config.EnvironmentError missing /\ missing <> []
          /\ forall var,
               var ∈ missing <-> var ∈ Config.required /\ Config.unset environ var).
Proof.
  assert ((forall var, var ∈ Config.required -> ~ Config.unset environ var) ->
          exists w k a sc p,
            environ !! "POLYMARKET_WALLET_ADDRESS" = Some w
            /\ environ !! "POLYMARKET_PK" = Some k
            /\ environ !! "POLYMARKET_API_KEY" = Some a
            /\ environ !! "POLYMARKET_API_SECRET" = Some sc
            /\ environ !! "POLYMARKET_API_PASSPHRASE" = Some p) as Hset.
  { intros Hall.
    destruct (set_variable environ "POLYMARKET_WALLET_ADDRESS" ltac:(required_var) Hall)
      as (w & Hw & _).
    destruct (set_variable environ "POLYMARKET_PK" ltac:(required_var) Hall)
      as (k & Hk & _).
    destruct (set_variable environ "POLYMARKET_API_KEY" ltac:(required_var) Hall)
      as (a & Ha & _).
    destruct (set_variable environ "POLYMARKET_API_SECRET" ltac:(required_var) Hall)
      as (sc & Hsc & _).
    destruct (set_variable environ "POLYMARKET_API_PASSPHRASE" ltac:(required_var) Hall)
      as (p & Hp & _).
    exists w, k, a, sc, p. done. }
  unfold Config.load_settings.
  destruct (filter (Config.unset environ) Config.required) as [|m ms] eqn:Hf.
  - pose proof (filter_nil_inv _ _ Hf) as Hall.
    destruct (Hset Hall) as (w & k & a & sc & p & -> & -> & -> & -> & ->).
    split_and!.
    + intros st [= <-]. simpl. done.
    + eauto.
    + done.
  - split_and!; [done | |].
    + intros Hall. exfalso. apply (Hall m).
      * assert (m ∈ filter (Config.unset environ) Config.required) as Hm
          by (rewrite Hf; left).
        by apply list_elem_of_filter in Hm as [_ ?].
      * assert (m ∈ filter (Config.unset environ) Config.required) as Hm
          by (rewrite Hf; left).
        by apply list_elem_of_filter in Hm as [? _].
    + intros e [= <-]. exists (m :: ms). split_and!; [done | done |].
      intros var. rewrite <- Hf, list_elem_of_filter. tauto.
Qed.

Lemma load_settings_needs_all_five_witness :
  exists st,
    Config.load_settings an_environ = inl st
    /\ Config.wallet_address st = "0x1234567890abcdef" /\ Config.chain_id st = 137.
Proof.
  destruct (proj1 (proj2 (load_settings_needs_all_five an_environ))) as [st Hst].
  - intros var Hvar. unfold Config.required in Hvar.
    repeat (apply elem_of_cons in Hvar as [->|Hvar]);
      [intros [H|H]; vm_compute in H; discriminate .. | by apply elem_of_nil in Hvar].
  - exists st. split; [exact Hst |].
    destruct (proj1 (load_settings_needs_all_five an_environ) st Hst)
      as (_ & Hw & _ & _ & _ & _ & Hc).
    split; [| exact Hc].
    assert (an_environ !! "POLYMARKET_WALLET_ADDRESS" = Some "0x1234567890abcdef")
      as Hv by (vm_compute; reflexivity).
    rewrite Hv in Hw. by injection Hw as <-.
Defined.

(* ===================================================================== *)
(** ** [_fmt_pnl] *)
(* ===================================================================== *)

(** Rounding half up, as one division. *)
Lemma half_up_div (c p : Z) :
  0 <= c -> 0 < p ->
  (if p <=? 2 * (c mod p) then c / p + 1 else c / p) = (2 * c + p) / (2 * p).
Proof.
  intros Hc Hp. pose proof (Z.div_mod c p ltac:(lia)) as Hdm.
  pose proof (Z.mod_pos_bound c p Hp) as Hr.
  destruct (Z.leb_spec p (2 * (c mod p))).
  - apply (Z.div_unique _ _ _ (2 * (c mod p) - p)); lia.
  - apply (Z.div_unique _ _ _ (2 * (c mod p) + p)); lia.
Qed.

Lemma ltb_zero_l (x : Dec.t) : Dec.ltb (Dec.of_Z 0) x = (0 <? Dec.coef x).
Proof.
  unfold Dec.ltb. rewrite (compare_antisym x), compare_zero_r.
  destruct (Z.compare_spec (Dec.coef x) 0), (Z.ltb_spec 0 (Dec.coef x)); simpl;
    try done; lia.
Qed.

Lemma ltb_zero_r (x : Dec.t) : Dec.ltb x (Dec.of_Z 0) = (Dec.coef x <? 0).
Proof.
  unfold Dec.ltb. rewrite compare_zero_r.
  destruct (Z.compare_spec (Dec.coef x) 0), (Z.ltb_spec (Dec.coef x) 0); simpl;
    try done; lia.
Qed.

(** The amount [_fmt_pnl] shows, for an amount with more than two
    decimal places. *)
Lemma fmt_pnl_val (pnl : Dec.t) :
  Z.abs (Dec.coef pnl) < 10 ^ Dec.prec -> Dec.expo pnl < - 2 ->
  Decimal.quantize (Decimal.abs pnl) Ui._FMT Decimal.ROUND_HALF_UP
  = Some (Dec.mk ((2 * Z.abs (Dec.coef pnl) + 10 ^ (- 2 - Dec.expo pnl))
                  / (2 * 10 ^ (- 2 - Dec.expo pnl))) (- 2)).
Proof.
  intros Hfit He. unfold Decimal.abs.
  rewrite round_ctx_fits by (cbn [Dec.coef]; by rewrite Z.abs_idemp).
  set (c := Z.abs (Dec.coef pnl)) in *. set (e := Dec.expo pnl) in *.
  assert (0 <= c) as Hc by apply Z.abs_nonneg.
  pose proof (pow10_pos (- 2 - e) ltac:(lia)) as Hp.
  unfold Decimal.quantize, Ui._FMT. cbn [Dec.coef Dec.expo Dec.lit].
  change (Z.opp 2) with (-2).
  assert ((2 * c + 10 ^ (-2 - e)) / (2 * 10 ^ (-2 - e)) <= Z.max c 1) as Hq.
  { apply Z.div_le_upper_bound; [lia |].
    assert (10 <= 10 ^ (-2 - e)).
    { change 10 with (10 ^ 1) at 1. apply Z.pow_le_mono_r; lia. }
    nia. }
  assert (0 <= (2 * c + 10 ^ (-2 - e)) / (2 * 10 ^ (-2 - e))) as Hq0
    by (apply Z.div_pos; lia).
  destruct (Z.eqb_spec c 0) as [Hz|Hnz].
  { rewrite Hz. do 2 f_equal. symmetry. apply Z.div_small. lia. }
  pose proof (ndigits_fits (Dec.coef pnl) Hfit) as Hnd. fold c in Hnd.
  rewrite (Z.abs_eq c) by done.
  destruct (Z.ltb_spec Dec.prec (Dec.ndigits c + e - -2)); [lia |].
  assert (Decimal.rescale (Dec.mk c e) (-2) Decimal.ROUND_HALF_UP
          = Dec.mk ((2 * c + 10 ^ (-2 - e)) / (2 * 10 ^ (-2 - e))) (-2)) as ->.
  { unfold Decimal.rescale. cbn [Dec.coef Dec.expo].
    destruct (Z.leb_spec (-2) e); [lia |].
    rewrite (Z.abs_eq c) by done. rewrite Z.sgn_pos by lia.
    rewrite half_up_div by lia. f_equal. lia. }
  cbn [Dec.coef].
  set (q := (2 * c + 10 ^ (-2 - e)) / (2 * 10 ^ (-2 - e))) in *.
  assert (Dec.ndigits (Z.abs q) <= Dec.prec) as Hndq.
  { apply ndigits_fits. unfold Dec.prec in *. lia. }
  by destruct (Z.ltb_spec Dec.prec (Dec.ndigits (Z.abs q))); [lia |].
Qed.

(** X26.  [_fmt_pnl] (and [_color_pnl]) shows the absolute amount
    rounded half up to cents, in green after [+$] for a gain, in red
    after [-$] for a loss, and the fixed cyan [$0.00] for zero: for an
    amount [c * 10 ^ e] with [e < -2] and at most 28 digits the cents
    are [(2|c| + p) / 2p] with [p = 10 ^ (-2 - e)].  A gain or loss under
    half a cent is shown as [+$0.00] or [-$0.00] in its colour, not as
    the cyan zero. *)
Theorem fmt_pnl_rounds_half_up (pnl : Dec.t) :
  Z.abs (Dec.coef pnl) < 10 ^ Dec.prec -> Dec.expo pnl < - 2 ->
  let p := 10 ^ (- 2 - Dec.expo pnl) in
  let val := Dec.mk ((2 * Z.abs (Dec.coef pnl) + p) / (2 * p)) (- 2) in
  Ui._fmt_pnl pnl
  = OK (if 0 <? Dec.coef pnl
        then ("[green]+$" ++ Decimal.to_str val ++ "[/green]")%string
        else if Dec.coef pnl <? 0
        then ("[red]-$" ++ Decimal.to_str val ++ "[/red]")%string
        else "[cyan]$0.00[/cyan]")
  /\ (2 * Z.abs (Dec.coef pnl) < p -> Decimal.to_str val = "0.00").
Proof.
  intros Hfit He p val. split.
  - unfold Ui._fmt_pnl. rewrite fmt_pnl_val by done. simpl or_raise.
    cbn [mbind result_bind]. rewrite ltb_zero_l, ltb_zero_r.
    by destruct (0 <? Dec.coef pnl); [| destruct (Dec.coef pnl <? 0)].
  - intros Hsmall. unfold val.
    rewrite Z.div_small; [reflexivity |].
    pose proof (Z.abs_nonneg (Dec.coef pnl)). unfold p in *. lia.
Qed.

Lemma fmt_pnl_rounds_half_up_witness :
  Ui._fmt_pnl (Dec.lit (-12345) 3) = OK "[red]-$12.35[/red]"
  /\ Ui._fmt_pnl (Dec.lit 4 3) = OK "[green]+$0.00[/green]".
Proof.
  split.
  - rewrite (proj1 (fmt_pnl_rounds_half_up (Dec.lit (-12345) 3)
                      ltac:(vm_compute; reflexivity) ltac:(vm_compute; reflexivity))).
    vm_compute. reflexivity.
  - rewrite (proj1 (fmt_pnl_rounds_half_up (Dec.lit 4 3)
                      ltac:(vm_compute; reflexivity) ltac:(vm_compute; reflexivity))).
    vm_compute. reflexivity.
Defined.
